(** * AIVory Monitor C agent: a shallow embedding and its properties

    The development follows the C sources of the agent:

    - [src/transport/websocket.c]: the bounded message queue, the URL
      parser, the libwebsockets callback and the reconnecting worker;
    - [src/capture/backtrace.c]: the JSON escape encoder, the
      fingerprint hash, the reader of symbol entries and the array of
      frames (the build with execinfo);
    - [src/capture/signal_handler.c]: the fatal-signal handler, installed
      and removed;
    - [src/agent.c]: the default configuration, initialisation and
      shutdown, sampling, the report builder, context and user, and the
      agent identifier.

    Conventions.  A C string is a [string]: the bytes before the
    terminating NUL.  A pointer that may be NULL is an [option].  C [int]
    and [unsigned long] values are integers in [Z], with the wrap-around
    written where the source can reach it.  An allocation whose result the
    source tests ([if (!p)], [if (entry)]) is an explicit [bool] argument of
    the embedded function ([true]: the allocation succeeded), the scratch
    buffer of [ws_send_message] apart (see there); [strdup], whose result
    the source never tests, is taken to succeed, as the source does.  What
    libc, the kernel or libwebsockets answer (time, random draws,
    backtraces, thread creation, network events) is an argument of the
    function that asks, and what a function does to the outside is the
    list of [effect]s it returns. *)

From Stdlib Require Import ZArith List String Ascii Bool Lia Floats Uint63.
From Stdlib Require Import DecimalString.
Import ListNotations.

Local Open Scope Z_scope.

(** ** Constants of [include/aivory/config.h] *)

Definition AIVORY_MESSAGE_QUEUE_SIZE : Z := 100.
Definition AIVORY_DEFAULT_MAX_STRING_LENGTH : Z := 1000.

(** ** The message queue ([queue_init], [queue_push], [queue_pop]) *)

Module Queue.

(** [aivory_queue_t].  The singly linked chain from [head] to [tail] is the
    list [entries], oldest first: [head] is NULL exactly when the list is
    empty, and [tail] is its last cell.  [count] and [max_size] are the
    fields of the struct, kept as the code keeps them. *)
Record aivory_queue_t : Type := mkQueue {
  entries : list string;
  count : Z;
  max_size : Z
}.

Definition queue_init : aivory_queue_t :=
  {| entries := []; count := 0; max_size := AIVORY_MESSAGE_QUEUE_SIZE |}.

Definition head_is_null (q : aivory_queue_t) : bool :=
  match entries q with
  | [] => true
  | _ :: _ => false
  end.

(** The first block of [queue_push]: "If queue is full, remove oldest". *)
Definition evict_if_full (q : aivory_queue_t) : aivory_queue_t :=
  if (count q >=? max_size q) && negb (head_is_null q)
  then {| entries := tl (entries q);
          count := count q - 1;
          max_size := max_size q |}
  else q.

(** [queue_push queue json]; [entry_ok] is the result of
    [malloc(sizeof(aivory_queue_entry_t))]. *)
Definition queue_push (entry_ok : bool) (q : aivory_queue_t) (json : string)
  : aivory_queue_t :=
  let q1 := evict_if_full q in
  if entry_ok
  then {| entries := entries q1 ++ [json];
          count := count q1 + 1;
          max_size := max_size q1 |}
  else q1.

(** [queue_pop]: the popped string (NULL, here [None], on an empty queue)
    and the queue afterwards. *)
Definition queue_pop (q : aivory_queue_t) : option string * aivory_queue_t :=
  match entries q with
  | [] => (None, q)
  | json :: rest =>
      (Some json,
       {| entries := rest; count := count q - 1; max_size := max_size q |})
  end.

Definition queue_has_messages (q : aivory_queue_t) : bool := count q >? 0.

(** An interleaving of pushes and pops, in program order.  In a run every
    entry allocation succeeds. *)
Inductive op : Type :=
| Push (json : string)
| Pop.

Definition step (q : aivory_queue_t) (o : op) : aivory_queue_t :=
  match o with
  | Push json => queue_push true q json
  | Pop => snd (queue_pop q)
  end.

Definition run (ops : list op) (q : aivory_queue_t) : aivory_queue_t :=
  fold_left step ops q.

(** The records pushed by an interleaving, oldest first. *)
Fixpoint pushed (ops : list op) : list string :=
  match ops with
  | [] => []
  | Push json :: rest => json :: pushed rest
  | Pop :: rest => pushed rest
  end.

Fixpoint pops (ops : list op) : Z :=
  match ops with
  | [] => 0
  | Push _ :: rest => pops rest
  | Pop :: rest => 1 + pops rest
  end.

Definition pushes (ops : list op) : Z := Z.of_nat (List.length (pushed ops)).

(** The number of live entries by counting alone, from [k]: a push adds
    one unless the queue is full, a pop takes one unless the queue is
    empty. *)
Fixpoint live (ops : list op) (k : Z) : Z :=
  match ops with
  | [] => k
  | Push _ :: rest => live rest (Z.min (k + 1) AIVORY_MESSAGE_QUEUE_SIZE)
  | Pop :: rest => live rest (Z.max (k - 1) 0)
  end.

(** The invariant of the struct: [count] is the length of the chain and
    stays within the bound. *)
Definition wf (q : aivory_queue_t) : Prop :=
  count q = Z.of_nat (List.length (entries q)) /\
  count q <= max_size q /\
  max_size q = AIVORY_MESSAGE_QUEUE_SIZE.

(** [n] pushes, of the records [R<from>], [R<from+1>], ... in this order. *)
Fixpoint push_many (n : nat) (from : nat) : list op :=
  match n with
  | O => []
  | S n' => Push (String "R" (NilZero.string_of_uint (Nat.to_uint from)))
            :: push_many n' (S from)
  end.

(** Popping until [queue_pop] returns NULL, as the loop that drains the
    queue does: the records popped, in the order popped, and the queue
    left.  [fuel] bounds the number of pops. *)
Fixpoint pop_all (fuel : nat) (q : aivory_queue_t) : list string * aivory_queue_t :=
  match fuel with
  | O => ([], q)
  | S fuel' =>
      match queue_pop q with
      | (None, q') => ([], q')
      | (Some json, q') =>
          let (rest, q'') := pop_all fuel' q' in (json :: rest, q'')
      end
  end.

End Queue.

(** ** Characters and C strings *)

Module C.

Definition dquote : ascii := ascii_of_nat 34.
Definition backslash : ascii := ascii_of_nat 92.
Definition newline : ascii := ascii_of_nat 10.
Definition carriage_return : ascii := ascii_of_nat 13.
Definition tab : ascii := ascii_of_nat 9.
Definition nul : ascii := ascii_of_nat 0.

(** The byte of a character, as an [unsigned char]. *)
Definition byte_of (c : ascii) : Z := Z.of_N (N_of_ascii c).

(** One-character string. *)
Definition str1 (c : ascii) : string := String c EmptyString.

(** The C string held in a buffer of bytes: what [strlen], [strstr] and
    [%s] see of it, the bytes before the first NUL. *)
Fixpoint cstr (buf : string) : string :=
  match buf with
  | EmptyString => EmptyString
  | String c rest => if Ascii.eqb c nul then EmptyString else String c (cstr rest)
  end.

(** [strstr(haystack, needle) != NULL]. *)
Fixpoint strstr (haystack needle : string) : bool :=
  String.prefix needle haystack ||
  match haystack with
  | EmptyString => false
  | String _ rest => strstr rest needle
  end.

(** [strlen] as a C integer. *)
Definition strlen (s : string) : Z := Z.of_nat (String.length s).

(** [snprintf] returns an [int]: the length of the text, or a negative
    value when that length does not fit. *)
Definition snprintf_result (text : string) : Z :=
  if strlen text <? 2 ^ 31 then strlen text else -1.

(** The first [n] bytes of a string. *)
Definition take (n : nat) (s : string) : string := String.substring 0 n s.

(** Format strings of the source are written here with an apostrophe for
    each double quote of the C literal; [js] puts the double quotes back.
    No format string of the source has an apostrophe of its own. *)
Fixpoint js (s : string) : string :=
  match s with
  | EmptyString => EmptyString
  | String c rest =>
      String (if Ascii.eqb c "'"%char then dquote else c) (js rest)
  end.

(** [%s] of a pointer that may be NULL, as glibc prints it. *)
Definition fmt_s (s : option string) : string :=
  match s with
  | Some s => s
  | None => "(null)"%string
  end.

(** [%d] and [%ld]. *)
Definition fmt_d (z : Z) : string :=
  DecimalString.NilZero.string_of_int (Z.to_int z).

Definition hex_digit (d : Z) : ascii :=
  match d with
  | 0 => "0" | 1 => "1" | 2 => "2" | 3 => "3" | 4 => "4" | 5 => "5"
  | 6 => "6" | 7 => "7" | 8 => "8" | 9 => "9" | 10 => "a" | 11 => "b"
  | 12 => "c" | 13 => "d" | 14 => "e" | _ => "f"
  end%char.

(** The digits of [%lx], most significant first; [fuel] bounds their
    number (16 for a value below 2^64). *)
Fixpoint hex_digits (fuel : nat) (v : Z) (acc : string) : string :=
  match fuel with
  | O => acc
  | S fuel' =>
      let acc' := String (hex_digit (v mod 16)) acc in
      if v / 16 =? 0 then acc' else hex_digits fuel' (v / 16) acc'
  end.

(** [%p] of a pointer below 2^64, as glibc prints it. *)
Definition fmt_p (addr : option Z) : string :=
  match addr with
  | None => "(nil)"%string
  | Some a => if a =? 0 then "(nil)"%string
              else ("0x" ++ hex_digits 16 a EmptyString)%string
  end.

End C.

(** ** The platform

    What the C implementation leaves to the platform and the sources rely
    on: the width of [long] and [unsigned long], whether plain [char] is
    signed, and the literals the [#ifdef]s select. *)

Record platform : Type := mkPlatform {
  ulong_bits : Z;
  char_is_signed : bool;
  os_name : string;        (* "linux", "darwin", "windows" or "unknown" *)
  register_arch : string;  (* the arch literal of websocket.c *)
  runtime_arch : string    (* the arch literal of agent.c *)
}.

(** The targets the sources name in their [#ifdef]s. *)
Definition linux_x86_64 : platform :=
  {| ulong_bits := 64; char_is_signed := true;
     os_name := "linux"; register_arch := "x64"; runtime_arch := "x86_64" |}.
Definition linux_aarch64 : platform :=
  {| ulong_bits := 64; char_is_signed := false;
     os_name := "linux"; register_arch := "arm64"; runtime_arch := "arm64" |}.
Definition linux_i386 : platform :=
  {| ulong_bits := 32; char_is_signed := true;
     os_name := "linux"; register_arch := "x86"; runtime_arch := "x86" |}.
Definition windows_x64 : platform :=
  {| ulong_bits := 32; char_is_signed := true;
     os_name := "windows"; register_arch := "x64"; runtime_arch := "x86_64" |}.

Definition supported (pf : platform) : Prop :=
  ulong_bits pf = 32 \/ ulong_bits pf = 64.

(** Conversion to [long], of [ulong_bits] bits in two's complement. *)
Definition to_long (pf : platform) (z : Z) : Z :=
  (z + 2 ^ (ulong_bits pf - 1)) mod 2 ^ ulong_bits pf - 2 ^ (ulong_bits pf - 1).

(** [(long) t * 1000] for a [time_t] [t]: the cast, then the product in
    [long].  Where the product leaves the range of [long] (a [long] of 32
    bits, at the present time) C leaves the behaviour undefined; the
    compiled code of the targets keeps the low bits, and so does this. *)
Definition milliseconds (pf : platform) (t : Z) : Z :=
  to_long pf (to_long pf t * 1000).

(** ** Escaping and fingerprints ([src/capture/backtrace.c]) *)

Module Backtrace.
Import C.

(** The [switch] in the loop of [escape_json_string]: the bytes written at
    [dst] for the source byte [c]. *)
Definition escape_char (c : ascii) : string :=
  if Ascii.eqb c dquote then String backslash (str1 dquote)
  else if Ascii.eqb c backslash then String backslash (str1 backslash)
  else if Ascii.eqb c newline then String backslash (str1 "n"%char)
  else if Ascii.eqb c carriage_return then String backslash (str1 "r"%char)
  else if Ascii.eqb c tab then String backslash (str1 "t"%char)
  else str1 c.

(** The [for] loop: [src] is what is left to read, [dst] what was written
    so far. *)
Fixpoint escape_loop (src dst : string) : string :=
  match src with
  | EmptyString => dst
  | String c rest => escape_loop rest (dst ++ escape_char c)
  end.

(** [escape_json_string str]; [escaped_ok] is the result of
    [malloc(len * 2 + 1)]. *)
Definition escape_json_string (escaped_ok : bool) (str : option string) : string :=
  match str with
  | None => EmptyString
  | Some s => if escaped_ok then escape_loop s EmptyString else EmptyString
  end.

(** The bytes the buffer of [escape_json_string] has room for, NUL included. *)
Definition escaped_capacity (s : string) : Z := strlen s * 2 + 1.

(** The decoder of the escaped form.  The agent has none (the collecting
    service decodes); this is the inverse reading of the five escapes of
    the encoder, every other byte standing for itself, and a backslash
    before anything else, or at the end, being an error. *)
Fixpoint unescape_json_string (s : string) : option string :=
  match s with
  | EmptyString => Some EmptyString
  | String c rest =>
      if Ascii.eqb c backslash then
        match rest with
        | EmptyString => None
        | String e rest' =>
            let decoded :=
              if Ascii.eqb e dquote then Some dquote
              else if Ascii.eqb e backslash then Some backslash
              else if Ascii.eqb e "n"%char then Some newline
              else if Ascii.eqb e "r"%char then Some carriage_return
              else if Ascii.eqb e "t"%char then Some tab
              else None in
            match decoded, unescape_json_string rest' with
            | Some d, Some tail => Some (String d tail)
            | _, _ => None
            end
        end
      else
        match unescape_json_string rest with
        | Some tail => Some (String c tail)
        | None => None
        end
  end.

(** The bytes the encoder treats specially. *)
Definition is_special (c : ascii) : bool :=
  Ascii.eqb c dquote || Ascii.eqb c backslash || Ascii.eqb c newline
  || Ascii.eqb c carriage_return || Ascii.eqb c tab.

(** *** [aivory_calculate_fingerprint] *)

(** Conversion to [unsigned long]. *)
Definition to_ulong (pf : platform) (z : Z) : Z := z mod 2 ^ ulong_bits pf.

(** The value of [*c] for a plain [char]. *)
Definition char_value (pf : platform) (c : ascii) : Z :=
  if char_is_signed pf && (128 <=? byte_of c) then byte_of c - 256 else byte_of c.

(** [hash = ((hash << 5) + hash) + *c] in [unsigned long] arithmetic. *)
Definition hash_step (pf : platform) (hash : Z) (c : ascii) : Z :=
  to_ulong pf
    (to_ulong pf (to_ulong pf (Z.shiftl hash 5) + hash)
     + to_ulong pf (char_value pf c)).

(** The loop over the bytes of [type]. *)
Fixpoint hash_type (pf : platform) (c : string) (hash : Z) : Z :=
  match c with
  | EmptyString => hash
  | String b rest => hash_type pf rest (hash_step pf hash b)
  end.

(** The loop over the bytes of [backtrace], which runs while a byte is
    left and [chars < 500], counting in [chars]. *)
Fixpoint hash_backtrace (pf : platform) (c : string) (chars : Z) (hash : Z) : Z :=
  match c with
  | EmptyString => hash
  | String b rest =>
      if chars <? 500
      then hash_backtrace pf rest (chars + 1) (hash_step pf hash b)
      else hash
  end.

Definition fingerprint_hash (pf : platform) (type backtrace : option string) : Z :=
  let hash := 5381 in
  let hash := match type with
              | Some t => hash_type pf t hash
              | None => hash
              end in
  match backtrace with
  | Some b => hash_backtrace pf b 0 hash
  | None => hash
  end.

Fixpoint zeros (n : nat) : string :=
  match n with
  | O => EmptyString
  | S n' => String "0"%char (zeros n')
  end.

(** [%016lx]: the digits, padded on the left with zeros to 16 columns. *)
Definition fmt_016lx (v : Z) : string :=
  let digits := hex_digits 16 v EmptyString in
  (zeros (16 - String.length digits) ++ digits)%string.

(** [aivory_calculate_fingerprint type backtrace]; [fingerprint_ok] is the
    result of [malloc(17)], and [snprintf(fingerprint, 17, ...)] keeps at
    most 16 bytes. *)
Definition aivory_calculate_fingerprint (pf : platform) (fingerprint_ok : bool)
    (type backtrace : option string) : option string :=
  if fingerprint_ok
  then Some (take 16 (fmt_016lx (fingerprint_hash pf type backtrace)))
  else None.

(** The hash as the specification words it: [h <- h * 33 + b] from 5381
    over a list of byte values, kept to [bits] bits. *)
Definition djb2 (bits : Z) (bs : list Z) : Z :=
  fold_left (fun h b => (h * 33 + b) mod 2 ^ bits) bs 5381.

Definition chars_of (pf : platform) (s : string) : list Z :=
  map (char_value pf) (list_ascii_of_string s).

Definition is_lower_hex (c : ascii) : bool :=
  let b := byte_of c in
  ((48 <=? b) && (b <=? 57)) || ((97 <=? b) && (b <=? 102)).

Definition is_ascii7 (c : ascii) : bool := byte_of c <? 128.

Definition opt_string (s : option string) : string :=
  match s with
  | Some s => s
  | None => EmptyString
  end.

(** The bytes the fingerprint reads: the type label, then the first 500
    bytes of the backtrace. *)
Definition hashed_text (type backtrace : option string) : string :=
  (opt_string type ++ take 500 (opt_string backtrace))%string.

(** The number a string of hexadecimal digits writes. *)
Definition digit_value (c : ascii) : Z :=
  let b := byte_of c in
  if (48 <=? b) && (b <=? 57) then b - 48
  else if (97 <=? b) && (b <=? 102) then b - 87
  else 0.

Definition hex_value (s : string) : Z :=
  fold_left (fun acc c => acc * 16 + digit_value c) (list_ascii_of_string s) 0.

(** A byte outside ASCII, the only byte of a type label. *)
Definition e_acute : string := str1 (ascii_of_nat 233).

(** A checker for the body of a JSON string as far as the five escaped
    bytes go: a backslash is followed by one of the five escape letters,
    and no double quote, newline, carriage return or tab stands bare. *)
Fixpoint escaped_ok (s : string) : bool :=
  match s with
  | EmptyString => true
  | String c rest =>
      if Ascii.eqb c backslash then
        match rest with
        | EmptyString => false
        | String e rest' =>
            (Ascii.eqb e dquote || Ascii.eqb e backslash || Ascii.eqb e "n"%char
             || Ascii.eqb e "r"%char || Ascii.eqb e "t"%char)
            && escaped_ok rest'
        end
      else negb (is_special c) && escaped_ok rest
  end.

(** *** [extract_function_info] and [aivory_capture_backtrace]

    The build without libunwind: [backtrace] and [backtrace_symbols] of
    execinfo. *)

Definition MAX_FRAMES : Z := 50.
Definition MAX_JSON_SIZE : Z := 32768.

(** [strchr(s, c)]: the index of the first [c] in [s], [None] for NULL. *)
Fixpoint strchr (s : string) (c : ascii) : option nat :=
  match s with
  | EmptyString => None
  | String d rest =>
      if Ascii.eqb d c then Some O else option_map S (strchr rest c)
  end.

(** The string [s + n]. *)
Fixpoint from (n : nat) (s : string) : string :=
  match n, s with
  | O, _ => s
  | S n', String _ rest => from n' rest
  | S _, EmptyString => EmptyString
  end.

(** The cast [(int)] of a [long], 32 bits in two's complement. *)
Definition int_of_long (z : Z) : Z := (z + 2 ^ 31) mod 2 ^ 32 - 2 ^ 31.

(** What [extract_function_info] leaves in [*func_name], [*file_path] and
    [*offset]. *)
Record function_info : Type := mkInfo {
  func_name : option string;
  file_path : option string;
  offset : Z
}.

(** [extract_function_info symbol func_name file_path offset].  [strtol0]
    is [strtol] of libc with base 0; [path_ok] and [name_ok] are the
    results of the two [malloc]. *)
Definition extract_function_info (strtol0 : string -> Z) (path_ok name_ok : bool)
    (symbol : option string) : function_info :=
  match symbol with
  | None => {| func_name := None; file_path := None; offset := 0 |}
  | Some symbol =>
      match strchr symbol "("%char, strchr symbol ")"%char with
      | Some lparen, Some rparen =>
          if (lparen <? rparen)%nat then
            let path := if path_ok then Some (take lparen symbol) else None in
            let after := from (S lparen) symbol in
            let copy (name_len : nat) :=
              if (0 <? name_len)%nat
              then (if name_ok then Some (take name_len after) else None)
              else None in
            let to_rparen :=
              {| func_name := copy (rparen - lparen - 1)%nat;
                 file_path := path; offset := 0 |} in
            match strchr after "+"%char with
            | Some p =>
                (* plus is symbol + lparen + 1 + p *)
                if (lparen + 1 + p <? rparen)%nat then
                  {| func_name := copy p;
                     file_path := path;
                     offset := int_of_long (strtol0 (from (S p) after)) |}
                else to_rparen
            | None => to_rparen
            end
          else {| func_name := Some symbol; file_path := None; offset := 0 |}
      | _, _ => {| func_name := Some symbol; file_path := None; offset := 0 |}
      end
  end.

(** One entry of [symbols], with the results of the allocations made for
    it: the two of [extract_function_info] and the two of
    [escape_json_string]. *)
Record frame : Type := mkFrame {
  frame_symbol : string;
  frame_path_ok : bool;
  frame_name_ok : bool;
  escaped_name_ok : bool;
  escaped_path_ok : bool
}.

(** The object [snprintf] formats for one frame. *)
Definition frame_text (strtol0 : string -> Z) (f : frame) : string :=
  let info :=
    extract_function_info strtol0 (frame_path_ok f) (frame_name_ok f)
      (Some (frame_symbol f)) in
  let escaped_name :=
    escape_json_string (escaped_name_ok f)
      (Some (match func_name info with
             | Some name => name
             | None => "<unknown>"%string
             end)) in
  let escaped_path :=
    escape_json_string (escaped_path_ok f)
      (Some (match file_path info with
             | Some path => path
             | None => EmptyString
             end)) in
  (js "{"
   ++ js "'method_name':'" ++ escaped_name ++ js "',"
   ++ js "'file_path':'" ++ escaped_path ++ js "',"
   ++ js "'is_native':"
   ++ (match file_path info with Some _ => "false" | None => "true" end) ++ ","
   ++ js "'source_available':false"
   ++ "}")%string.

(** How [aivory_capture_backtrace] ends: NULL, the text, or a write
    outside the 32768 bytes of [json] or a read outside [symbols]
    (undefined behaviour). *)
Inductive backtrace_result : Type :=
| BacktraceNull
| BacktraceFault
| BacktraceJson (json : string).

(** The [for] loop from frame [i] on: [json] is the text written so far,
    [json_len] its length; [None] when a byte is written outside the
    buffer.  A text [snprintf] has to cut moves [json_len] to the end of
    the buffer or past it, where the next byte, a comma or the closing
    bracket, is written. *)
Fixpoint frames_loop (strtol0 : string -> Z) (frames : list frame)
    (actual_frames : Z) (json : string) : option string :=
  match frames with
  | [] => Some json
  | f :: rest =>
      if actual_frames <? MAX_FRAMES then
        let comma := 0 <? actual_frames in
        if comma && (MAX_JSON_SIZE <=? strlen json) then None
        else
          let json := if comma then (json ++ ",")%string else json in
          let written := snprintf_result (frame_text strtol0 f) in
          if written >? 0 then
            if written <? MAX_JSON_SIZE - strlen json
            then frames_loop strtol0 rest (actual_frames + 1)
                   (json ++ frame_text strtol0 f)%string
            else None
          else frames_loop strtol0 rest (actual_frames + 1) json
      else Some json
  end.

(** [aivory_capture_backtrace skip].  [json_ok] is the result of
    [malloc(MAX_JSON_SIZE)]; [symbols] is what [backtrace_symbols]
    returns for the frames of [backtrace], [None] for NULL. *)
Definition aivory_capture_backtrace (strtol0 : string -> Z) (json_ok : bool)
    (skip : Z) (symbols : option (list frame)) : backtrace_result :=
  if negb json_ok then BacktraceNull
  else
    let body :=
      match symbols with
      | None => Some "["%string
      | Some frames =>
          if skip <? 0
          then None (* symbols[skip] *)
          else frames_loop strtol0 (skipn (Z.to_nat skip) frames) 0 "["
      end in
    match body with
    | None => BacktraceFault
    | Some json =>
        if strlen json + 1 <? MAX_JSON_SIZE
        then BacktraceJson (json ++ "]")
        else BacktraceFault
    end.

(** A conversion for examples: 26 for a text that starts with [0x1a],
    and 0 for any other. *)
Definition example_strtol0 (s : string) : Z :=
  match s with
  | String "0" (String "x" (String "1" (String "a" _))) => 26
  | _ => 0
  end.

(** The objects of the frames after the first, each with the comma
    written before it. *)
Definition more_frames (strtol0 : string -> Z) (frames : list frame) : string :=
  fold_right (fun f text => ("," ++ frame_text strtol0 f ++ text)%string)
    EmptyString frames.

(** An entry of [backtrace_symbols] whose allocations succeed. *)
Definition frame_of (symbol : string) : frame :=
  {| frame_symbol := symbol; frame_path_ok := true; frame_name_ok := true;
     escaped_name_ok := true; escaped_path_ok := true |}.

(** What [backtrace_symbols] gives for a report made in [main]. *)
Definition example_symbols : list frame :=
  [frame_of "./app(aivory_capture_backtrace+0x2c) [0x401c3c]";
   frame_of "./app(aivory_capture_error_with_context+0x9e) [0x4015de]";
   frame_of "./app(main+0x1a) [0x4011f0]";
   frame_of "/lib/x86_64-linux-gnu/libc.so.6(+0x29d90) [0x7f3c1a029d90]"].

(** A backtrace of [n] bytes. *)
Fixpoint long_backtrace (n : nat) : string :=
  match n with
  | O => EmptyString
  | S n' => String "f"%char (long_backtrace n')
  end.

End Backtrace.

(** ** Configuration and agent state ([monitor.h], [config.h])

    A pointer the source tests against NULL is an [option]; one it reads
    without a test ([backend_url], [environment]) is a [string]. *)

Record aivory_config_t : Type := mkConfig {
  api_key : option string;
  backend_url : string;
  environment : string;
  sampling_rate : float;
  max_capture_depth : Z;
  max_string_length : Z;
  max_collection_size : Z;
  debug : bool;
  capture_signals : bool
}.

(** [aivory_agent_t].  [config] is [None] for the zeroed struct of the
    static [g_agent] before [aivory_init] copies a configuration into it;
    [connection] records whether the pointer is set. *)
Record aivory_agent_t : Type := mkAgent {
  config : option aivory_config_t;
  agent_id : option string;
  hostname : option string;
  custom_context : option string;
  user_json : option string;
  connection : bool;
  initialized : bool;
  connected : bool
}.

(** A configuration and an initialised agent to run examples on. *)
Definition example_config : aivory_config_t :=
  {| api_key := Some "test-key-123"%string;
     backend_url := "ws://localhost:19999/api/monitor/agent/v1"%string;
     environment := "development"%string;
     sampling_rate := 1%float;
     max_capture_depth := 10;
     max_string_length := AIVORY_DEFAULT_MAX_STRING_LENGTH;
     max_collection_size := 100;
     debug := true;
     capture_signals := true |}.

Definition example_agent : aivory_agent_t :=
  {| config := Some example_config;
     agent_id := Some "agent-65000000-0000002a"%string;
     hostname := Some "host"%string;
     custom_context := None; user_json := None;
     connection := true; initialized := true; connected := false |}.

Definition agent_zero : aivory_agent_t :=
  {| config := None; agent_id := None; hostname := None;
     custom_context := None; user_json := None;
     connection := false; initialized := false; connected := false |}.

(** [agent->config.debug], [false] in the zeroed struct. *)
Definition agent_debug (a : aivory_agent_t) : bool :=
  match config a with
  | Some c => debug c
  | None => false
  end.

(** What a function does to the outside, in the order it does it. *)
Inductive effect : Type :=
| Stderr (line : string)          (* fprintf(stderr, ...) *)
| Stdout (line : string)          (* printf(...) *)
| Write (frame : string)          (* lws_write(wsi, frame, LWS_WRITE_TEXT) *)
| OnWritable                      (* lws_callback_on_writable(wsi) *)
| Sleep (seconds : Z)             (* sleep(delay) *)
| Usleep (microseconds : Z)       (* usleep(n) *)
| CreateContext (ssl : bool)      (* lws_create_context *)
| Connect (host : string) (port : Z) (path : string) (ssl : bool)
                                  (* lws_client_connect_via_info *)
| DestroyContext                  (* lws_context_destroy *)
| PthreadCreate                   (* pthread_create(..., ws_thread_func, agent) *)
| PthreadJoin                     (* pthread_join *)
| Capture (skip : Z)              (* aivory_capture_backtrace(skip) *)
| Sigaction (sig : Z)             (* sigaction(sig, ...) *)
| SignalDefault (sig : Z)         (* signal(sig, SIG_DFL) *)
| Raise (sig : Z)                 (* raise(sig) *)
| HandlingSignal (v : Z).         (* g_handling_signal = v, a volatile object *)

(** ** The transport ([src/transport/websocket.c]) *)

Module Transport.
Import C.

Definition MAX_MESSAGE_SIZE : Z := 65536.

(** [LWS_PRE] of libwebsockets.h: the padding before a frame, 16 bytes
    where pointers have 8. *)
Definition LWS_PRE : Z := 16.

Inductive aivory_connection_state_t : Type :=
| AIVORY_CONN_DISCONNECTED
| AIVORY_CONN_CONNECTING
| AIVORY_CONN_CONNECTED
| AIVORY_CONN_AUTHENTICATED.

Definition is_disconnected (s : aivory_connection_state_t) : bool :=
  match s with
  | AIVORY_CONN_DISCONNECTED => true
  | _ => false
  end.

Definition is_authenticated (s : aivory_connection_state_t) : bool :=
  match s with
  | AIVORY_CONN_AUTHENTICATED => true
  | _ => false
  end.

(** [ws_connection_t]: the fields the code reads or writes.  [lws_ctx] and
    [wsi] record whether the pointer is set. *)
Record ws_connection_t : Type := mkConn {
  state : aivory_connection_state_t;
  queue : Queue.aivory_queue_t;
  reconnect_attempts : Z;
  should_stop : bool;
  authenticated : bool;
  lws_ctx : bool;
  wsi : bool
}.

Definition set_state (c : ws_connection_t) (s : aivory_connection_state_t) :=
  {| state := s; queue := queue c; reconnect_attempts := reconnect_attempts c;
     should_stop := should_stop c; authenticated := authenticated c;
     lws_ctx := lws_ctx c; wsi := wsi c |}.

Definition set_queue (c : ws_connection_t) (q : Queue.aivory_queue_t) :=
  {| state := state c; queue := q; reconnect_attempts := reconnect_attempts c;
     should_stop := should_stop c; authenticated := authenticated c;
     lws_ctx := lws_ctx c; wsi := wsi c |}.

Definition set_reconnect_attempts (c : ws_connection_t) (n : Z) :=
  {| state := state c; queue := queue c; reconnect_attempts := n;
     should_stop := should_stop c; authenticated := authenticated c;
     lws_ctx := lws_ctx c; wsi := wsi c |}.

Definition set_should_stop (c : ws_connection_t) (b : bool) :=
  {| state := state c; queue := queue c; reconnect_attempts := reconnect_attempts c;
     should_stop := b; authenticated := authenticated c;
     lws_ctx := lws_ctx c; wsi := wsi c |}.

Definition set_authenticated (c : ws_connection_t) (b : bool) :=
  {| state := state c; queue := queue c; reconnect_attempts := reconnect_attempts c;
     should_stop := should_stop c; authenticated := b;
     lws_ctx := lws_ctx c; wsi := wsi c |}.

Definition set_lws_ctx (c : ws_connection_t) (b : bool) :=
  {| state := state c; queue := queue c; reconnect_attempts := reconnect_attempts c;
     should_stop := should_stop c; authenticated := authenticated c;
     lws_ctx := b; wsi := wsi c |}.

Definition set_wsi (c : ws_connection_t) (b : bool) :=
  {| state := state c; queue := queue c; reconnect_attempts := reconnect_attempts c;
     should_stop := should_stop c; authenticated := authenticated c;
     lws_ctx := lws_ctx c; wsi := b |}.

(** The connection [aivory_ws_connect] sets up: [calloc] zeroes it, then the
    queue and three fields are initialised. *)
Definition connection_init : ws_connection_t :=
  {| state := AIVORY_CONN_DISCONNECTED; queue := Queue.queue_init;
     reconnect_attempts := 0; should_stop := false; authenticated := false;
     lws_ctx := false; wsi := false |}.

(** [build_register_message agent]: [snprintf] into 2048 bytes. *)
Definition build_register_message (pf : platform) (now : Z) (agent : aivory_agent_t)
  : string :=
  take 2047
    (js "{'type':'register','payload':{"
     ++ js "'api_key':'"
     ++ fmt_s (match config agent with Some c => api_key c | None => None end)
     ++ js "',"
     ++ js "'agent_id':'" ++ fmt_s (agent_id agent) ++ js "',"
     ++ js "'hostname':'" ++ fmt_s (hostname agent) ++ js "',"
     ++ js "'environment':'"
     ++ fmt_s (match config agent with Some c => Some (environment c) | None => None end)
     ++ js "',"
     ++ js "'agent_version':'1.0.0',"
     ++ js "'runtime':'c',"
     ++ js "'runtime_version':'C11',"
     ++ js "'platform':'" ++ os_name pf ++ js "',"
     ++ js "'arch':'" ++ register_arch pf ++ js "'"
     ++ js "},'timestamp':" ++ fmt_d (milliseconds pf now) ++ "}")%string.

(** [build_heartbeat_message]: [snprintf] into 256 bytes.  [payload_now]
    and [message_now] are the two [time(NULL)] of its arguments. *)
Definition build_heartbeat_message (pf : platform) (payload_now message_now : Z)
  : string :=
  take 255
    (js "{'type':'heartbeat','payload':{'timestamp':"
     ++ fmt_d (milliseconds pf payload_now)
     ++ js "},'timestamp':" ++ fmt_d (milliseconds pf message_now) ++ "}")%string.

(** [ws_send_message json] on a connection that exists.  The frame reaches
    [lws_write] when [wsi] is set and the frame fits; the scratch buffer of
    the call and the result of [lws_write], which no caller reads, are left
    to the effect [Write]. *)
Definition ws_send_message (conn : ws_connection_t) (json : string) : list effect :=
  if negb (wsi conn) then []
  else if strlen json >? MAX_MESSAGE_SIZE - LWS_PRE then []
  else [Write json].

(** The reasons [ws_callback] has a case for, with what libwebsockets
    passes (the received bytes [in], of length [len]) and the result of the
    allocation the case makes: [malloc(2048)] in [build_register_message],
    [malloc(len + 1)] for a receive. *)
Inductive lws_callback_reasons : Type :=
| LWS_CALLBACK_CLIENT_ESTABLISHED (reg_msg_ok : bool)
| LWS_CALLBACK_CLIENT_RECEIVE (data : option string) (msg_ok : bool)
| LWS_CALLBACK_CLIENT_WRITEABLE
| LWS_CALLBACK_CLIENT_CONNECTION_ERROR (reason : option string)
| LWS_CALLBACK_CLIENT_CLOSED
| LWS_CALLBACK_OTHER.

(** [while ((queued = queue_pop(&queue)) != NULL) ws_send_message(queued)]:
    the loop ends when the queue is empty; [fuel] is the length of the
    queue, which each turn shortens by one. *)
Fixpoint drain_queue (fuel : nat) (conn : ws_connection_t)
  : ws_connection_t * list effect :=
  match fuel with
  | O => (conn, [])
  | S fuel' =>
      match Queue.queue_pop (queue conn) with
      | (None, _) => (conn, [])
      | (Some queued, q') =>
          let conn' := set_queue conn q' in
          let sent := ws_send_message conn' queued in
          let (conn'', rest) := drain_queue fuel' conn' in
          (conn'', sent ++ rest)
      end
  end.

Definition debug_log (agent : aivory_agent_t) (line : string) : list effect :=
  if agent_debug agent then [Stderr line] else [].

(** [ws_callback wsi reason user in len] with [g_connection] set to [conn];
    [now] is [time(NULL)]. *)
Definition ws_callback (pf : platform) (agent : aivory_agent_t) (now : Z)
    (conn : ws_connection_t) (reason : lws_callback_reasons)
  : ws_connection_t * list effect :=
  match reason with
  | LWS_CALLBACK_CLIENT_ESTABLISHED reg_msg_ok =>
      let conn := set_wsi (set_state conn AIVORY_CONN_CONNECTED) true in
      (conn,
       debug_log agent "[AIVory Monitor] WebSocket connected"
       ++ (if reg_msg_ok
           then ws_send_message conn (build_register_message pf now agent)
           else []))
  | LWS_CALLBACK_CLIENT_RECEIVE data msg_ok =>
      match data with
      | None => (conn, [])
      | Some data =>
          if (strlen data >? 0) && msg_ok then
            let msg := cstr data in
            if strstr msg (js "'registered'") || strstr msg (js "'type':'registered'")
            then
              let conn := set_state (set_authenticated conn true)
                                    AIVORY_CONN_AUTHENTICATED in
              let (conn', sent) :=
                drain_queue (List.length (Queue.entries (queue conn))) conn in
              (conn', debug_log agent "[AIVory Monitor] Agent registered" ++ sent)
            else if strstr msg (js "'error'") then
              if strstr msg "auth_error" || strstr msg "invalid_api_key"
              then (set_should_stop conn true,
                    [Stderr "[AIVory Monitor] Authentication failed"])
              else (conn, [])
            else (conn, [])
          else (conn, [])
      end
  | LWS_CALLBACK_CLIENT_WRITEABLE =>
      if authenticated conn then
        match Queue.queue_pop (queue conn) with
        | (None, _) => (conn, [])
        | (Some json, q') =>
            let conn := set_queue conn q' in
            (conn,
             ws_send_message conn json
             ++ (if Queue.queue_has_messages (queue conn) then [OnWritable] else []))
        end
      else (conn, [])
  | LWS_CALLBACK_CLIENT_CONNECTION_ERROR reason =>
      (set_authenticated (set_wsi (set_state conn AIVORY_CONN_DISCONNECTED) false) false,
       debug_log agent
         ("[AIVory Monitor] Connection error: "
          ++ match reason with Some r => r | None => "unknown" end))
  | LWS_CALLBACK_CLIENT_CLOSED =>
      (set_authenticated (set_wsi (set_state conn AIVORY_CONN_DISCONNECTED) false) false,
       debug_log agent "[AIVory Monitor] WebSocket closed")
  | LWS_CALLBACK_OTHER => (conn, [])
  end.

(** *** [parse_url] *)

Definition isspace (c : ascii) : bool :=
  (byte_of c =? 32) || ((9 <=? byte_of c) && (byte_of c <=? 13)).

Definition isdigit (c : ascii) : bool :=
  (48 <=? byte_of c) && (byte_of c <=? 57).

Fixpoint skip_spaces (s : string) : string :=
  match s with
  | String c rest => if isspace c then skip_spaces rest else s
  | EmptyString => s
  end.

(** The value of the leading decimal digits of [s], after [acc]. *)
Fixpoint digits_value (s : string) (acc : Z) : Z :=
  match s with
  | String c rest =>
      if isdigit c then digits_value rest (acc * 10 + (byte_of c - 48)) else acc
  | EmptyString => acc
  end.

(** [strtol(s, NULL, 10)]: white space, an optional sign, digits; a value
    outside [long] is brought to the nearest bound. *)
Definition strtol10 (pf : platform) (s : string) : Z :=
  let s := skip_spaces s in
  let v := match s with
           | String c rest =>
               if Ascii.eqb c "-"%char then - digits_value rest 0
               else if Ascii.eqb c "+"%char then digits_value rest 0
               else digits_value s 0
           | EmptyString => 0
           end in
  Z.max (- 2 ^ (ulong_bits pf - 1)) (Z.min (2 ^ (ulong_bits pf - 1) - 1) v).

(** Conversion to [int], 32 bits in two's complement. *)
Definition to_int (z : Z) : Z := (z + 2 ^ 31) mod 2 ^ 32 - 2 ^ 31.

(** [atoi], as glibc has it: [(int) strtol(s, NULL, 10)]. *)
Definition atoi (pf : platform) (s : string) : Z := to_int (strtol10 pf s).

(** What [parse_url] leaves in [host], [*port], [path] and [*use_ssl] when
    it returns 0. *)
Record url_parts : Type := mkUrl {
  url_host : string;
  url_port : Z;
  url_path : string;
  url_use_ssl : bool
}.

(** The loop that moves [host_end] forward to the first colon, slash or
    end of string: the string from [host_end] on. *)
Fixpoint host_end_of (p : string) : string :=
  match p with
  | String c rest =>
      if Ascii.eqb c ":"%char || Ascii.eqb c "/"%char then p else host_end_of rest
  | EmptyString => p
  end.

(** The loop that moves [p] forward to the first slash or the end. *)
Fixpoint skip_to_slash (p : string) : string :=
  match p with
  | String c rest => if Ascii.eqb c "/"%char then p else skip_to_slash rest
  | EmptyString => p
  end.

(** The string from [p + n] on. *)
Definition advance (n : nat) (p : string) : string :=
  String.substring n (String.length p - n) p.

(** [parse_url url host &port path &use_ssl]: [None] is the result -1. *)
Definition parse_url (pf : platform) (url : string) : option url_parts :=
  let use_ssl := false in
  let port := 80 in
  let path := "/"%string in
  let p := url in
  match (if String.prefix "wss://" p then Some (true, 443, advance 6 p)
         else if String.prefix "ws://" p then Some (use_ssl, port, advance 5 p)
         else None) with
  | None => None
  | Some (use_ssl, port, p) =>
      let host_end := host_end_of p in
      let host_len := strlen p - strlen host_end in
      if host_len >=? 256 then None
      else
        let host := take (Z.to_nat host_len) p in
        let p := host_end in
        let '(port, p) :=
          match p with
          | String c p1 =>
              if Ascii.eqb c ":"%char then (atoi pf p1, skip_to_slash p1)
              else (port, p)
          | EmptyString => (port, p)
          end in
        let path :=
          match p with
          | String c _ => if Ascii.eqb c "/"%char then take 511 p else path
          | EmptyString => path
          end in
        Some {| url_host := host; url_port := port;
                url_path := path; url_use_ssl := use_ssl |}
  end.

(** A URL put together from its parts: the scheme, a host, an optional
    colon and port text, and a path. *)
Definition scheme_of (tls : bool) : string :=
  if tls then "wss://"%string else "ws://"%string.

Definition default_port (tls : bool) : Z := if tls then 443 else 80.

Definition port_text (port : option string) : string :=
  match port with
  | Some digits => String ":"%char digits
  | None => EmptyString
  end.

Definition make_url (tls : bool) (host : string) (port : option string)
    (path : string) : string :=
  (scheme_of tls ++ host ++ port_text port ++ path)%string.

(** A host has neither a colon nor a slash. *)
Definition host_ok (host : string) : bool :=
  forallb (fun c => negb (Ascii.eqb c ":"%char || Ascii.eqb c "/"%char))
          (list_ascii_of_string host).

Definition digits_ok (digits : string) : bool :=
  forallb isdigit (list_ascii_of_string digits).

(** A path is empty or starts with a slash. *)
Definition path_ok (path : string) : bool :=
  match path with
  | EmptyString => true
  | String c _ => Ascii.eqb c "/"%char
  end.

(** The number a string of decimal digits writes. *)
Definition decimal_value (digits : string) : Z :=
  fold_left (fun acc c => acc * 10 + (byte_of c - 48))
            (list_ascii_of_string digits) 0.

Definition is_empty (s : string) : bool :=
  match s with
  | EmptyString => true
  | String _ _ => false
  end.

(** A host of [n] bytes. *)
Fixpoint long_host (n : nat) : string :=
  match n with
  | O => EmptyString
  | S n' => String "a"%char (long_host n')
  end.

(** A path of [n + 1] bytes. *)
Definition long_path (n : nat) : string := String "/"%char (long_host n).

(** *** The worker ([ws_thread_func]) *)

(** [aivory_ws_send_exception agent json] with [g_connection] as given;
    [entry_ok] is the allocation of [queue_push]. *)
Definition aivory_ws_send_exception (agent : aivory_agent_t) (entry_ok : bool)
    (g_connection : option ws_connection_t) (json : option string)
  : option ws_connection_t * list effect :=
  match g_connection, json with
  | Some conn, Some json =>
      if is_authenticated (state conn) && authenticated conn
      then (Some conn,
            ws_send_message conn json ++ (if wsi conn then [OnWritable] else []))
      else (Some (set_queue conn (Queue.queue_push entry_ok (queue conn) json)),
            debug_log agent "[AIVory Monitor] Message queued (not authenticated)")
  | _, _ => (g_connection, [])
  end.

(** What reaches the connection while the worker is inside a call of
    libwebsockets: a callback, or a host thread that stops the worker
    ([aivory_ws_disconnect]) or sends a report. *)
Inductive event : Type :=
| Callback (reason : lws_callback_reasons) (now : Z)
| HostStop
| HostSend (json : string) (entry_ok : bool).

Definition deliver (pf : platform) (agent : aivory_agent_t)
    (conn : ws_connection_t) (e : event) : ws_connection_t * list effect :=
  match e with
  | Callback reason now => ws_callback pf agent now conn reason
  | HostStop => (set_should_stop conn true, [])
  | HostSend json entry_ok =>
      match aivory_ws_send_exception agent entry_ok (Some conn) (Some json) with
      | (Some conn', eff) => (conn', eff)
      | (None, eff) => (conn, eff)
      end
  end.

Fixpoint deliver_all (pf : platform) (agent : aivory_agent_t)
    (conn : ws_connection_t) (es : list event) : ws_connection_t * list effect :=
  match es with
  | [] => (conn, [])
  | e :: rest =>
      let (conn1, eff1) := deliver pf agent conn e in
      let (conn2, eff2) := deliver_all pf agent conn1 rest in
      (conn2, eff1 ++ eff2)
  end.

(** One turn of the service loop: what [lws_service] delivers, the
    [time(NULL)] read after it, the allocation of the heartbeat and the
    two [time(NULL)] read for its text. *)
Record service_round : Type := mkRound {
  delivered : list event;
  clock : Z;
  heartbeat_ok : bool;
  heartbeat_clock : Z * Z
}.

(** One connection attempt, as libwebsockets answers it. *)
Inductive attempt : Type :=
| ContextFailed
| ConnectFailed (during : list event)
| Connected (during : list event) (start : Z) (rounds : list service_round).

Inductive worker_status : Type :=
| ThreadReturned    (* the thread function returned *)
| ThreadRunning     (* the script of answers ended before the thread did *)
| ThreadFault.      (* a NULL pointer was read *)

(** The service loop of one connection. The flag is [true] when the loop
    was left, [false] when the rounds ran out with the loop still live. *)
Fixpoint service_loop (pf : platform) (agent : aivory_agent_t)
    (rounds : list service_round) (last_heartbeat : Z) (conn : ws_connection_t)
  : ws_connection_t * list effect * bool :=
  if negb (should_stop conn) && negb (is_disconnected (state conn)) then
    match rounds with
    | [] => (conn, [], false)
    | r :: rest =>
        let (conn1, eff1) := deliver_all pf agent conn (delivered r) in
        let now := clock r in
        let beat := authenticated conn1 && (now - last_heartbeat >=? 30) in
        let eff2 :=
          if beat && heartbeat_ok r
          then ws_send_message conn1
                 (build_heartbeat_message pf (fst (heartbeat_clock r))
                    (snd (heartbeat_clock r)))
          else [] in
        let last_heartbeat := if beat then now else last_heartbeat in
        let '(conn2, eff3, done) := service_loop pf agent rest last_heartbeat conn1 in
        (conn2, eff1 ++ eff2 ++ eff3, done)
    end
  else (conn, [], true).

(** The body of [if (state == AIVORY_CONN_DISCONNECTED)] for one attempt.
    The flag is [false] when the service loop is still live. *)
Definition connect_once (pf : platform) (agent : aivory_agent_t)
    (cfg : aivory_config_t) (u : url_parts) (a : attempt) (conn : ws_connection_t)
  : ws_connection_t * list effect * bool :=
  let eff0 :=
    (if debug cfg
     then [Stderr ("[AIVory Monitor] Connecting to " ++ backend_url cfg)]
     else [])
    ++ [CreateContext (url_use_ssl u)] in
  match a with
  | ContextFailed =>
      (set_lws_ctx conn false,
       eff0 ++ [Stderr "[AIVory Monitor] Failed to create lws context"], true)
  | ConnectFailed during =>
      let conn := set_lws_ctx conn true in
      let (conn1, eff1) := deliver_all pf agent conn during in
      (set_lws_ctx conn1 false,
       eff0 ++ [Connect (url_host u) (url_port u) (url_path u) (url_use_ssl u)]
       ++ eff1 ++ [Stderr "[AIVory Monitor] Failed to connect"; DestroyContext],
       true)
  | Connected during start rounds =>
      let conn := set_lws_ctx conn true in
      let (conn1, eff1) := deliver_all pf agent conn during in
      let '(conn2, eff2, done) := service_loop pf agent rounds start conn1 in
      let eff := eff0
        ++ [Connect (url_host u) (url_port u) (url_path u) (url_use_ssl u)]
        ++ eff1 ++ eff2 in
      if done
      then if lws_ctx conn2
           then (set_lws_ctx conn2 false, eff ++ [DestroyContext], true)
           else (conn2, eff, true)
      else (conn2, eff, false)
  end.

(** The label [reconnect:] and what follows it in the loop body.  The
    flag is [false] for a [break]. *)
Definition reconnect (cfg : aivory_config_t) (conn : ws_connection_t)
  : ws_connection_t * list effect * bool :=
  if should_stop conn then (conn, [], false)
  else
    let conn := set_reconnect_attempts conn (reconnect_attempts conn + 1) in
    if reconnect_attempts conn >? 10
    then (conn, [Stderr "[AIVory Monitor] Max reconnect attempts reached"], false)
    else
      let delay :=
        Z.shiftl 1 (if reconnect_attempts conn >? 6 then 6
                    else reconnect_attempts conn) in
      (conn,
       (if debug cfg
        then [Stderr ("[AIVory Monitor] Reconnecting in " ++ fmt_d delay
                      ++ " seconds (attempt " ++ fmt_d (reconnect_attempts conn)
                      ++ ")")]
        else [])
       ++ [Sleep delay],
       true).

(** [while (!conn->should_stop) { ... }].  Each turn that finds the state
    DISCONNECTED takes the next attempt of [script]; [fuel] bounds the
    number of turns. *)
Fixpoint worker_loop (pf : platform) (agent : aivory_agent_t)
    (cfg : aivory_config_t) (u : url_parts) (fuel : nat) (script : list attempt)
    (conn : ws_connection_t) : ws_connection_t * list effect * worker_status :=
  match fuel with
  | O => (conn, [], ThreadRunning)
  | S fuel' =>
      if should_stop conn then (conn, [], ThreadReturned)
      else
        let turn :=
          if is_disconnected (state conn) then
            match script with
            | [] => None
            | a :: script' => Some (connect_once pf agent cfg u a conn, script')
            end
          else Some ((conn, [], true), script) in
        match turn with
        | None => (conn, [], ThreadRunning)
        | Some ((conn1, eff1, false), _) => (conn1, eff1, ThreadRunning)
        | Some ((conn1, eff1, true), script') =>
            match reconnect cfg conn1 with
            | (conn2, eff2, false) => (conn2, eff1 ++ eff2, ThreadReturned)
            | (conn2, eff2, true) =>
                let '(conn3, eff3, st) :=
                  worker_loop pf agent cfg u fuel' script' conn2 in
                (conn3, eff1 ++ eff2 ++ eff3, st)
            end
        end
  end.

(** [ws_thread_func agent], run on the connection [g_connection]. *)
Definition ws_thread_func (pf : platform) (agent : aivory_agent_t) (fuel : nat)
    (script : list attempt) (conn : ws_connection_t)
  : ws_connection_t * list effect * worker_status :=
  match config agent with
  | None => (conn, [], ThreadFault)
  | Some cfg =>
      match parse_url pf (backend_url cfg) with
      | None => (conn, [Stderr "[AIVory Monitor] Invalid backend URL"], ThreadReturned)
      | Some u => worker_loop pf agent cfg u fuel script conn
      end
  end.

(** [aivory_ws_connect agent]: the result, [g_connection] and the agent
    afterwards.  [conn_ok] is the result of [calloc], [thread_ok] whether
    [pthread_create] returned 0. *)
Definition aivory_ws_connect (conn_ok thread_ok : bool)
    (g_connection : option ws_connection_t) (agent : aivory_agent_t)
  : Z * option ws_connection_t * aivory_agent_t * list effect :=
  match g_connection with
  | Some _ => (0, g_connection, agent, [])
  | None =>
      if negb conn_ok then (-1, None, agent, [])
      else if negb thread_ok then (-1, None, agent, [])
      else (0, Some connection_init,
            {| config := config agent; agent_id := agent_id agent;
               hostname := hostname agent; custom_context := custom_context agent;
               user_json := user_json agent; connection := true;
               initialized := initialized agent; connected := connected agent |},
            [PthreadCreate])
  end.

(** [aivory_ws_disconnect agent]: [g_connection] afterwards.  The worker
    is told to stop and joined, the queue destroyed with the records still
    in it, and the connection freed. *)
Definition aivory_ws_disconnect (g_connection : option ws_connection_t)
  : option ws_connection_t * list effect :=
  match g_connection with
  | None => (None, [])
  | Some _ => (None, [PthreadJoin])
  end.

(** The number of back-off sleeps among the effects of the worker. *)
Fixpoint sleeps (eff : list effect) : Z :=
  match eff with
  | [] => 0
  | Sleep _ :: rest => 1 + sleeps rest
  | _ :: rest => sleeps rest
  end.

(** How often [line] was printed on stderr. *)
Fixpoint printed (line : string) (eff : list effect) : Z :=
  match eff with
  | [] => 0
  | Stderr l :: rest => (if String.eqb l line then 1 else 0) + printed line rest
  | _ :: rest => printed line rest
  end.

(** The reply of the service that authenticates the agent. *)
Definition registered_reply : string := js "{'type':'registered'}".

(** A connection to the service with two records in its queue. *)
Definition waiting_connection : ws_connection_t :=
  set_queue (set_wsi (set_state connection_init AIVORY_CONN_CONNECTED) true)
    (Queue.run [Queue.Push "A"; Queue.Push "B"] Queue.queue_init).

(** A connection that is established, authenticated on the first turn of
    the service loop and closed on the second. *)
Definition authenticated_session : attempt :=
  Connected
    [Callback (LWS_CALLBACK_CLIENT_ESTABLISHED true) 0] 0
    [ {| delivered :=
           [Callback (LWS_CALLBACK_CLIENT_RECEIVE (Some registered_reply) true) 0];
         clock := 0; heartbeat_ok := true; heartbeat_clock := (0, 0) |};
      {| delivered := [Callback LWS_CALLBACK_CLIENT_CLOSED 0];
         clock := 1; heartbeat_ok := true; heartbeat_clock := (1, 1) |} ].

(** The seconds of the sleeps among the effects of the worker, in the
    order of the sleeps. *)
Fixpoint sleep_list (eff : list effect) : list Z :=
  match eff with
  | [] => []
  | Sleep seconds :: rest => seconds :: sleep_list rest
  | _ :: rest => sleep_list rest
  end.

(** A frame handed to [lws_write] fits [MAX_MESSAGE_SIZE - LWS_PRE]. *)
Definition frame_fits (e : effect) : Prop :=
  match e with
  | Write frame => strlen frame <= MAX_MESSAGE_SIZE - LWS_PRE
  | _ => True
  end.

(** A connection that libwebsockets has not yet reported established. *)
Definition connecting_connection : ws_connection_t :=
  set_lws_ctx connection_init true.

(** A reply of the service that rejects the API key. *)
Definition rejection_reply : string :=
  js "{'type':'error','code':'invalid_api_key'}".

End Transport.

(** ** The signal handler ([src/capture/signal_handler.c]) *)

Module Signal.
Import C.

(** The signal numbers of Linux ([<signal.h>]). *)
Definition SIGILL : Z := 4.
Definition SIGABRT : Z := 6.
Definition SIGBUS : Z := 7.
Definition SIGFPE : Z := 8.
Definition SIGSEGV : Z := 11.

(** What a [struct sigaction] holds in [sa_handler]: the default, ignore,
    a handler of the host, or the handler of the agent. *)
Inductive sa_handler_t : Type :=
| SIG_DFL
| SIG_IGN
| HostHandler (id : Z)
| AivoryHandler.

(** One [struct sigaction] per captured signal. *)
Record sigtable : Type := mkSigtable {
  for_sigsegv : sa_handler_t;
  for_sigabrt : sa_handler_t;
  for_sigfpe : sa_handler_t;
  for_sigbus : sa_handler_t;
  for_sigill : sa_handler_t
}.

(** The statics of the file ([g_original_*], [g_agent_ref],
    [g_handling_signal]) and the dispositions the kernel holds for the
    process.  The statics start zeroed: [SIG_DFL], NULL and 0. *)
Record signal_state : Type := mkSignals {
  disposition : sigtable;
  g_original : sigtable;
  g_agent_ref : bool;
  g_handling_signal : Z
}.

Definition all_default : sigtable :=
  {| for_sigsegv := SIG_DFL; for_sigabrt := SIG_DFL; for_sigfpe := SIG_DFL;
     for_sigbus := SIG_DFL; for_sigill := SIG_DFL |}.

Definition signals_zero (d : sigtable) : signal_state :=
  {| disposition := d; g_original := all_default;
     g_agent_ref := false; g_handling_signal := 0 |}.

Definition signal_name (sig : Z) : string :=
  if sig =? SIGSEGV then "SIGSEGV"
  else if sig =? SIGABRT then "SIGABRT"
  else if sig =? SIGFPE then "SIGFPE"
  else if sig =? SIGBUS then "SIGBUS"
  else if sig =? SIGILL then "SIGILL"
  else "UNKNOWN".

Definition signal_description (sig : Z) : string :=
  if sig =? SIGSEGV then "Segmentation fault"
  else if sig =? SIGABRT then "Abort signal"
  else if sig =? SIGFPE then "Floating point exception"
  else if sig =? SIGBUS then "Bus error"
  else if sig =? SIGILL then "Illegal instruction"
  else "Unknown signal".

(** The [switch] that picks [original]; [None] is the NULL it starts as. *)
Definition original_of (t : sigtable) (sig : Z) : option sa_handler_t :=
  if sig =? SIGSEGV then Some (for_sigsegv t)
  else if sig =? SIGABRT then Some (for_sigabrt t)
  else if sig =? SIGFPE then Some (for_sigfpe t)
  else if sig =? SIGBUS then Some (for_sigbus t)
  else if sig =? SIGILL then Some (for_sigill t)
  else None.

(** The kernel's table after [sigaction(sig, act, NULL)] or
    [signal(sig, h)]. *)
Definition set_disposition (t : sigtable) (sig : Z) (h : sa_handler_t) : sigtable :=
  {| for_sigsegv := if sig =? SIGSEGV then h else for_sigsegv t;
     for_sigabrt := if sig =? SIGABRT then h else for_sigabrt t;
     for_sigfpe := if sig =? SIGFPE then h else for_sigfpe t;
     for_sigbus := if sig =? SIGBUS then h else for_sigbus t;
     for_sigill := if sig =? SIGILL then h else for_sigill t |}.

(** What the handler reads from outside: the captured backtrace (NULL when
    its buffer could not be allocated), the allocation of the fingerprint,
    what [time(NULL)] of libc returns, whether the pointer [gmtime]
    returns is still that pointer after a passage through [int], the text
    [strftime] makes of the time, and the allocation of the queue entry
    should the record be queued.

    [signal_handler.c] includes no [time.h], so that [time], [gmtime] and
    [strftime] are not declared where the handler calls them, and a call of
    a function that is not declared returns an [int].  The time is cut to
    an [int]; the pointer of [gmtime] is cut to 32 bits.  Where pointers
    have 32 bits, and in a program linked at a fixed address below 2^31,
    the pointer is still the same; in a position-independent program of 64
    bits it is not, and [strftime] reads through a wrong address. *)
Record handler_env : Type := mkHandlerEnv {
  env_backtrace : option string;
  env_fingerprint_ok : bool;
  env_now : Z;
  env_gmtime_fits : bool;
  env_timestamp : string;
  env_entry_ok : bool
}.

(** [now] of the handler: the [int] that the call of [time] returns. *)
Definition handler_now (env : handler_env) : Z := Transport.to_int (env_now env).

(** The record [snprintf] formats into [json[8192]]. *)
Definition signal_record (pf : platform) (agent : aivory_agent_t) (sig : Z)
    (si_addr : option Z) (fingerprint backtrace : option string)
    (timestamp : string) (now : Z) : string :=
  (js "{"
   ++ js "'type':'exception',"
   ++ js "'payload':{"
   ++ js "'id':'" ++ fmt_s (agent_id agent) ++ js "-signal',"
   ++ js "'exception_type':'" ++ signal_name sig ++ js "',"
   ++ js "'message':'" ++ signal_description sig
   ++ " (address: " ++ fmt_p si_addr ++ js ")',"
   ++ js "'fingerprint':'"
   ++ match fingerprint with Some f => f | None => EmptyString end ++ js "',"
   ++ js "'stack_trace':"
   ++ match backtrace with Some b => b | None => "[]" end ++ ","
   ++ js "'local_variables':{},"
   ++ js "'context':{'signal':" ++ fmt_d sig ++ js ",'fatal':true},"
   ++ js "'captured_at':'" ++ timestamp ++ js "',"
   ++ js "'agent_id':'" ++ fmt_s (agent_id agent) ++ js "',"
   ++ js "'environment':'"
   ++ fmt_s (match config agent with Some c => Some (environment c) | None => None end)
   ++ js "'"
   ++ js "},"
   ++ js "'timestamp':" ++ fmt_d (milliseconds pf now)
   ++ "}")%string.

(** How a call of the handler ends: [_exit(code)]; a return to the
    interrupted code (where the re-raised signal is then delivered); or
    the read of [strftime] through the cut pointer of [gmtime], a fault
    inside the handler (undefined behaviour). *)
Inductive outcome : Type :=
| Exited (code : Z)
| HandlerReturned
| HandlerFaulted.

(** The handler from [g_handling_signal = 1] on: capture, fingerprint,
    time, record, send, then restore and re-raise.  At a fault the state
    and the connection are those the handler has reached. *)
Definition handler_work (pf : platform) (agent : aivory_agent_t)
    (env : handler_env) (sig : Z) (si_addr : option Z)
    (s : signal_state) (g_connection : option Transport.ws_connection_t)
  : signal_state * option Transport.ws_connection_t * list effect * outcome :=
  let '(g_connection, eff1, faulted) :=
    if g_agent_ref s && initialized agent then
      let backtrace := env_backtrace env in
      let fingerprint :=
        Backtrace.aivory_calculate_fingerprint pf (env_fingerprint_ok env)
          (Some (signal_name sig)) backtrace in
      let now := handler_now env in
      if negb (env_gmtime_fits env)
      then (g_connection, [Capture 2], true)
      else
        let json := signal_record pf agent sig si_addr fingerprint backtrace
                      (env_timestamp env) now in
        let len := snprintf_result json in
        if (len >? 0) && (len <? 8192) then
          let (g', sent) :=
            Transport.aivory_ws_send_exception agent (env_entry_ok env)
              g_connection (Some json) in
          (g', [Capture 2] ++ sent ++ [Usleep 100000], false)
        else (g_connection, [Capture 2], false)
    else (g_connection, [], false) in
  if faulted then (s, g_connection, eff1, HandlerFaulted)
  else
    let restored :=
      match original_of (g_original s) sig with
      | Some SIG_DFL | Some SIG_IGN | None => None
      | Some h => Some h
      end in
    match restored with
    | Some h =>
        ({| disposition := set_disposition (disposition s) sig h;
            g_original := g_original s; g_agent_ref := g_agent_ref s;
            g_handling_signal := g_handling_signal s |},
         g_connection, eff1 ++ [Sigaction sig; Raise sig], HandlerReturned)
    | None =>
        ({| disposition := set_disposition (disposition s) sig SIG_DFL;
            g_original := g_original s; g_agent_ref := g_agent_ref s;
            g_handling_signal := g_handling_signal s |},
         g_connection, eff1 ++ [SignalDefault sig; Raise sig], HandlerReturned)
    end.

(** [g_handling_signal = 1]. *)
Definition set_handling (s : signal_state) : signal_state :=
  {| disposition := disposition s; g_original := g_original s;
     g_agent_ref := g_agent_ref s; g_handling_signal := 1 |}.

(** [signal_handler sig info context]; [si_addr] is [info->si_addr], or
    [None] when [info] is NULL. *)
Definition signal_handler (pf : platform) (agent : aivory_agent_t)
    (env : handler_env) (sig : Z) (si_addr : option Z)
    (s : signal_state) (g_connection : option Transport.ws_connection_t)
  : signal_state * option Transport.ws_connection_t * list effect * outcome :=
  if negb (g_handling_signal s =? 0)
  then (s, g_connection, [], Exited (128 + sig))
  else
    let s := set_handling s in
    let '(s', g', eff, how) :=
      handler_work pf agent env sig si_addr s g_connection in
    (s', g', HandlingSignal 1 :: eff, how).

(** [aivory_install_signal_handlers agent]: each [sigaction] stores the
    disposition it replaces in [g_original_*]. *)
Definition aivory_install_signal_handlers (agent : aivory_agent_t)
    (s : signal_state) : signal_state * list effect :=
  ({| disposition :=
        {| for_sigsegv := AivoryHandler; for_sigabrt := AivoryHandler;
           for_sigfpe := AivoryHandler; for_sigbus := AivoryHandler;
           for_sigill := AivoryHandler |};
      g_original := disposition s;
      g_agent_ref := true;
      g_handling_signal := g_handling_signal s |},
   [Sigaction SIGSEGV; Sigaction SIGABRT; Sigaction SIGFPE;
    Sigaction SIGBUS; Sigaction SIGILL]
   ++ Transport.debug_log agent "[AIVory Monitor] Signal handlers installed").

(** [aivory_uninstall_signal_handlers]: each [sigaction] puts back what
    [g_original_*] holds. *)
Definition aivory_uninstall_signal_handlers (s : signal_state)
  : signal_state * list effect :=
  ({| disposition := g_original s;
      g_original := g_original s;
      g_agent_ref := false;
      g_handling_signal := g_handling_signal s |},
   [Sigaction SIGSEGV; Sigaction SIGABRT; Sigaction SIGFPE;
    Sigaction SIGBUS; Sigaction SIGILL]).

(** The handler the saved disposition of [sig] makes the handler restore:
    a handler of the host, or the default. *)
Definition restored_handler (s : signal_state) (sig : Z) : sa_handler_t :=
  match original_of (g_original s) sig with
  | Some SIG_DFL | Some SIG_IGN | None => SIG_DFL
  | Some h => h
  end.

(** The effect that restores it: [sigaction] for a handler of the host,
    [signal(sig, SIG_DFL)] otherwise. *)
Definition restoring_effect (s : signal_state) (sig : Z) : effect :=
  match original_of (g_original s) sig with
  | Some SIG_DFL | Some SIG_IGN | None => SignalDefault sig
  | Some _ => Sigaction sig
  end.

(** Dispositions of a host that handles SIGSEGV itself. *)
Definition host_handles_sigsegv : sigtable :=
  {| for_sigsegv := HostHandler 1; for_sigabrt := SIG_DFL; for_sigfpe := SIG_DFL;
     for_sigbus := SIG_DFL; for_sigill := SIG_IGN |}.

(** The state of the signals after [aivory_install_signal_handlers] in a
    process whose host handles SIGSEGV itself. *)
Definition installed_signals : signal_state :=
  fst (aivory_install_signal_handlers example_agent
         (signals_zero host_handles_sigsegv)).

(** An environment for examples: a program linked at a fixed address,
    where the time calls of the handler work. *)
Definition example_handler_env : handler_env :=
  {| env_backtrace := Some "[]"%string; env_fingerprint_ok := true;
     env_now := 1700000000; env_gmtime_fits := true;
     env_timestamp := "2023-11-14T22:13:20Z"%string;
     env_entry_ok := true |}.


End Signal.

(** ** The agent ([src/agent.c]) *)

Module Agent.
Import C.

(** The process-wide state: [g_agent] of agent.c, [g_connection] of
    websocket.c and the statics of signal_handler.c. *)
Record world : Type := mkWorld {
  g_agent : aivory_agent_t;
  g_connection : option Transport.ws_connection_t;
  g_signals : Signal.signal_state
}.

(** What [aivory_init] reads from outside: the results of
    [aivory_generate_agent_id] and [aivory_get_hostname] (NULL when their
    [malloc] fails), of [calloc] for the connection and of
    [pthread_create]. *)
Record init_env : Type := mkInitEnv {
  new_agent_id : option string;
  new_hostname : option string;
  conn_ok : bool;
  thread_ok : bool
}.

Definition AIVORY_VERSION_STRING : string := "1.0.0".

(** [config->api_key[0] == 0] for a key that is not NULL. *)
Definition key_is_empty (key : string) : bool :=
  match key with
  | EmptyString => true
  | String _ _ => false
  end.

(** [aivory_init config]: the result, the state afterwards and what was
    printed or started.  [config] is [None] for a NULL pointer. *)
Definition aivory_init (env : init_env) (cfg : option aivory_config_t) (w : world)
  : Z * world * list effect :=
  if initialized (g_agent w)
  then (-1, w, [Stderr "[AIVory Monitor] Agent already initialized"])
  else
    match cfg with
    | None => (-1, w, [Stderr "[AIVory Monitor] API key is required"])
    | Some c =>
        match api_key c with
        | None => (-1, w, [Stderr "[AIVory Monitor] API key is required"])
        | Some key =>
            if key_is_empty key
            then (-1, w, [Stderr "[AIVory Monitor] API key is required"])
            else
              let a := g_agent w in
              let a1 :=
                {| config := Some c;
                   agent_id := new_agent_id env;
                   hostname := new_hostname env;
                   custom_context := custom_context a;
                   user_json := user_json a;
                   connection := connection a;
                   initialized := initialized a;
                   connected := connected a |} in
              let (sigs, eff1) :=
                if capture_signals c
                then Signal.aivory_install_signal_handlers a1 (g_signals w)
                else (g_signals w, []) in
              let '(rc, conn, a2, eff2) :=
                Transport.aivory_ws_connect (conn_ok env) (thread_ok env)
                  (g_connection w) a1 in
              let eff3 :=
                if negb (rc =? 0)
                then [Stderr "[AIVory Monitor] Failed to connect to backend"]
                else [] in
              let a3 :=
                {| config := config a2; agent_id := agent_id a2;
                   hostname := hostname a2; custom_context := custom_context a2;
                   user_json := user_json a2; connection := connection a2;
                   initialized := true; connected := connected a2 |} in
              (0,
               {| g_agent := a3; g_connection := conn; g_signals := sigs |},
               eff1 ++ eff2 ++ eff3
               ++ [Stdout ("[AIVory Monitor] Agent v" ++ AIVORY_VERSION_STRING
                           ++ " initialized");
                   Stdout ("[AIVory Monitor] Environment: " ++ environment c)])
        end
    end.

(** The state of a process that has not called [aivory_init]: the zeroed
    statics, no connection, and the dispositions [d] of the host. *)
Definition world_zero (d : Signal.sigtable) : world :=
  {| g_agent := agent_zero; g_connection := None;
     g_signals := Signal.signals_zero d |}.

(** [RAND_MAX] of glibc. *)
Definition RAND_MAX : Z := 2147483647.

(** [rand()]: the draws still to come are the state of the generator. *)
Definition rand (draws : list Z) : Z * list Z :=
  match draws with
  | [] => (0, [])
  | r :: rest => (r, rest)
  end.

(** [(double) n] for an [int] that is not negative. *)
Definition double_of_int (n : Z) : float := PrimFloat.of_uint63 (Uint63.of_Z n).

(** [aivory_should_sample config]: the result and the generator
    afterwards. *)
Definition aivory_should_sample (cfg : aivory_config_t) (draws : list Z)
  : bool * list Z :=
  if (1 <=? sampling_rate cfg)%float then (true, draws)
  else if (sampling_rate cfg <=? 0)%float then (false, draws)
  else
    let (r, draws') := rand draws in
    ((double_of_int r / double_of_int RAND_MAX <? sampling_rate cfg)%float, draws').

(** What [aivory_capture_error_with_context] reads from outside. *)
Record capture_env : Type := mkCaptureEnv {
  env_backtrace : option string;   (* aivory_capture_backtrace(2) *)
  env_fingerprint_ok : bool;       (* malloc(17) *)
  env_now : Z;                     (* time(NULL) of the last argument *)
  env_timestamp : string;          (* strftime of gmtime of the first time(NULL) *)
  env_json_ok : bool;              (* malloc(65536) *)
  env_entry_ok : bool              (* the entry of queue_push *)
}.

(** The record [snprintf] formats into the 65536 bytes of [json]. *)
Definition exception_record (pf : platform) (agent : aivory_agent_t)
    (message file context_json fingerprint backtrace : option string)
    (timestamp : string) (now : Z) : string :=
  (js "{"
   ++ js "'type':'exception',"
   ++ js "'payload':{"
   ++ js "'id':'" ++ fmt_s (agent_id agent) ++ js "',"
   ++ js "'exception_type':'Error',"
   ++ js "'message':'"
   ++ match message with Some m => m | None => EmptyString end ++ js "',"
   ++ js "'fingerprint':'"
   ++ match fingerprint with Some f => f | None => EmptyString end ++ js "',"
   ++ js "'stack_trace':"
   ++ match backtrace with Some b => b | None => "[]" end ++ ","
   ++ js "'local_variables':{},"
   ++ js "'context':{"
   ++ match file with Some _ => js "'file':'" | None => EmptyString end
   ++ match file with Some f => f | None => EmptyString end
   ++ match file with Some _ => js "'," | None => EmptyString end
   ++ match context_json with Some c => c | None => EmptyString end
   ++ "},"
   ++ js "'captured_at':'" ++ timestamp ++ js "',"
   ++ js "'agent_id':'" ++ fmt_s (agent_id agent) ++ js "',"
   ++ js "'environment':'"
   ++ fmt_s (match config agent with Some c => Some (environment c) | None => None end)
   ++ js "',"
   ++ js "'runtime_info':{"
   ++ js "'runtime':'c',"
   ++ js "'platform':'" ++ os_name pf ++ js "',"
   ++ js "'arch':'" ++ runtime_arch pf ++ js "'"
   ++ "}"
   ++ "},"
   ++ js "'timestamp':" ++ fmt_d (milliseconds pf now)
   ++ "}")%string.

(** [aivory_capture_error_with_context message file line context_json]:
    the connection and the generator afterwards, what was done, and the
    record handed to [aivory_ws_send_exception], if one was. *)
Definition aivory_capture_error_with_context (pf : platform) (env : capture_env)
    (message file : option string) (line : Z) (context_json : option string)
    (w : world) (draws : list Z)
  : option Transport.ws_connection_t * list Z * list effect * option string :=
  if negb (initialized (g_agent w)) then (g_connection w, draws, [], None)
  else
    match config (g_agent w) with
    | None =>
        (* the zeroed configuration: a sampling rate of 0.0, rejected *)
        (g_connection w, draws, [], None)
    | Some cfg =>
        let (sampled, draws') := aivory_should_sample cfg draws in
        if negb sampled then (g_connection w, draws', [], None)
        else
          let backtrace := env_backtrace env in
          let fingerprint :=
            Backtrace.aivory_calculate_fingerprint pf (env_fingerprint_ok env)
              (Some "Error"%string) backtrace in
          if negb (env_json_ok env)
          then (g_connection w, draws', [Capture 2], None)
          else
            let json := exception_record pf (g_agent w) message file context_json
                          fingerprint backtrace (env_timestamp env) (env_now env) in
            let len := snprintf_result json in
            if (len >? 0) && (len <? 65536) then
              let (g', sent) :=
                Transport.aivory_ws_send_exception (g_agent w) (env_entry_ok env)
                  (g_connection w) (Some json) in
              (g', draws', [Capture 2] ++ sent, Some json)
            else (g_connection w, draws', [Capture 2], None)
    end.

(** [aivory_capture_error message file line]. *)
Definition aivory_capture_error (pf : platform) (env : capture_env)
    (message file : option string) (line : Z) (w : world) (draws : list Z) :=
  aivory_capture_error_with_context pf env message file line None w draws.

(** [aivory_shutdown]: the state afterwards and what was done.  The
    [memset] leaves the zeroed agent. *)
Definition aivory_shutdown (w : world) : world * list effect :=
  if negb (initialized (g_agent w)) then (w, [])
  else
    let (sigs, eff1) := Signal.aivory_uninstall_signal_handlers (g_signals w) in
    let (conn, eff2) := Transport.aivory_ws_disconnect (g_connection w) in
    ({| g_agent := agent_zero; g_connection := conn; g_signals := sigs |},
     [Stdout "[AIVory Monitor] Shutting down agent"] ++ eff1 ++ eff2).

(** [aivory_is_initialized]. *)
Definition aivory_is_initialized (w : world) : bool := initialized (g_agent w).

(** Conversion to [unsigned int], 32 bits. *)
Definition to_uint (z : Z) : Z := z mod 2 ^ 32.

(** [%08x]: the digits, padded on the left with zeros to 8 columns. *)
Definition fmt_08x (v : Z) : string :=
  let digits := hex_digits 8 v EmptyString in
  (Backtrace.zeros (8 - String.length digits) ++ digits)%string.

(** [rand_val] of [aivory_generate_agent_id].  On Linux it is what
    [fread] leaves of [/dev/urandom], [urandom] being [None] when the
    file cannot be opened; elsewhere, and then, it is the time and the
    process identifier combined. *)
Definition agent_rand_val (pf : platform) (now : Z) (urandom : option Z)
    (pid : Z) : Z :=
  match (if String.eqb (os_name pf) "linux" then urandom else None) with
  | Some v => to_uint v
  | None => to_uint (Z.lxor (to_uint now) (to_uint pid))
  end.

(** [aivory_generate_agent_id]; [id_ok] is the result of [malloc(64)],
    [now] of [time(NULL)] and [pid] of [getpid()]. *)
Definition aivory_generate_agent_id (pf : platform) (id_ok : bool) (now : Z)
    (urandom : option Z) (pid : Z) : option string :=
  if id_ok
  then Some (take 63
               ("agent-" ++ hex_digits 16 (Backtrace.to_ulong pf now) EmptyString
                ++ "-" ++ fmt_08x (agent_rand_val pf now urandom pid))%string)
  else None.

(** [AIVORY_DEFAULT_BACKEND_URL] and [AIVORY_DEFAULT_ENVIRONMENT]. *)
Definition AIVORY_DEFAULT_BACKEND_URL : string := "wss://api.aivory.net/monitor/agent".
Definition AIVORY_DEFAULT_ENVIRONMENT : string := "production".

(** [aivory_config_default]: [getenv] is the environment of the process
    and [atof] the conversion of libc. *)
Definition aivory_config_default (getenv : string -> option string)
    (atof : string -> float) : aivory_config_t :=
  {| api_key := Some (match getenv "AIVORY_API_KEY"%string with
                      | Some key => key
                      | None => EmptyString
                      end);
     backend_url := match getenv "AIVORY_BACKEND_URL"%string with
                    | Some url => url
                    | None => AIVORY_DEFAULT_BACKEND_URL
                    end;
     environment := match getenv "AIVORY_ENVIRONMENT"%string with
                    | Some e => e
                    | None => AIVORY_DEFAULT_ENVIRONMENT
                    end;
     sampling_rate := match getenv "AIVORY_SAMPLING_RATE"%string with
                      | Some rate => atof rate
                      | None => 1%float
                      end;
     max_capture_depth := 10;
     max_string_length := AIVORY_DEFAULT_MAX_STRING_LENGTH;
     max_collection_size := 100;
     debug := match getenv "AIVORY_DEBUG"%string with
              | Some d => String.eqb d "true"
              | None => false
              end;
     capture_signals := true |}.

(** [aivory_set_context context_json]: the agent afterwards. *)
Definition aivory_set_context (context_json : option string) (a : aivory_agent_t)
  : aivory_agent_t :=
  {| config := config a; agent_id := agent_id a; hostname := hostname a;
     custom_context := context_json; user_json := user_json a;
     connection := connection a; initialized := initialized a;
     connected := connected a |}.

Definition set_user_json (json : option string) (a : aivory_agent_t) : aivory_agent_t :=
  {| config := config a; agent_id := agent_id a; hostname := hostname a;
     custom_context := custom_context a; user_json := json;
     connection := connection a; initialized := initialized a;
     connected := connected a |}.

(** One [snprintf] of [aivory_set_user]: the text of a field that is not
    NULL, with its comma. *)
Definition user_field (name : string) (value : option string) : string :=
  match value with
  | Some v => (js "'" ++ name ++ js "':'" ++ v ++ js "',")%string
  | None => EmptyString
  end.

(** The last [if] of [aivory_set_user]: a trailing comma becomes the
    closing brace, and a brace is added otherwise. *)
Fixpoint close_object (text : string) : string :=
  match text with
  | EmptyString => "}"%string
  | String c EmptyString =>
      if Ascii.eqb c ","%char then "}"%string else String c "}"%string
  | String c rest => String c (close_object rest)
  end.

(** How [aivory_set_user] ends: the agent with its new [user_json]; or
    [user_json] left pointing at the text it has just freed, when
    [malloc(1024)] fails; or a write past the 1024 bytes of the buffer,
    when the fields do not fit (undefined behaviour). *)
Inductive set_user_result : Type :=
| UserStored (a : aivory_agent_t)
| UserDangling
| UserOverrun.

(** [aivory_set_user user_id email username]; [json_ok] is the result of
    [malloc(1024)]. *)
Definition aivory_set_user (json_ok : bool) (user_id email username : option string)
    (a : aivory_agent_t) : set_user_result :=
  match user_id, email, username with
  | None, None, None => UserStored (set_user_json None a)
  | _, _, _ =>
      if negb json_ok
      then match user_json a with
           | Some _ => UserDangling
           | None => UserStored a
           end
      else
        let text := ("{" ++ user_field "id" user_id ++ user_field "email" email
                     ++ user_field "username" username)%string in
        if strlen text <=? 1023
        then UserStored (set_user_json (Some (close_object text)) a)
        else UserOverrun
  end.

(** [aivory_clear_user]. *)
Definition aivory_clear_user (a : aivory_agent_t) : set_user_result :=
  aivory_set_user true None None None a.

(** The fields of a user that are given, as JSON members. *)
Definition user_members (user_id email username : option string) : list string :=
  let member name value :=
    match value with
    | Some v => [(js "'" ++ name ++ js "':'" ++ v ++ js "'")%string]
    | None => []
    end in
  member "id"%string user_id ++ member "email"%string email
  ++ member "username"%string username.

(** The world with another agent. *)
Definition with_agent (a : aivory_agent_t) (w : world) : world :=
  {| g_agent := a; g_connection := g_connection w; g_signals := g_signals w |}.

(** The world with another [environment] in its configuration, and with
    another agent identifier. *)
Definition config_with_environment (e : string) (c : aivory_config_t)
  : aivory_config_t :=
  {| api_key := api_key c; backend_url := backend_url c;
     environment := e;
     sampling_rate := sampling_rate c;
     max_capture_depth := max_capture_depth c;
     max_string_length := max_string_length c;
     max_collection_size := max_collection_size c;
     debug := debug c; capture_signals := capture_signals c |}.

Definition with_environment (e : string) (w : world) : world :=
  {| g_agent :=
       {| config := option_map (config_with_environment e) (config (g_agent w));
          agent_id := agent_id (g_agent w); hostname := hostname (g_agent w);
          custom_context := custom_context (g_agent w);
          user_json := user_json (g_agent w);
          connection := connection (g_agent w);
          initialized := initialized (g_agent w);
          connected := connected (g_agent w) |};
     g_connection := g_connection w; g_signals := g_signals w |}.

Definition with_agent_id (id : string) (w : world) : world :=
  {| g_agent :=
       {| config := config (g_agent w);
          agent_id := Some id; hostname := hostname (g_agent w);
          custom_context := custom_context (g_agent w);
          user_json := user_json (g_agent w);
          connection := connection (g_agent w);
          initialized := initialized (g_agent w);
          connected := connected (g_agent w) |};
     g_connection := g_connection w; g_signals := g_signals w |}.

(** The answers of the outside with another backtrace, and with another
    text of [strftime]. *)
Definition with_backtrace (backtrace : string) (env : capture_env) : capture_env :=
  {| env_backtrace := Some backtrace;
     env_fingerprint_ok := env_fingerprint_ok env;
     env_now := env_now env; env_timestamp := env_timestamp env;
     env_json_ok := env_json_ok env; env_entry_ok := env_entry_ok env |}.

Definition with_timestamp (timestamp : string) (env : capture_env) : capture_env :=
  {| env_backtrace := env_backtrace env;
     env_fingerprint_ok := env_fingerprint_ok env;
     env_now := env_now env; env_timestamp := timestamp;
     env_json_ok := env_json_ok env; env_entry_ok := env_entry_ok env |}.

(** The world with another [max_string_length] in its configuration. *)
Definition with_max_string_length (n : Z) (w : world) : world :=
  {| g_agent :=
       {| config :=
            match config (g_agent w) with
            | Some c =>
                Some {| api_key := api_key c; backend_url := backend_url c;
                        environment := environment c;
                        sampling_rate := sampling_rate c;
                        max_capture_depth := max_capture_depth c;
                        max_string_length := n;
                        max_collection_size := max_collection_size c;
                        debug := debug c; capture_signals := capture_signals c |}
            | None => None
            end;
          agent_id := agent_id (g_agent w); hostname := hostname (g_agent w);
          custom_context := custom_context (g_agent w);
          user_json := user_json (g_agent w);
          connection := connection (g_agent w);
          initialized := initialized (g_agent w);
          connected := connected (g_agent w) |};
     g_connection := g_connection w;
     g_signals := g_signals w |}.

(** The configuration [c] with another sampling rate, or backend URL. *)
Definition with_sampling_rate (r : float) (c : aivory_config_t) : aivory_config_t :=
  {| api_key := api_key c; backend_url := backend_url c;
     environment := environment c; sampling_rate := r;
     max_capture_depth := max_capture_depth c;
     max_string_length := max_string_length c;
     max_collection_size := max_collection_size c;
     debug := debug c; capture_signals := capture_signals c |}.

Definition with_backend_url (url : string) (c : aivory_config_t) : aivory_config_t :=
  {| api_key := api_key c; backend_url := url;
     environment := environment c; sampling_rate := sampling_rate c;
     max_capture_depth := max_capture_depth c;
     max_string_length := max_string_length c;
     max_collection_size := max_collection_size c;
     debug := debug c; capture_signals := capture_signals c |}.

(** The agent with another sampling rate in its configuration. *)
Definition agent_with_sampling_rate (r : float) (a : aivory_agent_t) : aivory_agent_t :=
  {| config := option_map (with_sampling_rate r) (config a);
     agent_id := agent_id a; hostname := hostname a;
     custom_context := custom_context a; user_json := user_json a;
     connection := connection a; initialized := initialized a;
     connected := connected a |}.

(** Environments and a world for examples: every allocation succeeds. *)
Definition example_init_env : init_env :=
  {| new_agent_id := Some "agent-65000000-0000002a"%string;
     new_hostname := Some "host"%string;
     conn_ok := true; thread_ok := true |}.

Definition example_capture_env : capture_env :=
  {| env_backtrace := Some "[]"%string; env_fingerprint_ok := true;
     env_now := 1700000000; env_timestamp := "2023-11-14T22:13:20Z"%string;
     env_json_ok := true; env_entry_ok := true |}.

(** The world after a first [aivory_init] with the example configuration. *)
Definition example_world : world :=
  snd (fst (aivory_init example_init_env (Some example_config)
              (world_zero Signal.all_default))).

(** An environment in which only the API key is set. *)
Definition example_getenv (name : string) : option string :=
  if String.eqb name "AIVORY_API_KEY" then Some "test-key-123"%string else None.

Definition example_atof (text : string) : float := 0.5%float.

(** A message of [n] bytes. *)
Fixpoint long_message (n : nat) : string :=
  match n with
  | O => EmptyString
  | S n' => String "m"%char (long_message n')
  end.

End Agent.

(** * Properties *)

(** ** The message queue *)

Section QueueFacts.
Import Queue.

Lemma run_snoc (ops : list op) (o : op) (q : aivory_queue_t) :
  run (ops ++ [o]) q = step (run ops q) o.
Proof. unfold run. now rewrite fold_left_app. Qed.

Lemma pushed_snoc (ops : list op) (o : op) :
  pushed (ops ++ [o]) =
  pushed ops ++ match o with Push json => [json] | Pop => [] end.
Proof.
  induction ops as [|[json'|] ops IH]; simpl.
  - destruct o; reflexivity.
  - now rewrite IH.
  - exact IH.
Qed.

Lemma pops_snoc (ops : list op) (o : op) :
  pops (ops ++ [o]) = pops ops + match o with Push _ => 0 | Pop => 1 end.
Proof.
  induction ops as [|[json'|] ops IH]; cbn [app pops].
  - destruct o; reflexivity.
  - exact IH.
  - rewrite IH. lia.
Qed.

Lemma pushes_snoc (ops : list op) (o : op) :
  pushes (ops ++ [o]) = pushes ops + match o with Push _ => 1 | Pop => 0 end.
Proof.
  unfold pushes. rewrite pushed_snoc, length_app.
  destruct o; simpl; lia.
Qed.

(** A push that gets its entry: the count and the chain afterwards. *)
Lemma push_ok_shape (q : aivory_queue_t) (json : string) :
  wf q ->
  entries (queue_push true q json) =
    (if count q =? AIVORY_MESSAGE_QUEUE_SIZE then tl (entries q) else entries q)
    ++ [json]
  /\ count (queue_push true q json) = Z.min (count q + 1) AIVORY_MESSAGE_QUEUE_SIZE
  /\ max_size (queue_push true q json) = max_size q.
Proof.
  intros (Hc & Hle & Hm).
  unfold queue_push, evict_if_full, head_is_null. rewrite Hm in *.
  unfold AIVORY_MESSAGE_QUEUE_SIZE in *.
  destruct (entries q) as [|e es] eqn:He; simpl in Hc.
  - replace (count q >=? 100) with false by lia.
    replace (count q =? 100) with false by lia.
    simpl. rewrite He. repeat split; lia.
  - destruct (Z.eqb_spec (count q) 100) as [E|E].
    + replace (count q >=? 100) with true by lia. simpl.
      repeat split; lia.
    + replace (count q >=? 100) with false by lia. simpl. rewrite He.
      repeat split; lia.
Qed.

Lemma pop_shape (q : aivory_queue_t) :
  wf q ->
  entries (snd (queue_pop q)) = tl (entries q)
  /\ count (snd (queue_pop q)) = Z.max (count q - 1) 0
  /\ max_size (snd (queue_pop q)) = max_size q.
Proof.
  intros (Hc & Hle & Hm). unfold queue_pop.
  destruct (entries q) as [|e es] eqn:He; simpl in *.
  - rewrite He. repeat split; lia.
  - repeat split; lia.
Qed.

Lemma step_wf (q : aivory_queue_t) (o : op) : wf q -> wf (step q o).
Proof.
  intros H. pose proof H as (Hc & Hle & Hm).
  destruct o as [json|]; cbn [step].
  - destruct (push_ok_shape q json H) as (He & Hn & Hs).
    unfold wf. rewrite He, Hn, Hs, length_app. simpl.
    unfold AIVORY_MESSAGE_QUEUE_SIZE in *.
    destruct (Z.eqb_spec (count q) 100) as [E|E].
    + destruct (entries q); simpl in *; lia.
    + lia.
  - destruct (pop_shape q H) as (He & Hn & Hs).
    unfold wf. rewrite He, Hn, Hs.
    destruct (entries q); simpl in *; lia.
Qed.

Lemma queue_init_wf : wf queue_init.
Proof. unfold wf, queue_init, AIVORY_MESSAGE_QUEUE_SIZE. simpl. lia. Qed.

Lemma run_wf (ops : list op) (q : aivory_queue_t) : wf q -> wf (run ops q).
Proof.
  intros H. induction ops as [|o ops IH] using rev_ind.
  - exact H.
  - rewrite run_snoc. now apply step_wf.
Qed.

(** The chain is always the tail end of what was pushed. *)
Lemma run_suffix (ops : list op) :
  exists gone, pushed ops = gone ++ entries (run ops queue_init).
Proof.
  induction ops as [|o ops IH] using rev_ind.
  - now exists [].
  - destruct IH as [gone IH].
    pose proof (run_wf ops queue_init queue_init_wf) as Hwf.
    rewrite run_snoc, pushed_snoc. destruct o as [json|]; cbn [step].
    + destruct (push_ok_shape _ json Hwf) as (He & _). rewrite He, IH.
      destruct (count (run ops queue_init) =? AIVORY_MESSAGE_QUEUE_SIZE).
      * destruct (entries (run ops queue_init)) as [|e es]; simpl.
        -- exists gone. now rewrite app_nil_r.
        -- exists (gone ++ [e]). now rewrite <- !app_assoc.
      * exists gone. now rewrite app_assoc.
    + destruct (pop_shape _ Hwf) as (He & _). rewrite He, IH, app_nil_r.
      destruct (entries (run ops queue_init)) as [|e es]; simpl.
      * now exists gone.
      * exists (gone ++ [e]). now rewrite <- app_assoc.
Qed.

(** The count against the numbers of pushes and pops. *)
Lemma run_count (ops : list op) :
  Z.min (pushes ops) AIVORY_MESSAGE_QUEUE_SIZE - pops ops
    <= count (run ops queue_init)
    <= Z.min (pushes ops) AIVORY_MESSAGE_QUEUE_SIZE.
Proof.
  induction ops as [|o ops IH] using rev_ind.
  - unfold pushes, AIVORY_MESSAGE_QUEUE_SIZE. cbn. lia.
  - pose proof (run_wf ops queue_init queue_init_wf) as Hwf.
    pose proof Hwf as (Hc & Hle & Hm).
    rewrite run_snoc, pushes_snoc, pops_snoc. destruct o as [json|]; cbn [step].
    + destruct (push_ok_shape _ json Hwf) as (_ & Hn & _). rewrite Hn.
      unfold AIVORY_MESSAGE_QUEUE_SIZE in *. lia.
    + destruct (pop_shape _ Hwf) as (_ & Hn & _). rewrite Hn.
      unfold AIVORY_MESSAGE_QUEUE_SIZE in *. lia.
Qed.

(** A push whose entry could not be allocated still evicts from a full
    queue, and appends nothing. *)
Lemma push_failed_shape (q : aivory_queue_t) (json : string) :
  wf q ->
  entries (queue_push false q json) =
    if count q =? AIVORY_MESSAGE_QUEUE_SIZE then tl (entries q) else entries q.
Proof.
  intros (Hc & Hle & Hm).
  unfold queue_push, evict_if_full, head_is_null. rewrite Hm in *.
  unfold AIVORY_MESSAGE_QUEUE_SIZE in *.
  destruct (entries q) as [|e es] eqn:He; simpl in Hc.
  - replace (count q >=? 100) with false by lia.
    replace (count q =? 100) with false by lia.
    simpl. now rewrite He.
  - destruct (Z.eqb_spec (count q) 100) as [E|E].
    + replace (count q >=? 100) with true by lia. reflexivity.
    + replace (count q >=? 100) with false by lia. simpl. now rewrite He.
Qed.

(** The count is what counting alone gives. *)
Lemma live_snoc (ops : list op) (o : op) (k : Z) :
  live (ops ++ [o]) k
  = match o with
    | Push _ => Z.min (live ops k + 1) AIVORY_MESSAGE_QUEUE_SIZE
    | Pop => Z.max (live ops k - 1) 0
    end.
Proof.
  revert k. induction ops as [|[json|] ops IH]; intros k; cbn [app live].
  - now destruct o.
  - apply IH.
  - apply IH.
Qed.

Lemma run_live (ops : list op) : count (run ops queue_init) = live ops 0.
Proof.
  induction ops as [|o ops IH] using rev_ind; [reflexivity|].
  pose proof (run_wf ops queue_init queue_init_wf) as Hwf.
  rewrite run_snoc, live_snoc. destruct o as [json|]; cbn [step].
  - destruct (push_ok_shape _ json Hwf) as (_ & Hn & _). now rewrite Hn, IH.
  - destruct (pop_shape _ Hwf) as (_ & Hn & _). now rewrite Hn, IH.
Qed.

Lemma pops_nonneg (ops : list op) : 0 <= pops ops.
Proof. induction ops as [|[json|] ops IH]; cbn [pops]; lia. Qed.

(** The chain is the last [count] records pushed. *)
Lemma run_latest (ops : list op) :
  entries (run ops queue_init)
  = skipn (List.length (pushed ops) - Z.to_nat (count (run ops queue_init)))
      (pushed ops).
Proof.
  destruct (run_suffix ops) as [gone Hgone].
  pose proof (run_wf ops queue_init queue_init_wf) as (Hc & _ & _).
  rewrite Hc, Nat2Z.id, Hgone, length_app.
  replace (List.length gone + List.length (entries (run ops queue_init))
           - List.length (entries (run ops queue_init)))%nat
    with (List.length gone) by lia.
  now rewrite skipn_app, skipn_all, Nat.sub_diag.
Qed.

(** While no pop finds the queue empty and no push finds it full, the
    count is the number of pushes less the number of pops. *)
Lemma run_undisturbed (ops : list op) :
  (forall n : nat,
     pops (firstn n ops) <= pushes (firstn n ops)
     <= pops (firstn n ops) + AIVORY_MESSAGE_QUEUE_SIZE) ->
  count (run ops queue_init) = pushes ops - pops ops.
Proof.
  induction ops as [|o ops IH] using rev_ind; intros H; [reflexivity|].
  pose proof (run_wf ops queue_init queue_init_wf) as Hwf.
  assert (Hops : count (run ops queue_init) = pushes ops - pops ops).
  { apply IH. intros n.
    destruct (Nat.le_gt_cases n (List.length ops)) as [Hn|Hn].
    - specialize (H n). rewrite firstn_app in H.
      replace (n - List.length ops)%nat with 0%nat in H by lia.
      cbn [firstn] in H. now rewrite app_nil_r in H.
    - rewrite firstn_all2 by lia.
      specialize (H (List.length ops)). rewrite firstn_app, Nat.sub_diag in H.
      cbn [firstn] in H. now rewrite app_nil_r, firstn_all in H. }
  specialize (H (List.length (ops ++ [o]))). rewrite firstn_all in H.
  rewrite pushes_snoc, pops_snoc in H |- *.
  rewrite run_snoc. destruct o as [json|]; cbn [step].
  - destruct (push_ok_shape _ json Hwf) as (_ & Hn & _). rewrite Hn, Hops. lia.
  - destruct (pop_shape _ Hwf) as (_ & Hn & _). rewrite Hn, Hops. lia.
Qed.

Lemma pop_head (q : aivory_queue_t) : fst (queue_pop q) = hd_error (entries q).
Proof. unfold queue_pop. now destruct (entries q). Qed.

(** C1 (as amended).  After any interleaving of pushes and pops from the
    empty queue, every entry allocated: [count] is the length of the chain
    and lies between 0 and Q = 100; [count] is exactly what counting
    gives, a push adding one unless the queue is full and a pop taking one
    unless it is empty; the chain is exactly the [count] most recently
    pushed records, oldest first; with N pushes and M pops,
    min(N, Q) - M <= count <= min(N, Q); and while no pop finds the queue
    empty and no push finds it full (M' <= N' <= M' + Q after every
    prefix), [count] is N - M = min(N - M, Q) and the chain is what was
    pushed after the first M records, as the claim has it.  A further pop
    returns the oldest record and leaves the others, or returns NULL and
    leaves the empty queue; a further push whose entry is allocated
    appends the record at the tail, after evicting the head when the queue
    holds Q entries; a push whose entry cannot be allocated appends
    nothing (and still evicts from a full queue). *)
Theorem queue_holds_latest_pushed :
  forall ops : list op,
    let q := run ops queue_init in
    count q = Z.of_nat (List.length (entries q))
    /\ 0 <= count q <= AIVORY_MESSAGE_QUEUE_SIZE
    /\ count q = live ops 0
    /\ entries q
       = skipn (List.length (pushed ops) - Z.to_nat (count q)) (pushed ops)
    /\ Z.min (pushes ops) AIVORY_MESSAGE_QUEUE_SIZE - pops ops
         <= count q <= Z.min (pushes ops) AIVORY_MESSAGE_QUEUE_SIZE
    /\ ((forall n : nat,
           pops (firstn n ops) <= pushes (firstn n ops)
           <= pops (firstn n ops) + AIVORY_MESSAGE_QUEUE_SIZE) ->
        count q = pushes ops - pops ops
        /\ count q = Z.min (pushes ops - pops ops) AIVORY_MESSAGE_QUEUE_SIZE
        /\ entries q = skipn (Z.to_nat (pops ops)) (pushed ops))
    /\ (fst (queue_pop q) = hd_error (entries q)
        /\ entries (snd (queue_pop q)) = tl (entries q)
        /\ count (snd (queue_pop q)) = Z.max (count q - 1) 0)
    /\ (forall json : string,
          entries (queue_push true q json) =
          (if count q =? AIVORY_MESSAGE_QUEUE_SIZE
           then tl (entries q) else entries q) ++ [json])
    /\ (forall json : string,
          entries (queue_push false q json) =
          if count q =? AIVORY_MESSAGE_QUEUE_SIZE
          then tl (entries q) else entries q).
Proof.
  intros ops q.
  pose proof (run_wf ops queue_init queue_init_wf) as Hwf.
  fold q in Hwf. pose proof Hwf as (Hc & Hle & Hm).
  split; [exact Hc|].
  split; [rewrite Hm in Hle; lia|].
  split; [apply run_live|].
  split; [apply run_latest|].
  split; [apply run_count|].
  split.
  { intros H. pose proof (run_undisturbed ops H) as Hn. fold q in Hn.
    pose proof (H (List.length ops)) as Hall. rewrite firstn_all in Hall.
    split; [exact Hn|]. split; [lia|].
    subst q. rewrite run_latest, Hn. f_equal. unfold pushes.
    pose proof (pops_nonneg ops). unfold pushes in Hall. lia. }
  split.
  { destruct (pop_shape q Hwf) as (He & Hn & _).
    split; [apply pop_head|]. now split. }
  split; intros json.
  - apply (push_ok_shape q json Hwf).
  - apply (push_failed_shape q json Hwf).
Qed.

(** C1 (as stated) fails.  After the 101 pushes of R0 to R100 and then
    one pop (N = 101, M = 1) the queue holds the 99 records R2 to R100, not
    min(N - M, Q) = 100; and after push, pop, pop, push (N = M = 2) it
    holds one record, not 0. *)
Lemma queue_count_is_not_min_of_difference :
  let ops := push_many 101 0 ++ [Pop] in
  let ops' := [Push "A"; Pop; Pop; Push "B"] in
  pushes ops = 101 /\ pops ops = 1
  /\ Z.min (pushes ops - pops ops) AIVORY_MESSAGE_QUEUE_SIZE = 100
  /\ count (run ops queue_init) = 99
  /\ List.length (entries (run ops queue_init)) = 99%nat
  /\ hd EmptyString (entries (run ops queue_init)) = "R2"%string
  /\ last (entries (run ops queue_init)) EmptyString = "R100"%string
  /\ pushes ops' = 2 /\ pops ops' = 2
  /\ Z.min (pushes ops' - pops ops') AIVORY_MESSAGE_QUEUE_SIZE = 0
  /\ entries (run ops' queue_init) = ["B"%string].
Proof. vm_compute. repeat split; reflexivity. Qed.

End QueueFacts.

(** ** The escape encoder *)

Section EscapeFacts.
Import C Backtrace.

Local Open Scope string_scope.

Lemma append_nil_r (s : string) : s ++ EmptyString = s.
Proof. induction s as [|c s IH]; simpl; [reflexivity | now rewrite IH]. Qed.

Lemma append_assoc (a b c : string) : (a ++ b) ++ c = a ++ (b ++ c).
Proof. induction a as [|x a IH]; simpl; [reflexivity | now rewrite IH]. Qed.

Lemma length_append (a b : string) :
  String.length (a ++ b) = (String.length a + String.length b)%nat.
Proof. induction a as [|x a IH]; simpl; [reflexivity | now rewrite IH]. Qed.

(** What the loop has written is never touched again. *)
Lemma escape_loop_dst (src dst : string) :
  escape_loop src dst = dst ++ escape_loop src EmptyString.
Proof.
  revert dst. induction src as [|c src IH]; intros dst; simpl.
  - now rewrite append_nil_r.
  - rewrite (IH (dst ++ escape_char c)), (IH (escape_char c)).
    now rewrite append_assoc.
Qed.

Lemma escape_loop_cons (c : ascii) (src : string) :
  escape_loop (String c src) EmptyString =
  escape_char c ++ escape_loop src EmptyString.
Proof. simpl. apply escape_loop_dst. Qed.

Lemma escape_loop_flat (s : string) :
  escape_loop s EmptyString =
  String.concat EmptyString (map escape_char (list_ascii_of_string s)).
Proof.
  induction s as [|c s IH].
  - reflexivity.
  - rewrite escape_loop_cons, IH. cbn [list_ascii_of_string map].
    destruct (map escape_char (list_ascii_of_string s)) as [|x xs] eqn:E.
    + simpl. now rewrite append_nil_r.
    + reflexivity.
Qed.

Lemma escape_char_plain (c : ascii) :
  is_special c = false -> escape_char c = str1 c.
Proof.
  unfold is_special, escape_char. intros H.
  repeat (apply orb_false_elim in H; destruct H as [H ?]).
  now repeat match goal with E : Ascii.eqb _ _ = false |- _ => rewrite E; clear E end.
Qed.

Lemma escape_char_length (c : ascii) :
  (1 <= String.length (escape_char c) <= 2)%nat.
Proof.
  unfold escape_char.
  repeat match goal with |- context [Ascii.eqb ?a ?b] => destruct (Ascii.eqb a b) end;
    simpl; lia.
Qed.

(** Decoding undoes the encoding of one byte, whatever follows. *)
Lemma unescape_escape_char (c : ascii) (rest : string) :
  unescape_json_string (escape_char c ++ rest) =
  match unescape_json_string rest with
  | Some tail => Some (String c tail)
  | None => None
  end.
Proof.
  unfold escape_char.
  destruct (Ascii.eqb_spec c dquote) as [->|N1]; [reflexivity|].
  destruct (Ascii.eqb_spec c backslash) as [->|N2]; [reflexivity|].
  destruct (Ascii.eqb_spec c newline) as [->|N3]; [reflexivity|].
  destruct (Ascii.eqb_spec c carriage_return) as [->|N4]; [reflexivity|].
  destruct (Ascii.eqb_spec c tab) as [->|N5]; [reflexivity|].
  cbn [str1 append unescape_json_string].
  destruct (Ascii.eqb_spec c backslash) as [E|_]; [contradiction|reflexivity].
Qed.

Lemma unescape_escape_loop (s : string) :
  unescape_json_string (escape_loop s EmptyString) = Some s.
Proof.
  induction s as [|c s IH].
  - reflexivity.
  - now rewrite escape_loop_cons, unescape_escape_char, IH.
Qed.

Lemma escape_loop_length (s : string) :
  (String.length s <= String.length (escape_loop s EmptyString)
   <= 2 * String.length s)%nat.
Proof.
  induction s as [|c s IH].
  - simpl. lia.
  - rewrite escape_loop_cons, length_append.
    pose proof (escape_char_length c). simpl String.length. lia.
Qed.

(** C6.  With its buffer allocated, [escape_json_string] writes, for each
    byte of the input in order, the two-byte escape of a backslash, double
    quote, newline, carriage return or tab, and the byte itself otherwise;
    the output fits the [len * 2 + 1] bytes of the buffer; and decoding
    the output gives the input back. *)
Theorem escape_json_string_invertible :
  forall s : string,
    let escaped := escape_json_string true (Some s) in
    escaped = String.concat EmptyString (map escape_char (list_ascii_of_string s))
    /\ escape_char backslash = String backslash (str1 backslash)
    /\ escape_char dquote = String backslash (str1 dquote)
    /\ escape_char newline = String backslash (str1 "n"%char)
    /\ escape_char carriage_return = String backslash (str1 "r"%char)
    /\ escape_char tab = String backslash (str1 "t"%char)
    /\ (forall c : ascii, is_special c = false -> escape_char c = str1 c)
    /\ (strlen escaped + 1 <= escaped_capacity s)%Z
    /\ unescape_json_string escaped = Some s.
Proof.
  intros s escaped. subst escaped. cbn [escape_json_string].
  split; [apply escape_loop_flat|].
  do 5 (split; [reflexivity|]).
  split; [exact escape_char_plain|].
  split; [|apply unescape_escape_loop].
  unfold escaped_capacity, strlen. pose proof (escape_loop_length s). lia.
Qed.

End EscapeFacts.

(** ** The fingerprint *)

Section FingerprintFacts.
Import C Backtrace.

Lemma hash_step_spec (pf : platform) (h : Z) (c : ascii) :
  0 < ulong_bits pf ->
  hash_step pf h c = (h * 33 + char_value pf c) mod 2 ^ ulong_bits pf.
Proof.
  intros Hw. unfold hash_step, to_ulong.
  assert (Hm : 2 ^ ulong_bits pf <> 0) by (apply Z.pow_nonzero; lia).
  rewrite Z.shiftl_mul_pow2 by lia. change (2 ^ 5) with 32.
  rewrite Z.add_mod_idemp_l by exact Hm.
  rewrite (Z.mod_eq (h * 32)), (Z.mod_eq (char_value pf c)) by exact Hm.
  set (m := 2 ^ ulong_bits pf).
  replace (h * 32 - m * (h * 32 / m) + h + (char_value pf c - m * (char_value pf c / m)))
    with (h * 33 + char_value pf c + (- (h * 32 / m) - char_value pf c / m) * m) by ring.
  apply Z_mod_plus_full.
Qed.

Lemma hash_type_fold (pf : platform) (s : string) (h : Z) :
  0 < ulong_bits pf ->
  hash_type pf s h =
  fold_left (fun h b => (h * 33 + b) mod 2 ^ ulong_bits pf) (chars_of pf s) h.
Proof.
  intros Hw. revert h. induction s as [|c s IH]; intros h.
  - reflexivity.
  - cbn [hash_type]. rewrite IH, hash_step_spec by exact Hw. reflexivity.
Qed.

(** The second loop reads the bytes that are left of the first 500. *)
Lemma hash_backtrace_take (pf : platform) (s : string) (chars h : Z) :
  0 <= chars <= 500 ->
  hash_backtrace pf s chars h = hash_type pf (take (Z.to_nat (500 - chars)) s) h.
Proof.
  revert chars h. induction s as [|b s IH]; intros chars h Hc.
  - unfold take. now destruct (Z.to_nat (500 - chars)).
  - cbn [hash_backtrace]. destruct (Z.ltb_spec chars 500) as [Hlt|Hge].
    + rewrite IH by lia.
      replace (Z.to_nat (500 - chars)) with (S (Z.to_nat (500 - (chars + 1)))) by lia.
      reflexivity.
    + replace (500 - chars) with 0 by lia. reflexivity.
Qed.

Lemma list_ascii_of_append (a b : string) :
  list_ascii_of_string (a ++ b) =
  (list_ascii_of_string a ++ list_ascii_of_string b)%list.
Proof. induction a as [|x a IH]; simpl; [reflexivity | now rewrite IH]. Qed.

Lemma fingerprint_hash_djb2 (pf : platform) (type backtrace : option string) :
  0 < ulong_bits pf ->
  fingerprint_hash pf type backtrace =
  djb2 (ulong_bits pf) (chars_of pf (hashed_text type backtrace)).
Proof.
  intros Hw. unfold fingerprint_hash, djb2, hashed_text, chars_of.
  rewrite list_ascii_of_append, map_app, fold_left_app.
  fold (chars_of pf (opt_string type)).
  fold (chars_of pf (take 500 (opt_string backtrace))).
  rewrite <- !hash_type_fold by exact Hw.
  destruct type as [t|], backtrace as [b|]; cbn [opt_string].
  - now rewrite hash_backtrace_take by lia.
  - unfold take. reflexivity.
  - now rewrite hash_backtrace_take by lia.
  - reflexivity.
Qed.

Lemma djb2_range (bits : Z) (bs : list Z) :
  0 < bits -> 0 <= djb2 bits bs < Z.max 5382 (2 ^ bits).
Proof.
  intros Hb. unfold djb2.
  assert (Hp : 0 < 2 ^ bits) by (apply Z.pow_pos_nonneg; lia).
  assert (G : forall h, 0 <= h < Z.max 5382 (2 ^ bits) ->
    0 <= fold_left (fun h b => (h * 33 + b) mod 2 ^ bits) bs h < Z.max 5382 (2 ^ bits)).
  { induction bs as [|b bs IH]; intros h Hh.
    - exact Hh.
    - cbn [fold_left]. apply IH.
      pose proof (Z.mod_pos_bound (h * 33 + b) (2 ^ bits) Hp). lia. }
  apply G. lia.
Qed.

Lemma hex_digit_ok (d : Z) :
  0 <= d < 16 -> digit_value (hex_digit d) = d /\ is_lower_hex (hex_digit d) = true.
Proof.
  intros Hd.
  assert (H : List.In d [0; 1; 2; 3; 4; 5; 6; 7; 8; 9; 10; 11; 12; 13; 14; 15])
    by (cbn [List.In]; lia).
  cbn [List.In] in H.
  repeat (destruct H as [<-|H]; [split; reflexivity|]).
  contradiction.
Qed.

Lemma hex_value_app (a b : string) :
  hex_value (a ++ b) =
  fold_left (fun acc c => acc * 16 + digit_value c) (list_ascii_of_string b)
            (hex_value a).
Proof. unfold hex_value. now rewrite list_ascii_of_append, fold_left_app. Qed.

Lemma all_hex_app (a b : string) :
  forallb is_lower_hex (list_ascii_of_string (a ++ b)) =
  forallb is_lower_hex (list_ascii_of_string a)
  && forallb is_lower_hex (list_ascii_of_string b).
Proof. now rewrite list_ascii_of_append, forallb_app. Qed.

(** The digits [hex_digits] puts before [acc] write the value, when the
    fuel covers it. *)
Lemma hex_digits_spec (fuel : nat) :
  forall (v : Z) (acc : string),
    (1 <= fuel)%nat ->
    0 <= v < 16 ^ Z.of_nat fuel ->
    exists d : string,
      hex_digits fuel v acc = (d ++ acc)%string
      /\ hex_value d = v
      /\ (1 <= String.length d <= fuel)%nat
      /\ forallb is_lower_hex (list_ascii_of_string d) = true.
Proof.
  induction fuel as [|fuel IH]; intros v acc Hf Hv.
  - lia.
  - assert (Hr : 0 <= v mod 16 < 16) by (apply Z.mod_pos_bound; lia).
    destruct (hex_digit_ok _ Hr) as (Hval & Hlow).
    cbn [hex_digits]. destruct (Z.eqb_spec (v / 16) 0) as [E|E].
    + exists (str1 (hex_digit (v mod 16))). repeat split.
      * unfold hex_value. cbn. rewrite Hval.
        pose proof (Z.div_mod v 16). lia.
      * simpl. lia.
      * simpl. lia.
      * cbn. now rewrite Hlow.
    + assert (Hq : 0 <= v / 16 < 16 ^ Z.of_nat fuel).
      { split; [apply Z.div_pos; lia|].
        apply Z.div_lt_upper_bound; [lia|].
        rewrite Nat2Z.inj_succ, Z.pow_succ_r in Hv by lia. lia. }
      assert (Hf' : (1 <= fuel)%nat).
      { destruct fuel; [|lia]. change (16 ^ Z.of_nat 1) with 16 in Hv.
        rewrite Z.div_small in E by lia. contradiction. }
      destruct (IH (v / 16) (String (hex_digit (v mod 16)) acc) Hf' Hq)
        as (d & Hd & Hdv & Hlen & Hall).
      exists (d ++ str1 (hex_digit (v mod 16)))%string. repeat split.
      * rewrite Hd. now rewrite append_assoc.
      * rewrite hex_value_app, Hdv. cbn. rewrite Hval.
        pose proof (Z.div_mod v 16). lia.
      * rewrite length_append. simpl. lia.
      * rewrite length_append. simpl. lia.
      * rewrite all_hex_app, Hall. cbn. now rewrite Hlow.
Qed.

Lemma zeros_facts (n : nat) :
  String.length (zeros n) = n
  /\ hex_value (zeros n) = 0
  /\ forallb is_lower_hex (list_ascii_of_string (zeros n)) = true.
Proof.
  induction n as [|n (Hl & Hv & Ha)].
  - repeat split.
  - repeat split.
    + simpl. now rewrite Hl.
    + change (zeros (S n)) with (str1 "0"%char ++ zeros n)%string.
      rewrite hex_value_app. exact Hv.
    + cbn [zeros list_ascii_of_string forallb]. now rewrite Ha.
Qed.

Lemma take_all (s : string) : take (String.length s) s = s.
Proof.
  unfold take. induction s as [|c s IH]; [reflexivity|].
  simpl. now rewrite IH.
Qed.

(** [%016lx] of a value below 2^64: sixteen lower-case digits that write
    the value. *)
Lemma fmt_016lx_spec (v : Z) :
  0 <= v < 2 ^ 64 ->
  String.length (fmt_016lx v) = 16%nat
  /\ hex_value (fmt_016lx v) = v
  /\ forallb is_lower_hex (list_ascii_of_string (fmt_016lx v)) = true.
Proof.
  intros Hv. unfold fmt_016lx.
  destruct (hex_digits_spec 16 v EmptyString ltac:(lia) Hv)
    as (d & Hd & Hdv & Hlen & Hall).
  rewrite Hd, append_nil_r.
  destruct (zeros_facts (16 - String.length d)) as (Zl & Zv & Za).
  repeat split.
  - rewrite length_append, Zl. lia.
  - rewrite hex_value_app, Zv. exact Hdv.
  - now rewrite all_hex_app, Za, Hall.
Qed.

(** Below 0x80 a plain [char] has the value of its byte, signed or not. *)
Lemma chars_of_ascii7 (pf : platform) (s : string) :
  forallb is_ascii7 (list_ascii_of_string s) = true ->
  chars_of pf s = map byte_of (list_ascii_of_string s).
Proof.
  unfold chars_of. induction (list_ascii_of_string s) as [|c l IH]; intros H.
  - reflexivity.
  - cbn [forallb] in H. apply andb_prop in H as [Hc Hl].
    cbn [map]. rewrite (IH Hl). f_equal.
    unfold char_value, is_ascii7 in *.
    replace (128 <=? byte_of c) with false by lia.
    now rewrite andb_false_r.
Qed.

Lemma fingerprint_hash_range (pf : platform) (type backtrace : option string) :
  supported pf -> 0 <= fingerprint_hash pf type backtrace < 2 ^ 64.
Proof.
  intros Hs.
  assert (Hw : 0 < ulong_bits pf) by (destruct Hs as [-> | ->]; lia).
  rewrite fingerprint_hash_djb2 by exact Hw.
  pose proof (djb2_range (ulong_bits pf)
                (chars_of pf (hashed_text type backtrace)) Hw) as Hr.
  destruct Hs as [E | E]; rewrite E in *; lia.
Qed.

(** C2 (as amended).  On a platform whose [unsigned long] has 32 or 64
    bits, with its 17 bytes allocated, the fingerprint is a string of 16
    lower-case hexadecimal digits (zero-padded) that writes the hash
    [h <- (h * 33 + c) mod 2^W] from 5381 over the type label followed by
    the first 500 bytes of the backtrace, where W is the width of
    [unsigned long] and [c] the value of the byte as a plain [char]; a
    platform of the same width gives the same fingerprint when every
    hashed byte is below 0x80.  Without the allocation the result is
    NULL. *)
Theorem fingerprint_is_djb2_in_hex :
  forall (pf : platform) (type backtrace : option string),
    supported pf ->
    exists fp : string,
      aivory_calculate_fingerprint pf true type backtrace = Some fp
      /\ String.length fp = 16%nat
      /\ forallb is_lower_hex (list_ascii_of_string fp) = true
      /\ hex_value fp
         = djb2 (ulong_bits pf) (chars_of pf (hashed_text type backtrace))
      /\ (forall pf' : platform,
            ulong_bits pf' = ulong_bits pf ->
            forallb is_ascii7
              (list_ascii_of_string (hashed_text type backtrace)) = true ->
            aivory_calculate_fingerprint pf' true type backtrace = Some fp)
      /\ aivory_calculate_fingerprint pf false type backtrace = None.
Proof.
  intros pf type backtrace Hs.
  assert (Hw : 0 < ulong_bits pf) by (destruct Hs as [-> | ->]; lia).
  destruct (fmt_016lx_spec _ (fingerprint_hash_range pf type backtrace Hs))
    as (Hlen & Hval & Hall).
  assert (Htake : take 16 (fmt_016lx (fingerprint_hash pf type backtrace))
                  = fmt_016lx (fingerprint_hash pf type backtrace)).
  { rewrite <- Hlen at 1. apply take_all. }
  exists (fmt_016lx (fingerprint_hash pf type backtrace)).
  unfold aivory_calculate_fingerprint. rewrite Htake.
  split; [reflexivity|].
  split; [exact Hlen|].
  split; [exact Hall|].
  split; [rewrite Hval; now apply fingerprint_hash_djb2|].
  split; [|reflexivity].
  intros pf' Hsame H7.
  assert (Hh : fingerprint_hash pf' type backtrace
               = fingerprint_hash pf type backtrace).
  { rewrite !fingerprint_hash_djb2 by (rewrite ?Hsame; exact Hw).
    now rewrite Hsame, !chars_of_ascii7 by exact H7. }
  now rewrite Hh, Htake.
Qed.

(** The theorem at the label "Error" and the backtrace "[]" on Linux
    x86-64. *)
Lemma fingerprint_is_djb2_in_hex_witness :
  exists fp : string,
    aivory_calculate_fingerprint linux_x86_64 true
      (Some "Error"%string) (Some "[]"%string) = Some fp
    /\ String.length fp = 16%nat
    /\ forallb is_lower_hex (list_ascii_of_string fp) = true
    /\ hex_value fp
       = djb2 (ulong_bits linux_x86_64)
           (chars_of linux_x86_64
              (hashed_text (Some "Error"%string) (Some "[]"%string)))
    /\ (forall pf' : platform,
          ulong_bits pf' = ulong_bits linux_x86_64 ->
          forallb is_ascii7
            (list_ascii_of_string
               (hashed_text (Some "Error"%string) (Some "[]"%string))) = true ->
          aivory_calculate_fingerprint pf' true
            (Some "Error"%string) (Some "[]"%string) = Some fp)
    /\ aivory_calculate_fingerprint linux_x86_64 false
         (Some "Error"%string) (Some "[]"%string) = None.
Proof.
  apply (fingerprint_is_djb2_in_hex linux_x86_64
           (Some "Error"%string) (Some "[]"%string)).
  right. reflexivity.
Defined.

(** C2 (as stated) fails.  For the one-byte label 0xE9 the fingerprint on
    Linux x86-64, where [char] is signed, is that of 5381 * 33 - 23, on
    Linux aarch64, where it is not, that of 5381 * 33 + 233, which is what
    the hash over bytes gives; and for the label "Error" with the
    backtrace "[]" a platform with a 32-bit [unsigned long] keeps the low
    32 bits only. *)
Lemma fingerprint_differs_between_platforms :
  aivory_calculate_fingerprint linux_x86_64 true (Some e_acute) None
    = Some "000000000002b58e"%string
  /\ aivory_calculate_fingerprint linux_aarch64 true (Some e_acute) None
    = Some "000000000002b68e"%string
  /\ fmt_016lx (djb2 64 (map byte_of (list_ascii_of_string e_acute)))
    = "000000000002b68e"%string
  /\ aivory_calculate_fingerprint linux_x86_64 true
       (Some "Error"%string) (Some "[]"%string)
    = Some "0000d0a8d56bcda7"%string
  /\ aivory_calculate_fingerprint linux_i386 true
       (Some "Error"%string) (Some "[]"%string)
    = Some "00000000d56bcda7"%string.
Proof. vm_compute. repeat split; reflexivity. Qed.

End FingerprintFacts.

(** ** The URL parser *)

Section UrlFacts.
Import C Transport.

Local Open Scope string_scope.

Lemma eqb_by_byte (c d : ascii) : byte_of c <> byte_of d -> Ascii.eqb c d = false.
Proof.
  intros H. destruct (Ascii.eqb_spec c d) as [->|]; [contradiction|reflexivity].
Qed.

Lemma advance_append (a b : string) : advance (String.length a) (a ++ b) = b.
Proof.
  unfold advance. rewrite length_append.
  replace (String.length a + String.length b - String.length a)%nat
    with (String.length b) by lia.
  induction a as [|c a IH]; simpl.
  - apply take_all.
  - exact IH.
Qed.

Lemma take_append (a b : string) : take (String.length a) (a ++ b) = a.
Proof.
  unfold take. induction a as [|c a IH]; simpl.
  - now destruct b.
  - now rewrite IH.
Qed.

(** The scan for the end of the host stops where the host stops. *)
Lemma host_end_of_append (host rest : string) :
  host_ok host = true ->
  match rest with
  | EmptyString => True
  | String c _ => Ascii.eqb c ":"%char || Ascii.eqb c "/"%char = true
  end ->
  host_end_of (host ++ rest) = rest.
Proof.
  unfold host_ok. intros Hh Hr. induction host as [|c host IH].
  - simpl. destruct rest as [|c r]; [reflexivity|]. simpl. now rewrite Hr.
  - cbn [list_ascii_of_string forallb] in Hh. apply andb_prop in Hh as [Hc Hh].
    apply negb_true_iff in Hc. cbn [append host_end_of]. rewrite Hc. now apply IH.
Qed.

Lemma isdigit_not (c : ascii) :
  isdigit c = true ->
  Ascii.eqb c "/"%char = false /\ Ascii.eqb c "-"%char = false
  /\ Ascii.eqb c "+"%char = false /\ isspace c = false.
Proof.
  unfold isdigit, isspace. intros H. apply andb_prop in H as [H1 H2].
  repeat split; try (apply eqb_by_byte; cbn; lia).
  apply orb_false_iff. split; lia.
Qed.

Lemma skip_to_slash_digits (digits path : string) :
  digits_ok digits = true -> path_ok path = true ->
  skip_to_slash (digits ++ path) = path.
Proof.
  unfold digits_ok. intros Hd Hp. induction digits as [|c digits IH].
  - simpl. destruct path as [|c r]; [reflexivity|]. simpl in *. now rewrite Hp.
  - cbn [list_ascii_of_string forallb] in Hd. apply andb_prop in Hd as [Hc Hd].
    destruct (isdigit_not c Hc) as (E & _).
    cbn [append skip_to_slash]. rewrite E. now apply IH.
Qed.

Lemma digits_value_append (digits path : string) (acc : Z) :
  digits_ok digits = true -> path_ok path = true ->
  digits_value (digits ++ path) acc =
  fold_left (fun acc c => acc * 10 + (byte_of c - 48))
            (list_ascii_of_string digits) acc.
Proof.
  unfold digits_ok. intros Hd Hp. revert acc.
  induction digits as [|c digits IH]; intros acc.
  - simpl. destruct path as [|c r]; [reflexivity|]. simpl in *.
    apply Ascii.eqb_eq in Hp. subst c. reflexivity.
  - cbn [list_ascii_of_string forallb] in Hd. apply andb_prop in Hd as [Hc Hd].
    cbn [append digits_value list_ascii_of_string fold_left]. rewrite Hc.
    now apply IH.
Qed.

Lemma decimal_value_nonneg (digits : string) :
  digits_ok digits = true -> 0 <= decimal_value digits.
Proof.
  unfold digits_ok, decimal_value. intros Hd.
  assert (G : forall acc, 0 <= acc ->
    0 <= fold_left (fun acc c => acc * 10 + (byte_of c - 48))
                   (list_ascii_of_string digits) acc).
  { induction (list_ascii_of_string digits) as [|c l IH]; intros acc Ha.
    - exact Ha.
    - cbn [forallb] in Hd. apply andb_prop in Hd as [Hc Hd].
      cbn [fold_left]. apply IH; [exact Hd|]. unfold isdigit in Hc. lia. }
  apply G. lia.
Qed.

(** [atoi] of port digits followed by the path is the number they write. *)
Lemma atoi_digits (pf : platform) (digits path : string) :
  supported pf ->
  digits_ok digits = true -> path_ok path = true ->
  decimal_value digits < 2 ^ 31 ->
  atoi pf (digits ++ path) = decimal_value digits.
Proof.
  intros Hs Hd Hp Hv.
  pose proof (decimal_value_nonneg digits Hd) as H0.
  assert (Hval : strtol10 pf (digits ++ path) = decimal_value digits).
  { unfold strtol10.
    assert (Hraw :
      match skip_spaces (digits ++ path) with
      | String c rest =>
          if Ascii.eqb c "-"%char then - digits_value rest 0
          else if Ascii.eqb c "+"%char then digits_value rest 0
          else digits_value (skip_spaces (digits ++ path)) 0
      | EmptyString => 0
      end = decimal_value digits).
    { destruct digits as [|c digits].
      - destruct path as [|c r]; [reflexivity|].
        simpl in Hp. apply Ascii.eqb_eq in Hp. subst c. reflexivity.
      - pose proof Hd as Hd'. unfold digits_ok in Hd'.
        cbn [list_ascii_of_string forallb] in Hd'.
        apply andb_prop in Hd' as [Hc _].
        destruct (isdigit_not c Hc) as (_ & Em & Ep & Es).
        cbn [append skip_spaces]. rewrite Es, Em, Ep.
        change (String c (digits ++ path)) with (String c digits ++ path).
        now rewrite digits_value_append. }
    rewrite Hraw.
    destruct Hs as [E | E]; rewrite E; lia. }
  unfold atoi, to_int. rewrite Hval.
  rewrite Z.mod_small by lia. lia.
Qed.

(** The parser after the scheme. *)
Lemma parse_url_after_scheme (pf : platform) (tls : bool) (rest : string) :
  parse_url pf (scheme_of tls ++ rest) =
  let host_end := host_end_of rest in
  let host_len := (strlen rest - strlen host_end)%Z in
  if (host_len >=? 256)%Z then None
  else
    let '(port, p) :=
      match host_end with
      | String c p1 =>
          if Ascii.eqb c ":"%char then (atoi pf p1, skip_to_slash p1)
          else (default_port tls, host_end)
      | EmptyString => (default_port tls, host_end)
      end in
    Some {| url_host := take (Z.to_nat host_len) rest;
            url_port := port;
            url_path := match p with
                        | String c _ =>
                            if Ascii.eqb c "/"%char then take 511 p else "/"
                        | EmptyString => "/"
                        end;
            url_use_ssl := tls |}.
Proof.
  assert (P0 : forall s, String.prefix EmptyString s = true) by now destruct s.
  unfold parse_url. destruct tls.
  - assert (E : String.prefix "wss://" (scheme_of true ++ rest) = true)
      by (cbn; apply P0).
    rewrite E.
    change 6%nat with (String.length (scheme_of true)).
    rewrite advance_append. reflexivity.
  - assert (E1 : String.prefix "wss://" (scheme_of false ++ rest) = false)
      by reflexivity.
    assert (E2 : String.prefix "ws://" (scheme_of false ++ rest) = true)
      by (cbn; apply P0).
    rewrite E1, E2.
    change 5%nat with (String.length (scheme_of false)).
    rewrite advance_append. reflexivity.
Qed.

Lemma parse_url_made (pf : platform) (tls : bool) (host : string)
    (port : option string) (path : string) :
  supported pf ->
  host_ok host = true ->
  match port with
  | Some digits => digits_ok digits = true /\ (decimal_value digits < 2 ^ 31)%Z
  | None => True
  end ->
  path_ok path = true ->
  parse_url pf (make_url tls host port path) =
  if (256 <=? strlen host)%Z then None
  else Some {| url_host := host;
               url_port := match port with
                           | Some digits => decimal_value digits
                           | None => default_port tls
                           end;
               url_path := if is_empty path then "/" else take 511 path;
               url_use_ssl := tls |}.
Proof.
  intros Hs Hh Hport Hp. unfold make_url. rewrite parse_url_after_scheme.
  set (rest := port_text port ++ path).
  assert (Hend : host_end_of (host ++ rest) = rest).
  { apply host_end_of_append; [exact Hh|]. subst rest.
    destruct port as [digits|]; [reflexivity|].
    cbn [port_text append]. destruct path as [|c r]; [exact I|].
    simpl in Hp. rewrite Hp. apply orb_true_r. }
  cbv zeta. rewrite Hend.
  assert (Hlen : (strlen (host ++ rest) - strlen rest)%Z = strlen host).
  { unfold strlen. rewrite length_append. lia. }
  rewrite Hlen. rewrite Z.geb_leb.
  destruct (256 <=? strlen host)%Z; [reflexivity|].
  unfold strlen at 1. rewrite Nat2Z.id, take_append.
  subst rest. destruct port as [digits|]; cbn [port_text append].
  - destruct Hport as [Hd Hv].
    change (Ascii.eqb ":" ":") with true. cbv iota.
    rewrite atoi_digits, skip_to_slash_digits by assumption.
    destruct path as [|c r]; [reflexivity|]. simpl in Hp. rewrite Hp. reflexivity.
  - destruct path as [|c r]; [reflexivity|]. simpl in Hp.
    apply Ascii.eqb_eq in Hp. subst c. reflexivity.
Qed.

Lemma parse_url_other_scheme (pf : platform) (url : string) :
  String.prefix "ws://" url = false ->
  String.prefix "wss://" url = false ->
  parse_url pf url = None.
Proof. intros H1 H2. unfold parse_url. now rewrite H1, H2. Qed.

(** C9 (as amended).  For a URL made of the scheme [ws://] or [wss://], a
    host without colon or slash, an optional colon followed by decimal
    digits that write a number below 2^31, and a path that is empty or
    starts with a slash: the parser rejects it when the host has 256 bytes
    or more; otherwise it accepts it, with that host, the number of the
    digits as port (80 for [ws://] and 443 for [wss://] when there is no
    port), the first 511 bytes of the path (the path [/] when it is empty)
    and TLS on exactly for [wss://].  A URL that starts with neither scheme
    is rejected.  The two URLs of the specification parse as it says. *)
Theorem parse_url_of_parts :
  forall (pf : platform) (tls : bool) (host : string) (port : option string)
         (path other : string),
    supported pf ->
    host_ok host = true ->
    match port with
    | Some digits => digits_ok digits = true /\ (decimal_value digits < 2 ^ 31)%Z
    | None => True
    end ->
    path_ok path = true ->
    parse_url pf (make_url tls host port path) =
      (if (256 <=? strlen host)%Z then None
       else Some {| url_host := host;
                    url_port := match port with
                                | Some digits => decimal_value digits
                                | None => default_port tls
                                end;
                    url_path := if is_empty path then "/" else take 511 path;
                    url_use_ssl := tls |})
    /\ (String.prefix "ws://" other = false ->
        String.prefix "wss://" other = false ->
        parse_url pf other = None)
    /\ parse_url pf "wss://host.example:7443/api/v1" =
       Some {| url_host := "host.example"; url_port := 7443;
               url_path := "/api/v1"; url_use_ssl := true |}
    /\ parse_url pf "ws://h/" =
       Some {| url_host := "h"; url_port := 80;
               url_path := "/"; url_use_ssl := false |}.
Proof.
  intros pf tls host port path other Hs Hh Hport Hp.
  split; [now apply parse_url_made|].
  split; [apply parse_url_other_scheme|].
  split.
  - change "wss://host.example:7443/api/v1"
      with (make_url true "host.example" (Some "7443") "/api/v1").
    rewrite parse_url_made; try reflexivity; try exact Hs.
    split; [reflexivity | vm_compute; reflexivity].
  - change "ws://h/" with (make_url false "h" None "/").
    rewrite parse_url_made; try reflexivity; try exact Hs.
Qed.

(** The theorem on Linux x86-64 at the first URL of the specification,
    with an [http] URL as the other one. *)
Lemma parse_url_of_parts_witness :
  parse_url linux_x86_64
    (make_url true "host.example" (Some "7443") "/api/v1") =
    (if (256 <=? strlen "host.example")%Z then None
     else Some {| url_host := "host.example";
                  url_port := decimal_value "7443";
                  url_path := if is_empty "/api/v1" then "/"
                              else take 511 "/api/v1";
                  url_use_ssl := true |})
  /\ (String.prefix "ws://" "http://h/" = false ->
      String.prefix "wss://" "http://h/" = false ->
      parse_url linux_x86_64 "http://h/" = None)
  /\ parse_url linux_x86_64 "wss://host.example:7443/api/v1" =
     Some {| url_host := "host.example"; url_port := 7443;
             url_path := "/api/v1"; url_use_ssl := true |}
  /\ parse_url linux_x86_64 "ws://h/" =
     Some {| url_host := "h"; url_port := 80;
             url_path := "/"; url_use_ssl := false |}.
Proof.
  apply (parse_url_of_parts linux_x86_64 true "host.example" (Some "7443")
           "/api/v1" "http://h/").
  - right. reflexivity.
  - reflexivity.
  - split; [reflexivity | vm_compute; reflexivity].
  - reflexivity.
Defined.

(** C9 (as stated) fails.  A [ws://] URL whose host has 256 bytes is
    rejected, and of a path of 601 bytes only the first 511 are kept. *)
Lemma parse_url_has_length_limits :
  String.prefix "ws://" (make_url false (long_host 256) None EmptyString) = true
  /\ parse_url linux_x86_64 (make_url false (long_host 256) None EmptyString)
     = None
  /\ String.length (long_path 600) = 601%nat
  /\ option_map (fun u => String.length (url_path u))
       (parse_url linux_x86_64 (make_url false "h" None (long_path 600)))
     = Some 511%nat.
Proof. vm_compute. repeat split; reflexivity. Qed.

End UrlFacts.

(** ** The transport state machine *)

Section TransportFacts.
Import C Transport.

Lemma sleeps_app (a b : list effect) : sleeps (a ++ b) = sleeps a + sleeps b.
Proof.
  induction a as [|e a IH]; [reflexivity|].
  destruct e; cbn [app sleeps]; lia.
Qed.

Lemma debug_log_sleeps (agent : aivory_agent_t) (line : string) :
  sleeps (debug_log agent line) = 0.
Proof. unfold debug_log. now destruct (agent_debug agent). Qed.

Lemma ws_send_message_sleeps (conn : ws_connection_t) (json : string) :
  sleeps (ws_send_message conn json) = 0.
Proof.
  unfold ws_send_message.
  destruct (negb (wsi conn)); [reflexivity|].
  now destruct (strlen json >? MAX_MESSAGE_SIZE - LWS_PRE).
Qed.

(** Draining the queue writes frames and changes the queue only. *)
Lemma drain_queue_frame (fuel : nat) (conn : ws_connection_t) :
  reconnect_attempts (fst (drain_queue fuel conn)) = reconnect_attempts conn
  /\ state (fst (drain_queue fuel conn)) = state conn
  /\ sleeps (snd (drain_queue fuel conn)) = 0.
Proof.
  revert conn. induction fuel as [|fuel IH]; intros conn.
  - now repeat split.
  - cbn [drain_queue].
    destruct (Queue.queue_pop (queue conn)) as [[queued|] q'].
    + specialize (IH (set_queue conn q')).
      destruct (drain_queue fuel (set_queue conn q')) as [conn'' rest].
      cbn [fst snd] in *. destruct IH as (Ha & Hs & Hz).
      repeat split; [exact Ha | exact Hs |].
      now rewrite sleeps_app, ws_send_message_sleeps, Hz.
    + now repeat split.
Qed.

(** No case of the callback writes [reconnect_attempts], and none
    sleeps. *)
Lemma ws_callback_attempts (pf : platform) (agent : aivory_agent_t) (now : Z)
    (conn : ws_connection_t) (reason : lws_callback_reasons) :
  reconnect_attempts (fst (ws_callback pf agent now conn reason))
    = reconnect_attempts conn
  /\ sleeps (snd (ws_callback pf agent now conn reason)) = 0.
Proof.
  destruct reason as [reg_ok|data msg_ok| |why| |]; cbn [ws_callback].
  - cbn [fst snd]. split; [reflexivity|].
    rewrite sleeps_app, debug_log_sleeps.
    destruct reg_ok; [apply ws_send_message_sleeps | reflexivity].
  - destruct data as [data|]; [|now split].
    destruct ((strlen data >? 0) && msg_ok); [|now split].
    destruct (strstr (cstr data) (js "'registered'")
              || strstr (cstr data) (js "'type':'registered'")).
    + match goal with
      | |- context [drain_queue ?n ?c] =>
          pose proof (drain_queue_frame n c) as (Ha & _ & Hz);
          destruct (drain_queue n c) as [conn' sent]
      end.
      cbn [fst snd] in *. split; [exact Ha|].
      now rewrite sleeps_app, debug_log_sleeps, Hz.
    + destruct (strstr (cstr data) (js "'error'")); [|now split].
      destruct (strstr (cstr data) "auth_error"
                || strstr (cstr data) "invalid_api_key"); now split.
  - destruct (authenticated conn); [|now split].
    destruct (Queue.queue_pop (queue conn)) as [[json|] q']; [|now split].
    cbn [fst snd]. split; [reflexivity|].
    rewrite sleeps_app, ws_send_message_sleeps.
    now destruct (Queue.queue_has_messages _).
  - cbn [fst snd]. split; [reflexivity | apply debug_log_sleeps].
  - cbn [fst snd]. split; [reflexivity | apply debug_log_sleeps].
  - now split.
Qed.

Lemma deliver_attempts (pf : platform) (agent : aivory_agent_t)
    (conn : ws_connection_t) (e : event) :
  reconnect_attempts (fst (deliver pf agent conn e)) = reconnect_attempts conn
  /\ sleeps (snd (deliver pf agent conn e)) = 0.
Proof.
  destruct e as [reason now| |json entry_ok]; cbn [deliver].
  - apply ws_callback_attempts.
  - now split.
  - unfold aivory_ws_send_exception.
    destruct (is_authenticated (state conn) && authenticated conn); cbn [fst snd].
    + split; [reflexivity|].
      rewrite sleeps_app, ws_send_message_sleeps. now destruct (wsi conn).
    + split; [reflexivity | apply debug_log_sleeps].
Qed.

Lemma deliver_all_attempts (pf : platform) (agent : aivory_agent_t)
    (es : list event) (conn : ws_connection_t) :
  reconnect_attempts (fst (deliver_all pf agent conn es)) = reconnect_attempts conn
  /\ sleeps (snd (deliver_all pf agent conn es)) = 0.
Proof.
  revert conn. induction es as [|e es IH]; intros conn.
  - now split.
  - cbn [deliver_all].
    pose proof (deliver_attempts pf agent conn e) as (Ha & Hz).
    destruct (deliver pf agent conn e) as [conn1 eff1]. cbn [fst snd] in *.
    specialize (IH conn1).
    destruct (deliver_all pf agent conn1 es) as [conn2 eff2]. cbn [fst snd] in *.
    destruct IH as (Ha2 & Hz2).
    split; [congruence|]. rewrite sleeps_app. lia.
Qed.

Lemma service_loop_attempts (pf : platform) (agent : aivory_agent_t)
    (rounds : list service_round) (last : Z) (conn : ws_connection_t) :
  reconnect_attempts (fst (fst (service_loop pf agent rounds last conn)))
    = reconnect_attempts conn
  /\ sleeps (snd (fst (service_loop pf agent rounds last conn))) = 0.
Proof.
  revert last conn. induction rounds as [|r rounds IH]; intros last conn.
  - cbn [service_loop]. now destruct (negb (should_stop conn) && _).
  - cbn [service_loop].
    destruct (negb (should_stop conn) && negb (is_disconnected (state conn)));
      [|now split].
    pose proof (deliver_all_attempts pf agent (delivered r) conn) as (Ha & Hz).
    destruct (deliver_all pf agent conn (delivered r)) as [conn1 eff1].
    cbn [fst snd] in *.
    match goal with
    | |- context [service_loop pf agent rounds ?l conn1] =>
        specialize (IH l conn1);
        destruct (service_loop pf agent rounds l conn1) as [[conn2 eff3] fin]
    end.
    cbn [fst snd] in *. destruct IH as (Ha2 & Hz2).
    split; [congruence|].
    rewrite !sleeps_app, Hz, Hz2.
    match goal with
    | |- context [if ?b then ws_send_message ?c ?m else []] =>
        destruct b; [rewrite ws_send_message_sleeps|]; reflexivity
    end.
Qed.

Lemma connect_once_attempts (pf : platform) (agent : aivory_agent_t)
    (cfg : aivory_config_t) (u : url_parts) (a : attempt) (conn : ws_connection_t) :
  reconnect_attempts (fst (fst (connect_once pf agent cfg u a conn)))
    = reconnect_attempts conn
  /\ sleeps (snd (fst (connect_once pf agent cfg u a conn))) = 0.
Proof.
  assert (H0 : sleeps
     ((if debug cfg
       then [Stderr ("[AIVory Monitor] Connecting to " ++ backend_url cfg)]
       else []) ++ [CreateContext (url_use_ssl u)]) = 0)
    by now destruct (debug cfg).
  destruct a as [|during|during start rounds]; cbn [connect_once].
  - cbn [fst snd]. split; [reflexivity|]. now rewrite sleeps_app, H0.
  - pose proof (deliver_all_attempts pf agent during (set_lws_ctx conn true))
      as (Ha & Hz).
    destruct (deliver_all pf agent (set_lws_ctx conn true) during) as [conn1 eff1].
    cbn [fst snd] in *. split; [exact Ha|].
    rewrite sleeps_app, H0. cbn [app sleeps]. rewrite sleeps_app, Hz. reflexivity.
  - pose proof (deliver_all_attempts pf agent during (set_lws_ctx conn true))
      as (Ha & Hz).
    destruct (deliver_all pf agent (set_lws_ctx conn true) during) as [conn1 eff1].
    cbn [fst snd] in *.
    pose proof (service_loop_attempts pf agent rounds start conn1) as (Ha2 & Hz2).
    destruct (service_loop pf agent rounds start conn1) as [[conn2 eff2] fin].
    cbn [fst snd] in *.
    assert (Hs : sleeps
      (((if debug cfg
         then [Stderr ("[AIVory Monitor] Connecting to " ++ backend_url cfg)]
         else []) ++ [CreateContext (url_use_ssl u)])
       ++ [Connect (url_host u) (url_port u) (url_path u) (url_use_ssl u)]
       ++ eff1 ++ eff2) = 0).
    { rewrite sleeps_app, H0. cbn [app sleeps]. rewrite sleeps_app. lia. }
    cbn [set_lws_ctx reconnect_attempts] in Ha.
    destruct fin; [destruct (lws_ctx conn2)|]; cbn [fst snd].
    + split; [cbn [set_lws_ctx reconnect_attempts]; congruence|].
      rewrite sleeps_app, Hs. reflexivity.
    + split; [congruence | exact Hs].
    + split; [congruence | exact Hs].
Qed.

(** A pass through [reconnect:] adds one to the counter, and sleeps only
    while the counter is at most 10. *)
Lemma reconnect_attempts_step (cfg : aivory_config_t) (conn : ws_connection_t) :
  let '(conn', eff, again) := reconnect cfg conn in
  (again = true ->
     reconnect_attempts conn' = reconnect_attempts conn + 1
     /\ reconnect_attempts conn' <= 10 /\ sleeps eff = 1)
  /\ (again = false ->
       reconnect_attempts conn <= reconnect_attempts conn' /\ sleeps eff = 0).
Proof.
  unfold reconnect. destruct (should_stop conn).
  - split; [discriminate|]. intros _. split; [lia | reflexivity].
  - cbn [set_reconnect_attempts reconnect_attempts].
    destruct (Z.gtb_spec (reconnect_attempts conn + 1) 10) as [Hgt|Hle].
    + split; [discriminate|]. intros _.
      cbn [set_reconnect_attempts reconnect_attempts]. split; [lia | reflexivity].
    + split; [|discriminate]. intros _.
      cbn [set_reconnect_attempts reconnect_attempts].
      repeat split; [lia|].
      rewrite sleeps_app. destruct (debug cfg); reflexivity.
Qed.

(** The worker never lowers the counter, and sleeps at most as often as
    the counter has room below 10. *)
Lemma worker_loop_attempts (pf : platform) (agent : aivory_agent_t)
    (cfg : aivory_config_t) (u : url_parts) (fuel : nat) :
  forall (script : list attempt) (conn : ws_connection_t),
    reconnect_attempts conn
      <= reconnect_attempts (fst (fst (worker_loop pf agent cfg u fuel script conn)))
    /\ sleeps (snd (fst (worker_loop pf agent cfg u fuel script conn)))
       <= Z.max 0 (10 - reconnect_attempts conn).
Proof.
  induction fuel as [|fuel IH]; intros script conn.
  - cbn. lia.
  - cbn [worker_loop]. destruct (should_stop conn); [cbn; lia|].
    assert (Step : forall conn1 eff1 script',
      reconnect_attempts conn1 = reconnect_attempts conn -> sleeps eff1 = 0 ->
      let r :=
        match reconnect cfg conn1 with
        | (conn2, eff2, false) => (conn2, eff1 ++ eff2, ThreadReturned)
        | (conn2, eff2, true) =>
            let '(conn3, eff3, st) :=
              worker_loop pf agent cfg u fuel script' conn2 in
            (conn3, eff1 ++ eff2 ++ eff3, st)
        end in
      reconnect_attempts conn <= reconnect_attempts (fst (fst r))
      /\ sleeps (snd (fst r)) <= Z.max 0 (10 - reconnect_attempts conn)).
    { intros conn1 eff1 script' Ha Hz.
      pose proof (reconnect_attempts_step cfg conn1) as Hr.
      destruct (reconnect cfg conn1) as [[conn2 eff2] again].
      destruct Hr as [Hyes Hno]. destruct again; cbv zeta.
      - destruct (Hyes eq_refl) as (E & Hle & Hs1).
        specialize (IH script' conn2).
        destruct (worker_loop pf agent cfg u fuel script' conn2)
          as [[conn3 eff3] st].
        cbn [fst snd] in *. rewrite !sleeps_app. lia.
      - destruct (Hno eq_refl) as (Hle & Hs0).
        cbn [fst snd]. rewrite sleeps_app. lia. }
    destruct (is_disconnected (state conn)).
    + destruct script as [|a script']; [cbn; lia|].
      pose proof (connect_once_attempts pf agent cfg u a conn) as (Ha & Hz).
      destruct (connect_once pf agent cfg u a conn) as [[conn1 eff1] fin].
      cbn [fst snd] in Ha, Hz. destruct fin.
      * apply Step; assumption.
      * cbn [fst snd]. lia.
    + apply (Step conn [] script); reflexivity.
Qed.

(** A reply that contains ["registered"] authenticates. *)
Lemma ws_callback_registered (pf : platform) (agent : aivory_agent_t) (now : Z)
    (conn : ws_connection_t) (data : string) :
  (strlen data >? 0) = true ->
  strstr (cstr data) (js "'registered'") = true ->
  state (fst (ws_callback pf agent now conn
                (LWS_CALLBACK_CLIENT_RECEIVE (Some data) true)))
  = AIVORY_CONN_AUTHENTICATED.
Proof.
  intros Hlen Hreg. cbn [ws_callback]. rewrite Hlen, Hreg. cbn [andb orb].
  match goal with
  | |- context [drain_queue ?n ?c] =>
      pose proof (drain_queue_frame n c) as (_ & Hs & _);
      destruct (drain_queue n c) as [conn' sent]
  end.
  cbn [fst snd] in *. exact Hs.
Qed.

(** Draining pops every record, oldest first, and hands each to
    [ws_send_message]; the connection is otherwise what it was. *)
Lemma drain_queue_all (es : list string) :
  forall (conn : ws_connection_t),
    Queue.entries (queue conn) = es ->
    drain_queue (List.length es) conn
    = (set_queue conn
         {| Queue.entries := [];
            Queue.count := Queue.count (queue conn) - Z.of_nat (List.length es);
            Queue.max_size := Queue.max_size (queue conn) |},
       flat_map (ws_send_message conn) es).
Proof.
  induction es as [|e es IH]; intros conn He.
  - cbn [List.length drain_queue flat_map]. f_equal.
    destruct conn as [st [qe qc qm] ra ss au lc ws].
    cbn [queue Queue.entries] in He. subst qe.
    unfold set_queue.
    cbn [state queue reconnect_attempts should_stop authenticated lws_ctx wsi
         Queue.count Queue.max_size].
    do 2 f_equal. change (Z.of_nat 0) with 0. lia.
  - cbn [List.length drain_queue]. unfold Queue.queue_pop. rewrite He.
    rewrite IH by reflexivity.
    cbn [flat_map]. f_equal.
    unfold set_queue.
    cbn [state queue reconnect_attempts should_stop authenticated lws_ctx wsi
         Queue.count Queue.max_size].
    do 2 f_equal. lia.
Qed.

(** C5 (as amended).  No case of the callback writes the reconnect
    counter: in particular the receipt of a reply that contains
    ["registered"], which moves the state to AUTHENTICATED, leaves the
    counter as it was.  The worker only ever adds to it, one at each pass
    through [reconnect:], so that from a counter of [a] it sleeps before a
    new attempt at most [max 0 (10 - a)] times in its whole life, however
    many authentications there are in between. *)
Theorem reconnect_attempts_is_never_reset :
  forall (pf : platform) (agent : aivory_agent_t) (now : Z)
         (conn : ws_connection_t) (reason : lws_callback_reasons)
         (data : string) (cfg : aivory_config_t) (u : url_parts)
         (fuel : nat) (script : list attempt),
    reconnect_attempts (fst (ws_callback pf agent now conn reason))
      = reconnect_attempts conn
    /\ ((strlen data >? 0) = true ->
        strstr (cstr data) (js "'registered'") = true ->
        let conn' := fst (ws_callback pf agent now conn
                            (LWS_CALLBACK_CLIENT_RECEIVE (Some data) true)) in
        state conn' = AIVORY_CONN_AUTHENTICATED
        /\ reconnect_attempts conn' = reconnect_attempts conn)
    /\ reconnect_attempts conn
         <= reconnect_attempts
              (fst (fst (worker_loop pf agent cfg u fuel script conn)))
    /\ sleeps (snd (fst (worker_loop pf agent cfg u fuel script conn)))
         <= Z.max 0 (10 - reconnect_attempts conn).
Proof.
  intros pf agent now conn reason data cfg u fuel script.
  split; [apply ws_callback_attempts|].
  split.
  - intros Hlen Hreg. split.
    + now apply ws_callback_registered.
    + apply ws_callback_attempts.
  - apply worker_loop_attempts.
Qed.

(** C5 (as stated) fails.  A connection with three attempts behind it is
    authenticated and still has three; and a worker whose every
    connection is authenticated and then closed by the peer returns after
    its eleventh connection, having slept ten times, with the counter at
    11 and "Max reconnect attempts reached". *)
Lemma authentication_keeps_reconnect_attempts :
  let conn :=
    set_reconnect_attempts
      (set_wsi (set_state connection_init AIVORY_CONN_CONNECTED) true) 3 in
  let conn' :=
    fst (ws_callback linux_x86_64 example_agent 0 conn
           (LWS_CALLBACK_CLIENT_RECEIVE (Some registered_reply) true)) in
  let run :=
    ws_thread_func linux_x86_64 example_agent 20
      (repeat authenticated_session 11) connection_init in
  state conn' = AIVORY_CONN_AUTHENTICATED
  /\ reconnect_attempts conn' = 3
  /\ snd run = ThreadReturned
  /\ reconnect_attempts (fst (fst run)) = 11
  /\ printed "[AIVory Monitor] Agent registered" (snd (fst run)) = 11
  /\ sleeps (snd (fst run)) = 10
  /\ printed "[AIVory Monitor] Max reconnect attempts reached" (snd (fst run)) = 1.
Proof. vm_compute. repeat split; reflexivity. Qed.

(** X1.  A reply that contains ["registered"] moves the connection to
    AUTHENTICATED and drains the queue: the records queued while the agent
    was not authenticated are handed to [ws_send_message] oldest first, and
    the queue is empty afterwards. *)
Theorem registered_reply_drains_queue :
  forall (pf : platform) (agent : aivory_agent_t) (now : Z)
         (conn : ws_connection_t) (data : string),
    (strlen data >? 0) = true ->
    strstr (cstr data) (js "'registered'") = true ->
    ws_callback pf agent now conn (LWS_CALLBACK_CLIENT_RECEIVE (Some data) true)
    = (set_queue
         (set_state (set_authenticated conn true) AIVORY_CONN_AUTHENTICATED)
         {| Queue.entries := [];
            Queue.count := Queue.count (queue conn)
                           - Z.of_nat (List.length (Queue.entries (queue conn)));
            Queue.max_size := Queue.max_size (queue conn) |},
       debug_log agent "[AIVory Monitor] Agent registered"
       ++ flat_map (ws_send_message conn) (Queue.entries (queue conn))).
Proof.
  intros pf agent now conn data Hlen Hreg.
  cbn [ws_callback]. rewrite Hlen, Hreg. cbn [andb orb].
  rewrite (drain_queue_all (Queue.entries (queue conn))) by reflexivity.
  reflexivity.
Qed.

(** The theorem on a connection with the records A and B in its queue. *)
Lemma registered_reply_drains_queue_witness :
  ws_callback linux_x86_64 example_agent 0 waiting_connection
    (LWS_CALLBACK_CLIENT_RECEIVE (Some registered_reply) true)
  = (set_queue
       (set_state (set_authenticated waiting_connection true)
          AIVORY_CONN_AUTHENTICATED)
       {| Queue.entries := [];
          Queue.count := Queue.count (queue waiting_connection)
                         - Z.of_nat (List.length
                                       (Queue.entries (queue waiting_connection)));
          Queue.max_size := Queue.max_size (queue waiting_connection) |},
     debug_log example_agent "[AIVory Monitor] Agent registered"
     ++ flat_map (ws_send_message waiting_connection)
          (Queue.entries (queue waiting_connection))).
Proof.
  apply (registered_reply_drains_queue linux_x86_64 example_agent 0
           waiting_connection registered_reply); reflexivity.
Defined.

End TransportFacts.

(** ** The signal handler *)

Section SignalFacts.
Import C Signal.

(** The cases of the work of the handler: no report; the fault; a record
    that fits, and is sent; a record that does not fit. *)
Ltac handler_cases :=
  unfold handler_work;
  destruct (g_agent_ref _ && initialized _);
  [destruct (negb (env_gmtime_fits _));
   [|match goal with
     | |- context [(snprintf_result ?j >? 0) && (snprintf_result ?j <? 8192)] =>
         destruct ((snprintf_result j >? 0) && (snprintf_result j <? 8192));
         [match goal with
          | |- context [Transport.aivory_ws_send_exception ?a ?o ?c ?k] =>
              let Hs := fresh "Hsend" in
              destruct (Transport.aivory_ws_send_exception a o c k)
                as [? ?] eqn:Hs
          end|]
     end]
  |].

(** The work of the handler never touches the flag. *)
Lemma handler_work_keeps_flag (pf : platform) (agent : aivory_agent_t)
    (env : handler_env) (sig : Z) (si_addr : option Z) (s : signal_state)
    (g : option Transport.ws_connection_t) :
  g_handling_signal (fst (fst (fst (handler_work pf agent env sig si_addr s g))))
  = g_handling_signal s.
Proof.
  handler_cases; try reflexivity;
    destruct (original_of (g_original s) sig) as [[| |id|]|]; reflexivity.
Qed.

(** The work ends with a return or with the fault, never with an exit. *)
Lemma handler_work_ends (pf : platform) (agent : aivory_agent_t)
    (env : handler_env) (sig : Z) (si_addr : option Z) (s : signal_state)
    (g : option Transport.ws_connection_t) :
  snd (handler_work pf agent env sig si_addr s g) = HandlerReturned
  \/ snd (handler_work pf agent env sig si_addr s g) = HandlerFaulted.
Proof.
  handler_cases; try (now right);
    destruct (original_of (g_original s) sig) as [[| |id|]|]; now left.
Qed.

Lemma send_exception_no_store (agent : aivory_agent_t) (ok : bool)
    (g : option Transport.ws_connection_t) (json : option string) (v : Z) :
  ~ In (HandlingSignal v) (snd (Transport.aivory_ws_send_exception agent ok g json)).
Proof.
  unfold Transport.aivory_ws_send_exception.
  destruct g as [conn|]; [|intros []]. destruct json as [json|]; [|intros []].
  destruct (Transport.is_authenticated (Transport.state conn)
            && Transport.authenticated conn); cbn [snd].
  - unfold Transport.ws_send_message.
    destruct (Transport.wsi conn); cbn [negb app];
      [|intros []].
    destruct (strlen json >? Transport.MAX_MESSAGE_SIZE - Transport.LWS_PRE);
      cbn; intuition discriminate.
  - unfold Transport.debug_log. destruct (agent_debug agent); cbn;
      intuition discriminate.
Qed.

(** The work of the handler does not store the flag. *)
Lemma handler_work_no_store (pf : platform) (agent : aivory_agent_t)
    (env : handler_env) (sig : Z) (si_addr : option Z) (s : signal_state)
    (g : option Transport.ws_connection_t) (v : Z) :
  ~ In (HandlingSignal v)
       (snd (fst (handler_work pf agent env sig si_addr s g))).
Proof.
  handler_cases;
    try (destruct (original_of (g_original s) sig) as [[| |id|]|]);
    cbn [fst snd app]; try (cbn; intuition discriminate);
    match goal with
    | Hsend : Transport.aivory_ws_send_exception ?a ?o ?c ?k = (_, ?sent) |- _ =>
        pose proof (send_exception_no_store a o c k v) as Hno;
        rewrite Hsend in Hno; cbn [snd] in Hno
    end;
    intros H; destruct H as [H|H]; try discriminate H;
    rewrite <- app_assoc in H; apply in_app_or in H;
    (destruct H as [H|H]; [now apply Hno|]);
    cbn in H; intuition discriminate.
Qed.

(** With the flag set the handler does nothing but exit. *)
Lemma signal_handler_reentered (pf : platform) (agent : aivory_agent_t)
    (env : handler_env) (sig : Z) (si_addr : option Z) (s : signal_state)
    (g : option Transport.ws_connection_t) :
  g_handling_signal s <> 0 ->
  signal_handler pf agent env sig si_addr s g = (s, g, [], Exited (128 + sig)).
Proof.
  intros H. unfold signal_handler.
  destruct (Z.eqb_spec (g_handling_signal s) 0) as [E|_]; [contradiction|].
  reflexivity.
Qed.

(** C7.  Entered with the flag set, the handler ends the process with
    [_exit(128 + sig)]: it does nothing to the outside and leaves the state
    and the connection as they were.  Entered with the flag clear, the
    first thing it does is to store 1 in the flag, the only store of the
    flag it makes; it then returns or faults, and does not exit; the flag
    is 1 in the state it reaches either way; and so an entry from that
    state, for any signal, exits with 128 plus that signal and does
    nothing else. *)
Theorem signal_handler_reentry_guard :
  forall (pf : platform) (agent : aivory_agent_t) (env env' : handler_env)
         (sig sig' : Z) (si_addr si_addr' : option Z) (s : signal_state)
         (g : option Transport.ws_connection_t),
    (g_handling_signal s <> 0 ->
       signal_handler pf agent env sig si_addr s g
       = (s, g, [], Exited (128 + sig)))
    /\ (g_handling_signal s = 0 ->
        let r := signal_handler pf agent env sig si_addr s g in
        let s' := fst (fst (fst r)) in
        let g' := snd (fst (fst r)) in
        (exists work : list effect,
           snd (fst r) = HandlingSignal 1 :: work
           /\ forall v : Z, ~ In (HandlingSignal v) work)
        /\ (snd r = HandlerReturned \/ snd r = HandlerFaulted)
        /\ g_handling_signal s' = 1
        /\ signal_handler pf agent env' sig' si_addr' s' g'
           = (s', g', [], Exited (128 + sig'))).
Proof.
  intros pf agent env env' sig sig' si_addr si_addr' s g. split.
  - apply signal_handler_reentered.
  - intros H0 r s' g'.
    assert (Hr : r = (let w := handler_work pf agent env sig si_addr
                                  (set_handling s) g in
                      (fst (fst (fst w)), snd (fst (fst w)),
                       HandlingSignal 1 :: snd (fst w), snd w))).
    { subst r. unfold signal_handler. rewrite H0. cbn [Z.eqb negb].
      now destruct (handler_work pf agent env sig si_addr (set_handling s) g)
        as [[[s1 g1] eff] how]. }
    assert (Hflag : g_handling_signal s' = 1).
    { subst s'. rewrite Hr. cbn [fst snd].
      now rewrite handler_work_keeps_flag. }
    split; [|split; [|split]].
    + rewrite Hr. cbn [fst snd]. eexists. split; [reflexivity|].
      intros v. apply handler_work_no_store.
    + rewrite Hr. cbn [fst snd]. apply handler_work_ends.
    + exact Hflag.
    + apply signal_handler_reentered. rewrite Hflag. discriminate.
Qed.

End SignalFacts.

(** ** The agent: sampling, initialisation and the report builder *)

Section AgentFacts.
Import C Agent.

(** Comparisons with a NaN are false. *)
Lemma compare_nan (r x : float) :
  Prim2SF r = S754_nan ->
  (1 <=? r)%float = false /\ (r <=? 0)%float = false /\ (x <? r)%float = false.
Proof.
  intros Hr.
  rewrite !FloatAxioms.leb_spec, FloatAxioms.ltb_spec, Hr.
  unfold SFleb, SFltb, SFcompare.
  repeat split; try reflexivity.
  now destruct (Prim2SF x) as [[|]|[|]| |[|] m e].
Qed.

(** The order of a positive finite float and 1.0, read from either
    side. *)
Lemma compare_one_swap (m : positive) (e : Z) :
  match
    match -52 ?= e with
    | Eq => Pos.compare_cont Eq 4503599627370496 m
    | Lt => Lt
    | Gt => Gt
    end
  with
  | Gt => false
  | _ => true
  end = false <->
  match
    match e ?= -52 with
    | Eq => Pos.compare_cont Eq m 4503599627370496
    | Lt => Lt
    | Gt => Gt
    end
  with
  | Lt => true
  | _ => false
  end = true.
Proof.
  rewrite (Z.compare_antisym e (-52)).
  change (Pos.compare_cont Eq 4503599627370496 m)
    with (Pos.compare_cont (CompOpp Eq) 4503599627370496 m).
  rewrite <- (Pos.compare_cont_antisym m 4503599627370496 Eq).
  destruct (e ?= -52); cbn [CompOpp];
    [destruct (Pos.compare_cont Eq m 4503599627370496); cbn [CompOpp]| |];
    split; intros H; try discriminate; reflexivity.
Qed.

(** A rate that passes neither guard is strictly between 0 and 1, or a
    NaN. *)
Lemma guards_between (r : float) :
  (1 <=? r)%float = false -> (r <=? 0)%float = false ->
  ((0 <? r)%float = true /\ (r <? 1)%float = true) \/ Prim2SF r = S754_nan.
Proof.
  rewrite !FloatAxioms.leb_spec, !FloatAxioms.ltb_spec.
  change (Prim2SF 1) with (S754_finite false 4503599627370496 (-52)).
  change (Prim2SF 0) with (S754_zero false).
  unfold SFleb, SFltb, SFcompare.
  destruct (Prim2SF r) as [[|]|[|]| |[|] m e]; try discriminate.
  - intros _ _. right. reflexivity.
  - intros H1 _. left. split; [reflexivity|]. now apply compare_one_swap.
Qed.

(** A rate strictly between 0 and 1 passes neither guard. *)
Lemma between_guards (r : float) :
  (0 <? r)%float = true -> (r <? 1)%float = true ->
  (1 <=? r)%float = false /\ (r <=? 0)%float = false.
Proof.
  rewrite !FloatAxioms.leb_spec, !FloatAxioms.ltb_spec.
  change (Prim2SF 1) with (S754_finite false 4503599627370496 (-52)).
  change (Prim2SF 0) with (S754_zero false).
  unfold SFleb, SFltb, SFcompare.
  destruct (Prim2SF r) as [[|]|[|]| |[|] m e]; try discriminate.
  intros _ H1. split; [|reflexivity]. now apply compare_one_swap.
Qed.

(** No rate is both at least 1 and at most 0. *)
Lemma guards_exclusive (r : float) :
  (r <=? 0)%float = true -> (1 <=? r)%float = false.
Proof.
  rewrite !FloatAxioms.leb_spec.
  change (Prim2SF 1) with (S754_finite false 4503599627370496 (-52)).
  change (Prim2SF 0) with (S754_zero false).
  unfold SFleb, SFcompare.
  destruct (Prim2SF r) as [[|]|[|]| |[|] m e]; try discriminate; reflexivity.
Qed.

(** C8 (as amended).  When the rate is at least 1.0 the result is true,
    and when it is at most 0.0 the result is false, the generator being
    left alone in both cases.  When the rate is strictly between 0 and 1
    one draw is taken, and the result is whether the draw over [RAND_MAX]
    is below the rate.  When the rate is a NaN one draw is taken too, and
    the result is false.  Every rate is in one of these four cases. *)
Theorem should_sample_guards :
  forall (cfg : aivory_config_t) (draws : list Z),
    ((1 <=? sampling_rate cfg)%float = true ->
       aivory_should_sample cfg draws = (true, draws))
    /\ ((sampling_rate cfg <=? 0)%float = true ->
        aivory_should_sample cfg draws = (false, draws))
    /\ ((0 <? sampling_rate cfg)%float = true ->
        (sampling_rate cfg <? 1)%float = true ->
        aivory_should_sample cfg draws
        = ((double_of_int (fst (rand draws)) / double_of_int RAND_MAX
            <? sampling_rate cfg)%float,
           snd (rand draws)))
    /\ (Prim2SF (sampling_rate cfg) = S754_nan ->
        aivory_should_sample cfg draws = (false, snd (rand draws)))
    /\ ((1 <=? sampling_rate cfg)%float = true
        \/ (sampling_rate cfg <=? 0)%float = true
        \/ ((0 <? sampling_rate cfg)%float = true
            /\ (sampling_rate cfg <? 1)%float = true)
        \/ Prim2SF (sampling_rate cfg) = S754_nan).
Proof.
  intros cfg draws. unfold aivory_should_sample.
  split; [now intros ->|].
  split.
  { intros Hle. now rewrite (guards_exclusive _ Hle), Hle. }
  split.
  { intros H0 H1. destruct (between_guards _ H0 H1) as [-> ->].
    now destruct (rand draws). }
  split.
  { intros Hnan.
    destruct (compare_nan (sampling_rate cfg)
                (double_of_int (fst (rand draws)) / double_of_int RAND_MAX) Hnan)
      as (-> & -> & Hlt).
    destruct (rand draws) as [r rest]. cbn [fst snd] in *. now rewrite Hlt. }
  destruct (1 <=? sampling_rate cfg)%float eqn:E1; [now left|].
  destruct (sampling_rate cfg <=? 0)%float eqn:E0; [now right; left|].
  right. right. now apply guards_between.
Qed.

(** C8 (as stated) fails.  A NaN rate is not strictly between 0 and 1,
    and yet a draw is taken for it (the result is false). *)
Lemma should_sample_draws_for_nan :
  let cfg := with_sampling_rate nan example_config in
  (0 <? sampling_rate cfg)%float = false
  /\ (sampling_rate cfg <? 1)%float = false
  /\ aivory_should_sample cfg [7; 8; 9] = (false, [8; 9]).
Proof. vm_compute. repeat split; reflexivity. Qed.

(** A first [aivory_init] that returns 0 leaves the agent initialised. *)
Lemma aivory_init_success (env : init_env) (cfg : option aivory_config_t)
    (w : world) :
  fst (fst (aivory_init env cfg w)) = 0 ->
  initialized (g_agent (snd (fst (aivory_init env cfg w)))) = true.
Proof.
  unfold aivory_init.
  destruct (initialized (g_agent w)); [discriminate|].
  destruct cfg as [c|]; [|discriminate].
  destruct (api_key c) as [key|]; [|discriminate].
  destruct (key_is_empty key); [discriminate|].
  destruct (capture_signals c);
    match goal with
    | |- context [Transport.aivory_ws_connect ?a ?b ?g ?ag] =>
        destruct (Transport.aivory_ws_connect a b g ag) as [[[rc conn] a2] eff2]
    end;
    try match goal with
    | |- context [Signal.aivory_install_signal_handlers ?a ?s] =>
        destruct (Signal.aivory_install_signal_handlers a s) as [sigs eff1]
    end; reflexivity.
Qed.

(** C10.  On an agent that is initialised, [aivory_init] returns -1 and
    the whole state (the agent with its configuration and identity, the
    connection, the signal handlers) is what it was; the only effect is a
    line on stderr.  An agent is initialised once [aivory_init] has
    returned 0. *)
Theorem aivory_init_when_initialized :
  forall (env : init_env) (cfg : option aivory_config_t) (w : world),
    initialized (g_agent w) = true ->
    aivory_init env cfg w
    = (-1, w, [Stderr "[AIVory Monitor] Agent already initialized"])
    /\ (forall (env0 : init_env) (cfg0 : option aivory_config_t) (w0 : world),
          fst (fst (aivory_init env0 cfg0 w0)) = 0 ->
          aivory_init env cfg (snd (fst (aivory_init env0 cfg0 w0)))
          = (-1, snd (fst (aivory_init env0 cfg0 w0)),
             [Stderr "[AIVory Monitor] Agent already initialized"])).
Proof.
  intros env cfg w Hinit.
  assert (G : forall w', initialized (g_agent w') = true ->
    aivory_init env cfg w'
    = (-1, w', [Stderr "[AIVory Monitor] Agent already initialized"])).
  { intros w' H. unfold aivory_init. now rewrite H. }
  split; [now apply G|].
  intros env0 cfg0 w0 H0. apply G. now apply aivory_init_success.
Qed.

(** The theorem on the world a first initialisation leaves, for a second
    one with another backend URL. *)
Lemma aivory_init_when_initialized_witness :
  aivory_init example_init_env
    (Some (with_backend_url "wss://other.example/" example_config)) example_world
  = (-1, example_world, [Stderr "[AIVory Monitor] Agent already initialized"])
  /\ (forall (env0 : init_env) (cfg0 : option aivory_config_t) (w0 : world),
        fst (fst (aivory_init env0 cfg0 w0)) = 0 ->
        aivory_init example_init_env
          (Some (with_backend_url "wss://other.example/" example_config))
          (snd (fst (aivory_init env0 cfg0 w0)))
        = (-1, snd (fst (aivory_init env0 cfg0 w0)),
           [Stderr "[AIVory Monitor] Agent already initialized"])).
Proof.
  apply (aivory_init_when_initialized example_init_env
           (Some (with_backend_url "wss://other.example/" example_config))
           example_world).
  reflexivity.
Defined.

(** [aivory_init] with a key that is not empty, on an agent that is not
    initialised. *)
Lemma aivory_init_with_key (env : init_env) (c : aivory_config_t) (key : string)
    (w : world) :
  initialized (g_agent w) = false ->
  api_key c = Some key -> key_is_empty key = false ->
  let r := aivory_init env (Some c) w in
  fst (fst r) = 0
  /\ initialized (g_agent (snd (fst r))) = true
  /\ config (g_agent (snd (fst r))) = Some c
  /\ agent_id (g_agent (snd (fst r))) = new_agent_id env
  /\ hostname (g_agent (snd (fst r))) = new_hostname env
  /\ (g_connection w = None -> conn_ok env = true -> thread_ok env = true ->
      g_connection (snd (fst r)) = Some Transport.connection_init
      /\ List.In PthreadCreate (snd r)).
Proof.
  intros Hinit Hkey Hne. unfold aivory_init. rewrite Hinit, Hkey, Hne.
  unfold Transport.aivory_ws_connect.
  destruct (g_connection w) as [conn|] eqn:Hg.
  - destruct (capture_signals c); cbn; repeat split; discriminate.
  - destruct (conn_ok env), (thread_ok env), (capture_signals c); cbn;
      repeat split; try discriminate; intros;
      rewrite ?in_app_iff; cbn; tauto.
Qed.

(** C4 (as amended).  On an agent that is not initialised: with no
    configuration, no API key or an empty one, [aivory_init] returns -1,
    prints one line and leaves the state as it was, nothing allocated.  With
    a key it returns 0, whatever the backend URL: the configuration is
    copied, the identity set, and the connection and its worker thread
    created when their allocations succeed.  A URL that [parse_url] rejects
    is found by the worker thread, which prints "Invalid backend URL" and
    returns without touching the connection. *)
Theorem aivory_init_configuration_errors :
  forall (pf : platform) (env : init_env) (c : aivory_config_t) (key : string)
         (w : world) (fuel : nat) (script : list Transport.attempt)
         (conn : Transport.ws_connection_t),
    initialized (g_agent w) = false ->
    aivory_init env None w
      = (-1, w, [Stderr "[AIVory Monitor] API key is required"])
    /\ (api_key c = None \/ api_key c = Some EmptyString ->
        aivory_init env (Some c) w
        = (-1, w, [Stderr "[AIVory Monitor] API key is required"]))
    /\ (api_key c = Some key -> key_is_empty key = false ->
        let r := aivory_init env (Some c) w in
        fst (fst r) = 0
        /\ initialized (g_agent (snd (fst r))) = true
        /\ config (g_agent (snd (fst r))) = Some c
        /\ agent_id (g_agent (snd (fst r))) = new_agent_id env
        /\ hostname (g_agent (snd (fst r))) = new_hostname env
        /\ (g_connection w = None -> conn_ok env = true -> thread_ok env = true ->
            g_connection (snd (fst r)) = Some Transport.connection_init
            /\ List.In PthreadCreate (snd r))
        /\ (Transport.parse_url pf (backend_url c) = None ->
            Transport.ws_thread_func pf (g_agent (snd (fst r))) fuel script conn
            = (conn, [Stderr "[AIVory Monitor] Invalid backend URL"],
               Transport.ThreadReturned))).
Proof.
  intros pf env c key w fuel script conn Hinit.
  split; [unfold aivory_init; now rewrite Hinit|].
  split.
  - intros [Hk | Hk]; unfold aivory_init; now rewrite Hinit, Hk.
  - intros Hkey Hne r.
    destruct (aivory_init_with_key env c key w Hinit Hkey Hne)
      as (H0 & H1 & H2 & H3 & H4 & H5).
    fold r in H0, H1, H2, H3, H4, H5.
    repeat split; try assumption; try (now apply H5).
    intros Hurl. unfold Transport.ws_thread_func. now rewrite H2, Hurl.
Qed.

(** The theorem on the zeroed agent, for the example configuration with
    an [http] URL. *)
Lemma aivory_init_configuration_errors_witness :
  let w := world_zero Signal.all_default in
  let c := with_backend_url "http://collector.example/agent" example_config in
  aivory_init example_init_env None w
    = (-1, w, [Stderr "[AIVory Monitor] API key is required"])
  /\ (api_key c = None \/ api_key c = Some EmptyString ->
      aivory_init example_init_env (Some c) w
      = (-1, w, [Stderr "[AIVory Monitor] API key is required"]))
  /\ (api_key c = Some "test-key-123"%string ->
      key_is_empty "test-key-123" = false ->
      let r := aivory_init example_init_env (Some c) w in
      fst (fst r) = 0
      /\ initialized (g_agent (snd (fst r))) = true
      /\ config (g_agent (snd (fst r))) = Some c
      /\ agent_id (g_agent (snd (fst r))) = new_agent_id example_init_env
      /\ hostname (g_agent (snd (fst r))) = new_hostname example_init_env
      /\ (g_connection w = None -> conn_ok example_init_env = true ->
          thread_ok example_init_env = true ->
          g_connection (snd (fst r)) = Some Transport.connection_init
          /\ List.In PthreadCreate (snd r))
      /\ (Transport.parse_url linux_x86_64 (backend_url c) = None ->
          Transport.ws_thread_func linux_x86_64 (g_agent (snd (fst r))) 20 []
            Transport.connection_init
          = (Transport.connection_init,
             [Stderr "[AIVory Monitor] Invalid backend URL"],
             Transport.ThreadReturned))).
Proof.
  apply (aivory_init_configuration_errors linux_x86_64 example_init_env
           (with_backend_url "http://collector.example/agent" example_config)
           "test-key-123" (world_zero Signal.all_default) 20 []
           Transport.connection_init).
  reflexivity.
Defined.

(** C4 (as stated) fails.  With a key and a backend URL whose scheme is
    [http], [aivory_init] returns 0 and leaves the agent initialised, with
    its identity and its connection allocated and the worker thread
    started; the thread then prints "Invalid backend URL" and returns. *)
Lemma aivory_init_accepts_malformed_url :
  let c := with_backend_url "http://collector.example/agent" example_config in
  let r := aivory_init example_init_env (Some c) (world_zero Signal.all_default) in
  String.prefix "ws://" (backend_url c) = false
  /\ String.prefix "wss://" (backend_url c) = false
  /\ fst (fst r) = 0
  /\ initialized (g_agent (snd (fst r))) = true
  /\ agent_id (g_agent (snd (fst r))) = Some "agent-65000000-0000002a"%string
  /\ g_connection (snd (fst r)) = Some Transport.connection_init
  /\ snd r
     = [Sigaction Signal.SIGSEGV; Sigaction Signal.SIGABRT;
        Sigaction Signal.SIGFPE; Sigaction Signal.SIGBUS;
        Sigaction Signal.SIGILL;
        Stderr "[AIVory Monitor] Signal handlers installed";
        PthreadCreate;
        Stdout "[AIVory Monitor] Agent v1.0.0 initialized";
        Stdout "[AIVory Monitor] Environment: development"]
  /\ Transport.ws_thread_func linux_x86_64 (g_agent (snd (fst r))) 20 []
       Transport.connection_init
     = (Transport.connection_init,
        [Stderr "[AIVory Monitor] Invalid backend URL"],
        Transport.ThreadReturned).
Proof. vm_compute. repeat split; reflexivity. Qed.

Lemma with_max_string_length_same (pf : platform) (env : capture_env)
    (message file : option string) (line : Z) (context_json : option string)
    (w : world) (draws : list Z) (n : Z) :
  aivory_capture_error_with_context pf env message file line context_json
    (with_max_string_length n w) draws
  = aivory_capture_error_with_context pf env message file line context_json
      w draws.
Proof.
  destruct w as [[cfg id host ctx user conn init connd] g s].
  destruct cfg as [[key url e rate d1 d2 d3 dbg cs]|]; reflexivity.
Qed.

(** What a sampled report of an initialised agent ships. *)
Lemma capture_shipped (pf : platform) (env : capture_env)
    (message file : option string) (line : Z) (context_json : option string)
    (w : world) (draws : list Z) (cfg : aivory_config_t) :
  initialized (g_agent w) = true ->
  config (g_agent w) = Some cfg ->
  fst (aivory_should_sample cfg draws) = true ->
  env_json_ok env = true ->
  snd (aivory_capture_error_with_context pf env message file line context_json
         w draws)
  = if strlen (exception_record pf (g_agent w) message file context_json
                 (Backtrace.aivory_calculate_fingerprint pf
                    (env_fingerprint_ok env) (Some "Error"%string)
                    (env_backtrace env))
                 (env_backtrace env) (env_timestamp env) (env_now env))
       <? 65536
    then Some (exception_record pf (g_agent w) message file context_json
                 (Backtrace.aivory_calculate_fingerprint pf
                    (env_fingerprint_ok env) (Some "Error"%string)
                    (env_backtrace env))
                 (env_backtrace env) (env_timestamp env) (env_now env))
    else None.
Proof.
  intros Hinit Hcfg Hs Hjson. unfold aivory_capture_error_with_context.
  rewrite Hinit, Hcfg.
  destruct (aivory_should_sample cfg draws) as [sampled draws'].
  cbn [fst] in Hs. subst sampled. rewrite Hjson. cbn [negb].
  set (record := exception_record _ _ _ _ _ _ _ _ _).
  assert (Hpos : 0 < strlen record).
  { subst record. unfold exception_record, strlen. cbn. lia. }
  unfold snprintf_result.
  destruct (Z.ltb_spec (strlen record) 65536) as [Hlt|Hge].
  - replace (strlen record <? 2 ^ 31) with true by lia.
    replace (strlen record >? 0) with true by lia.
    replace (strlen record <? 65536) with true by lia.
    cbn [andb].
    destruct (Transport.aivory_ws_send_exception _ _ _ _). reflexivity.
  - destruct (strlen record <? 2 ^ 31); [|reflexivity].
    replace (strlen record <? 65536) with false by lia.
    rewrite andb_false_r. reflexivity.
Qed.

(** Shows that a shipped record is [before], the value [v] of the goal
    and a text that does not depend on it. *)
Ltac embedded_after before :=
  exists before; eexists; intros v;
  match goal with
  | Hinit : initialized _ = true, Hcfg : config _ = Some _,
    Hs : fst (aivory_should_sample _ _) = true, Hjson : env_json_ok _ = true
    |- _ =>
      rewrite (capture_shipped _ _ _ _ _ _ _ _ _ Hinit Hcfg Hs Hjson)
  end;
  repeat match goal with x := _ |- _ => subst x end;
  unfold exception_record; cbv beta iota; rewrite ?append_assoc; reflexivity.

(** C3 (as amended).  For an initialised agent that samples the error
    and gets its buffer, the record handed to the transport is the
    formatted record when that is shorter than 65536 bytes, and none
    otherwise.  In the formatted record each string field stands whole
    between two texts that do not depend on it, whatever its length: the
    message, the file name, the context, the capture time, the
    environment, the agent identifier (twice) and the stack trace (after
    its fingerprint).  The configured maximum string length changes
    nothing of what the call does. *)
Theorem capture_error_embeds_fields_whole :
  forall (pf : platform) (env : capture_env) (line : Z) (w : world)
         (draws : list Z) (cfg : aivory_config_t),
    initialized (g_agent w) = true ->
    config (g_agent w) = Some cfg ->
    fst (aivory_should_sample cfg draws) = true ->
    env_json_ok env = true ->
    let shipped (env : capture_env) (w : world)
                (message file context_json : option string) :=
      snd (aivory_capture_error_with_context pf env message file line
             context_json w draws) in
    let whole (before value after : string) :=
      if strlen (before ++ value ++ after)%string <? 65536
      then Some (before ++ value ++ after)%string
      else None in
    (forall file context_json : option string,
       exists before after : string,
         forall v : string,
           shipped env w (Some v) file context_json = whole before v after)
    /\ (forall message context_json : option string,
          exists before after : string,
            forall v : string,
              shipped env w message (Some v) context_json
              = whole before v after)
    /\ (forall message file : option string,
          exists before after : string,
            forall v : string,
              shipped env w message file (Some v) = whole before v after)
    /\ (forall message file context_json : option string,
          exists before after : string,
            forall v : string,
              shipped (with_timestamp v env) w message file context_json
              = whole before v after)
    /\ (forall message file context_json : option string,
          exists before after : string,
            forall v : string,
              shipped env (with_environment v w) message file context_json
              = whole before v after)
    /\ (forall message file context_json : option string,
          exists before between after : string,
            forall v : string,
              shipped env (with_agent_id v w) message file context_json
              = whole before (v ++ between ++ v)%string after)
    /\ (forall message file context_json : option string,
          exists before between after : string,
            forall v : string,
              shipped (with_backtrace v env) w message file context_json
              = whole
                  (before
                   ++ Backtrace.opt_string
                        (Backtrace.aivory_calculate_fingerprint pf
                           (env_fingerprint_ok env) (Some "Error"%string)
                           (Some v))
                   ++ between)%string
                  v after)
    /\ (forall (n : Z) (message file context_json : option string),
          aivory_capture_error_with_context pf env message file line
            context_json (with_max_string_length n w) draws
          = aivory_capture_error_with_context pf env message file line
              context_json w draws).
Proof.
  intros pf env line w draws cfg Hinit Hcfg Hs Hjson shipped whole.
  subst shipped whole. cbv beta.
  pose (fingerprint :=
         Backtrace.aivory_calculate_fingerprint pf (env_fingerprint_ok env)
           (Some "Error"%string) (env_backtrace env)).
  pose (stack := match env_backtrace env with
                 | Some b => b
                 | None => "[]"%string
                 end).
  pose (id := fmt_s (agent_id (g_agent w))).
  pose (to_message :=
         (js "{" ++ js "'type':'exception'," ++ js "'payload':{"
          ++ js "'id':'" ++ id ++ js "',"
          ++ js "'exception_type':'Error'," ++ js "'message':'")%string).
  pose (to_stack := fun (m : option string) =>
         (to_message ++ match m with Some m => m | None => EmptyString end
          ++ js "'," ++ js "'fingerprint':'"
          ++ match fingerprint with Some f => f | None => EmptyString end
          ++ js "'," ++ js "'stack_trace':")%string).
  pose (to_file := fun (m : option string) =>
         (to_stack m ++ stack ++ "," ++ js "'local_variables':{},"
          ++ js "'context':{")%string).
  pose (file_part := fun (f : option string) =>
         (match f with Some _ => js "'file':'" | None => EmptyString end
          ++ match f with Some f => f | None => EmptyString end
          ++ match f with Some _ => js "'," | None => EmptyString end)%string).
  pose (to_time := fun (m f c : option string) =>
         (to_file m ++ file_part f
          ++ match c with Some c => c | None => EmptyString end
          ++ "}," ++ js "'captured_at':'")%string).
  split; [|split; [|split; [|split; [|split; [|split; [|split]]]]]].
  - intros file context_json. subst fingerprint stack id.
    embedded_after to_message.
  - intros message context_json. subst fingerprint stack id.
    embedded_after (to_file message ++ js "'file':'")%string.
  - intros message file. subst fingerprint stack id.
    embedded_after (to_file message ++ file_part file)%string.
  - intros message file context_json. subst fingerprint stack id.
    exists (to_time message file context_json). eexists. intros v.
    rewrite (capture_shipped pf (with_timestamp v env) message file line
               context_json w draws cfg Hinit Hcfg Hs Hjson).
    unfold exception_record. cbn [with_timestamp env_timestamp env_backtrace
                                    env_fingerprint_ok env_now].
    repeat match goal with x := _ |- _ => subst x end.
    cbv beta iota. rewrite ?append_assoc. reflexivity.
  - intros message file context_json. subst fingerprint stack id.
    exists (to_time message file context_json
            ++ env_timestamp env ++ js "'," ++ js "'agent_id':'"
            ++ fmt_s (agent_id (g_agent w))
            ++ js "'," ++ js "'environment':'")%string.
    eexists. intros v.
    assert (Hc' : config (g_agent (with_environment v w))
                  = Some (config_with_environment v cfg)).
    { cbn [with_environment g_agent config]. now rewrite Hcfg. }
    rewrite (capture_shipped pf env message file line context_json
               (with_environment v w) draws (config_with_environment v cfg)
               Hinit Hc' Hs Hjson).
    unfold exception_record. rewrite Hc'.
    cbn [with_environment g_agent agent_id config_with_environment
           environment fmt_s].
    repeat match goal with x := _ |- _ => subst x end.
    cbv beta iota. rewrite ?append_assoc. reflexivity.
  - intros message file context_json.
    exists (js "{" ++ js "'type':'exception'," ++ js "'payload':{"
            ++ js "'id':'")%string.
    exists (js "'," ++ js "'exception_type':'Error'," ++ js "'message':'"
            ++ match message with Some m => m | None => EmptyString end
            ++ js "'," ++ js "'fingerprint':'"
            ++ match fingerprint with Some f => f | None => EmptyString end
            ++ js "'," ++ js "'stack_trace':" ++ stack ++ ","
            ++ js "'local_variables':{}," ++ js "'context':{"
            ++ file_part file
            ++ match context_json with Some c => c | None => EmptyString end
            ++ "}," ++ js "'captured_at':'" ++ env_timestamp env
            ++ js "'," ++ js "'agent_id':'")%string.
    eexists. intros v.
    rewrite (capture_shipped pf env message file line context_json
               (with_agent_id v w) draws cfg Hinit Hcfg Hs Hjson).
    unfold exception_record.
    cbn [with_agent_id g_agent config agent_id fmt_s].
    repeat match goal with x := _ |- _ => subst x end.
    cbv beta iota. rewrite ?append_assoc. reflexivity.
  - intros message file context_json. subst fingerprint stack id.
    exists (to_message
            ++ match message with Some m => m | None => EmptyString end
            ++ js "'," ++ js "'fingerprint':'")%string.
    exists (js "'," ++ js "'stack_trace':")%string.
    eexists. intros v.
    rewrite (capture_shipped pf (with_backtrace v env) message file line
               context_json w draws cfg Hinit Hcfg Hs Hjson).
    unfold exception_record, Backtrace.opt_string.
    cbn [with_backtrace env_timestamp env_backtrace env_fingerprint_ok env_now].
    repeat match goal with x := _ |- _ => subst x end.
    cbv beta iota. rewrite ?append_assoc. reflexivity.
  - intros n message file context_json. apply with_max_string_length_same.
Qed.

(** The theorem on the world a first initialisation leaves. *)
Lemma capture_error_embeds_fields_whole_witness :
  let shipped (env : capture_env) (w : world)
              (message file context_json : option string) :=
    snd (aivory_capture_error_with_context linux_x86_64 env message file 42
           context_json w []) in
  let whole (before value after : string) :=
    if strlen (before ++ value ++ after)%string <? 65536
    then Some (before ++ value ++ after)%string
    else None in
  let env := example_capture_env in
  let w := example_world in
  (forall file context_json : option string,
     exists before after : string,
       forall v : string,
         shipped env w (Some v) file context_json = whole before v after)
  /\ (forall message context_json : option string,
        exists before after : string,
          forall v : string,
            shipped env w message (Some v) context_json
            = whole before v after)
  /\ (forall message file : option string,
        exists before after : string,
          forall v : string,
            shipped env w message file (Some v) = whole before v after)
  /\ (forall message file context_json : option string,
        exists before after : string,
          forall v : string,
            shipped (with_timestamp v env) w message file context_json
            = whole before v after)
  /\ (forall message file context_json : option string,
        exists before after : string,
          forall v : string,
            shipped env (with_environment v w) message file context_json
            = whole before v after)
  /\ (forall message file context_json : option string,
        exists before between after : string,
          forall v : string,
            shipped env (with_agent_id v w) message file context_json
            = whole before (v ++ between ++ v)%string after)
  /\ (forall message file context_json : option string,
        exists before between after : string,
          forall v : string,
            shipped (with_backtrace v env) w message file context_json
            = whole
                (before
                 ++ Backtrace.opt_string
                      (Backtrace.aivory_calculate_fingerprint linux_x86_64
                         (env_fingerprint_ok env) (Some "Error"%string)
                         (Some v))
                 ++ between)%string
                v after)
  /\ (forall (n : Z) (message file context_json : option string),
        aivory_capture_error_with_context linux_x86_64 env message file 42
          context_json (with_max_string_length n w) []
        = aivory_capture_error_with_context linux_x86_64 env message file 42
            context_json w []).
Proof.
  apply (capture_error_embeds_fields_whole linux_x86_64 example_capture_env 42
           example_world [] example_config);
    reflexivity.
Defined.

(** C3 (as stated) fails.  With a maximum string length of 1000, a message
    of 1001 bytes is in the record whole, and the record is 1001 bytes
    longer than the record of the empty message: nothing is cut and nothing
    is added.  A message of 70000 bytes makes the record too long for its
    buffer, and no record is handed to the transport. *)
Lemma capture_error_does_not_truncate :
  let capture message :=
    snd (aivory_capture_error_with_context linux_x86_64 example_capture_env
           (Some message) (Some "f.c"%string) 42 None example_world []) in
  option_map max_string_length (config (g_agent example_world)) = Some 1000
  /\ String.length (long_message 1001) = 1001%nat
  /\ option_map (fun json => strstr json (long_message 1001))
       (capture (long_message 1001)) = Some true
  /\ option_map String.length (capture EmptyString) = Some 392%nat
  /\ option_map String.length (capture (long_message 1001))
     = Some (392 + 1001)%nat
  /\ capture (long_message (Z.to_nat 70000)) = None.
Proof. vm_compute. repeat split; reflexivity. Qed.

End AgentFacts.

(** * Further properties *)

(** ** The queue under pushes alone, and emptied *)

Section QueueMoreFacts.
Import Queue.

Lemma skipn_tl {A : Type} (k : nat) (l : list A) : tl (skipn k l) = skipn (S k) l.
Proof.
  revert l. induction k as [|k IH]; intros [|x l]; try reflexivity.
  cbn [skipn]. rewrite IH. now destruct l.
Qed.

Lemma run_pushes_snoc (l : list string) (x : string) :
  run (map Push (l ++ [x])) queue_init
  = queue_push true (run (map Push l) queue_init) x.
Proof. rewrite map_app. cbn [map]. now rewrite run_snoc. Qed.

(** X2.  After pushes alone the queue holds the last 100 records pushed
    (all of them when there are fewer), oldest first. *)
Theorem pushes_keep_the_last_hundred :
  forall l : list string,
    entries (run (map Push l) queue_init) = skipn (List.length l - 100) l
    /\ count (run (map Push l) queue_init)
       = Z.min (Z.of_nat (List.length l)) AIVORY_MESSAGE_QUEUE_SIZE.
Proof.
  induction l as [|x l [IHe IHc]] using rev_ind.
  - split; reflexivity.
  - pose proof (run_wf (map Push l) queue_init queue_init_wf) as Hwf.
    rewrite run_pushes_snoc.
    destruct (push_ok_shape _ x Hwf) as (He & Hn & _).
    rewrite He, Hn, IHe, IHc, length_app. cbn [List.length].
    unfold AIVORY_MESSAGE_QUEUE_SIZE. split; [|lia].
    destruct (Z.eqb_spec (Z.min (Z.of_nat (List.length l)) 100) 100) as [E|E].
    + rewrite skipn_tl.
      replace (List.length l + 1 - 100)%nat with (S (List.length l - 100)) by lia.
      rewrite skipn_app.
      replace (S (List.length l - 100) - List.length l)%nat with 0%nat by lia.
      reflexivity.
    + replace (List.length l + 1 - 100)%nat with 0%nat by lia.
      replace (List.length l - 100)%nat with 0%nat by lia.
      reflexivity.
Qed.

(** Popping as often as there are records returns them all, oldest
    first. *)
Lemma pop_all_entries (q : aivory_queue_t) :
  fst (pop_all (List.length (entries q)) q) = entries q
  /\ entries (snd (pop_all (List.length (entries q)) q)) = []
  /\ count (snd (pop_all (List.length (entries q)) q))
     = count q - Z.of_nat (List.length (entries q)).
Proof.
  destruct q as [es c m]. cbn [entries count]. revert c.
  induction es as [|e es IH]; intros c.
  - cbn. repeat split. lia.
  - cbn [List.length pop_all]. unfold queue_pop. cbn [entries count max_size].
    specialize (IH (c - 1)).
    destruct (pop_all (List.length es)
                {| entries := es; count := c - 1; max_size := m |}) as [rest q''].
    cbn [fst snd] in *. destruct IH as (H1 & H2 & H3).
    repeat split; [now rewrite H1 | exact H2 | lia].
Qed.

(** X3.  Up to 100 records pushed onto the empty queue come back from
    [queue_pop] in the order pushed; the queue is then empty, reports no
    messages, and a further pop returns NULL and changes nothing. *)
Theorem queue_round_trip :
  forall l : list string,
    (List.length l <= 100)%nat ->
    let q := run (map Push l) queue_init in
    let emptied := snd (pop_all (List.length l) q) in
    fst (pop_all (List.length l) q) = l
    /\ entries emptied = []
    /\ count emptied = 0
    /\ queue_has_messages emptied = false
    /\ queue_pop emptied = (None, emptied).
Proof.
  intros l Hl q emptied.
  destruct (pushes_keep_the_last_hundred l) as [He Hc]. fold q in He, Hc.
  replace (List.length l - 100)%nat with 0%nat in He by lia. cbn [skipn] in He.
  pose proof (pop_all_entries q) as (H1 & H2 & H3).
  rewrite He in H1, H2, H3. fold emptied in H2, H3.
  assert (H0 : count emptied = 0).
  { rewrite H3, Hc. unfold AIVORY_MESSAGE_QUEUE_SIZE. lia. }
  repeat split; try assumption.
  - unfold queue_has_messages. rewrite H0. reflexivity.
  - unfold queue_pop. now rewrite H2.
Qed.

(** The theorem for three records. *)
Lemma queue_round_trip_witness :
  let l := ["A"; "B"; "C"]%string in
  let q := run (map Push l) queue_init in
  let emptied := snd (pop_all (List.length l) q) in
  fst (pop_all (List.length l) q) = l
  /\ entries emptied = []
  /\ count emptied = 0
  /\ queue_has_messages emptied = false
  /\ queue_pop emptied = (None, emptied).
Proof.
  apply (queue_round_trip ["A"; "B"; "C"]%string). cbn. lia.
Defined.

End QueueMoreFacts.

(** ** The transport: what every run keeps *)

Section TransportMoreFacts.
Import C Transport.

Lemma queue_push_wf (ok : bool) (q : Queue.aivory_queue_t) (json : string) :
  Queue.wf q -> Queue.wf (Queue.queue_push ok q json).
Proof.
  intros H. destruct ok.
  - exact (step_wf q (Queue.Push json) H).
  - pose proof H as (Hc & Hle & Hm).
    unfold Queue.queue_push, Queue.evict_if_full, Queue.head_is_null, Queue.wf.
    destruct (Queue.entries q) as [|e es] eqn:He; cbn [List.length] in Hc.
    + rewrite andb_false_r. rewrite He. cbn [List.length]. lia.
    + cbn [negb]. rewrite andb_true_r.
      destruct (Queue.count q >=? Queue.max_size q);
        cbn [Queue.entries Queue.count Queue.max_size tl]; rewrite ?He;
        cbn [List.length]; lia.
Qed.

Lemma queue_pop_wf (q : Queue.aivory_queue_t) :
  Queue.wf q -> Queue.wf (snd (Queue.queue_pop q)).
Proof. exact (step_wf q Queue.Pop). Qed.

Lemma drain_queue_wf (conn : ws_connection_t) :
  Queue.wf (queue conn) ->
  Queue.wf (queue (fst (drain_queue (List.length (Queue.entries (queue conn))) conn))).
Proof.
  intros (Hc & Hle & Hm).
  rewrite (drain_queue_all (Queue.entries (queue conn))) by reflexivity.
  cbn [fst set_queue queue]. unfold Queue.wf.
  cbn [Queue.entries Queue.count Queue.max_size List.length].
  unfold AIVORY_MESSAGE_QUEUE_SIZE in *. lia.
Qed.

Lemma ws_callback_wf (pf : platform) (agent : aivory_agent_t) (now : Z)
    (conn : ws_connection_t) (reason : lws_callback_reasons) :
  Queue.wf (queue conn) ->
  Queue.wf (queue (fst (ws_callback pf agent now conn reason))).
Proof.
  intros H.
  destruct reason as [reg_ok|data msg_ok| |why| |]; cbn [ws_callback];
    try exact H.
  - destruct data as [data|]; [|exact H].
    destruct ((strlen data >? 0) && msg_ok); [|exact H].
    destruct (strstr (cstr data) (js "'registered'")
              || strstr (cstr data) (js "'type':'registered'")).
    + match goal with
      | |- context [drain_queue ?n ?c] =>
          pose proof (drain_queue_wf c H) as Hd;
          change n with (List.length (Queue.entries (queue c)));
          destruct (drain_queue (List.length (Queue.entries (queue c))) c)
            as [conn' sent]
      end.
      exact Hd.
    + destruct (strstr (cstr data) (js "'error'")); [|exact H].
      destruct (strstr (cstr data) "auth_error"
                || strstr (cstr data) "invalid_api_key"); exact H.
  - destruct (authenticated conn); [|exact H].
    pose proof (queue_pop_wf _ H) as Hp.
    destruct (Queue.queue_pop (queue conn)) as [[json|] q']; [|exact H].
    exact Hp.
Qed.

Lemma deliver_wf (pf : platform) (agent : aivory_agent_t)
    (conn : ws_connection_t) (e : event) :
  Queue.wf (queue conn) -> Queue.wf (queue (fst (deliver pf agent conn e))).
Proof.
  intros H. destruct e as [reason now| |json entry_ok]; cbn [deliver].
  - now apply ws_callback_wf.
  - exact H.
  - unfold aivory_ws_send_exception.
    destruct (is_authenticated (state conn) && authenticated conn);
      cbn [fst]; [exact H|].
    cbn [set_queue queue]. now apply queue_push_wf.
Qed.

Lemma deliver_all_wf (pf : platform) (agent : aivory_agent_t)
    (es : list event) (conn : ws_connection_t) :
  Queue.wf (queue conn) -> Queue.wf (queue (fst (deliver_all pf agent conn es))).
Proof.
  revert conn. induction es as [|e es IH]; intros conn H; [exact H|].
  cbn [deliver_all].
  pose proof (deliver_wf pf agent conn e H) as H1.
  destruct (deliver pf agent conn e) as [conn1 eff1]. cbn [fst] in H1.
  specialize (IH conn1 H1).
  now destruct (deliver_all pf agent conn1 es) as [conn2 eff2].
Qed.

Lemma service_loop_wf (pf : platform) (agent : aivory_agent_t)
    (rounds : list service_round) (last : Z) (conn : ws_connection_t) :
  Queue.wf (queue conn) ->
  Queue.wf (queue (fst (fst (service_loop pf agent rounds last conn)))).
Proof.
  revert last conn. induction rounds as [|r rounds IH]; intros last conn H.
  - cbn [service_loop]. now destruct (negb (should_stop conn) && _).
  - cbn [service_loop].
    destruct (negb (should_stop conn) && negb (is_disconnected (state conn)));
      [|exact H].
    pose proof (deliver_all_wf pf agent (delivered r) conn H) as H1.
    destruct (deliver_all pf agent conn (delivered r)) as [conn1 eff1].
    cbn [fst] in H1.
    match goal with
    | |- context [service_loop pf agent rounds ?l conn1] =>
        specialize (IH l conn1 H1);
        destruct (service_loop pf agent rounds l conn1) as [[conn2 eff3] fin]
    end.
    exact IH.
Qed.

Lemma connect_once_wf (pf : platform) (agent : aivory_agent_t)
    (cfg : aivory_config_t) (u : url_parts) (a : attempt) (conn : ws_connection_t) :
  Queue.wf (queue conn) ->
  Queue.wf (queue (fst (fst (connect_once pf agent cfg u a conn)))).
Proof.
  intros H. destruct a as [|during|during start rounds]; cbn [connect_once].
  - exact H.
  - pose proof (deliver_all_wf pf agent during (set_lws_ctx conn true) H) as H1.
    now destruct (deliver_all pf agent (set_lws_ctx conn true) during).
  - pose proof (deliver_all_wf pf agent during (set_lws_ctx conn true) H) as H1.
    destruct (deliver_all pf agent (set_lws_ctx conn true) during) as [conn1 eff1].
    cbn [fst] in H1.
    pose proof (service_loop_wf pf agent rounds start conn1 H1) as H2.
    destruct (service_loop pf agent rounds start conn1) as [[conn2 eff2] fin].
    cbn [fst] in H2.
    destruct fin; [destruct (lws_ctx conn2)|]; exact H2.
Qed.

Lemma reconnect_queue (cfg : aivory_config_t) (conn : ws_connection_t) :
  queue (fst (fst (reconnect cfg conn))) = queue conn.
Proof.
  unfold reconnect. destruct (should_stop conn); [reflexivity|].
  now destruct (reconnect_attempts _ >? 10).
Qed.

Lemma worker_loop_wf (pf : platform) (agent : aivory_agent_t)
    (cfg : aivory_config_t) (u : url_parts) (fuel : nat) :
  forall (script : list attempt) (conn : ws_connection_t),
    Queue.wf (queue conn) ->
    Queue.wf (queue (fst (fst (worker_loop pf agent cfg u fuel script conn)))).
Proof.
  induction fuel as [|fuel IH]; intros script conn H; [exact H|].
  cbn [worker_loop]. destruct (should_stop conn); [exact H|].
  assert (Step : forall conn1 eff1 script',
    Queue.wf (queue conn1) ->
    Queue.wf (queue (fst (fst
      match reconnect cfg conn1 with
      | (conn2, eff2, false) => (conn2, eff1 ++ eff2, ThreadReturned)
      | (conn2, eff2, true) =>
          let '(conn3, eff3, st) :=
            worker_loop pf agent cfg u fuel script' conn2 in
          (conn3, eff1 ++ eff2 ++ eff3, st)
      end)))).
  { intros conn1 eff1 script' H1.
    pose proof (reconnect_queue cfg conn1) as Hq.
    destruct (reconnect cfg conn1) as [[conn2 eff2] again]. cbn [fst] in Hq.
    rewrite <- Hq in H1. destruct again; [|exact H1].
    specialize (IH script' conn2 H1).
    now destruct (worker_loop pf agent cfg u fuel script' conn2) as [[conn3 eff3] st]. }
  destruct (is_disconnected (state conn)).
  - destruct script as [|a script']; [exact H|].
    pose proof (connect_once_wf pf agent cfg u a conn H) as H1.
    destruct (connect_once pf agent cfg u a conn) as [[conn1 eff1] fin].
    cbn [fst] in H1. destruct fin; [now apply Step | exact H1].
  - now apply Step.
Qed.

(** X4.  Whatever libwebsockets and the host threads do, a run of the
    worker keeps the queue as [queue_push] and [queue_pop] leave it: the
    count is the number of queued records and is at most 100.  So does a
    single callback, and a report sent by the host with or without its
    queue entry allocated. *)
Theorem transport_keeps_queue_bounded :
  forall (pf : platform) (agent : aivory_agent_t) (fuel : nat)
         (script : list attempt) (conn : ws_connection_t) (now : Z)
         (reason : lws_callback_reasons) (json : string) (entry_ok : bool),
    Queue.wf (queue conn) ->
    Queue.wf (queue (fst (fst (ws_thread_func pf agent fuel script conn))))
    /\ Queue.wf (queue (fst (ws_callback pf agent now conn reason)))
    /\ Queue.wf (queue (fst (deliver pf agent conn (HostSend json entry_ok)))).
Proof.
  intros pf agent fuel script conn now reason json entry_ok H.
  split; [|split].
  - unfold ws_thread_func. destruct (config agent) as [cfg|]; [|exact H].
    destruct (parse_url pf (backend_url cfg)) as [u|]; [|exact H].
    now apply worker_loop_wf.
  - now apply ws_callback_wf.
  - now apply deliver_wf.
Qed.

(** The theorem for the connection [aivory_ws_connect] creates and a
    worker that meets a refused connection and then an authenticated
    session. *)
Lemma transport_keeps_queue_bounded_witness :
  Queue.wf (queue (fst (fst (ws_thread_func linux_x86_64 example_agent 20
                               [ConnectFailed []; authenticated_session]
                               connection_init))))
  /\ Queue.wf (queue (fst (ws_callback linux_x86_64 example_agent 0
                             connection_init LWS_CALLBACK_CLIENT_WRITEABLE)))
  /\ Queue.wf (queue (fst (deliver linux_x86_64 example_agent connection_init
                             (HostSend "{}" true)))).
Proof.
  apply (transport_keeps_queue_bounded linux_x86_64 example_agent 20
           [ConnectFailed []; authenticated_session] connection_init 0
           LWS_CALLBACK_CLIENT_WRITEABLE "{}" true).
  exact queue_init_wf.
Defined.

(** *** Frames *)

Lemma debug_log_fits (agent : aivory_agent_t) (line : string) :
  Forall frame_fits (debug_log agent line).
Proof.
  unfold debug_log. destruct (agent_debug agent); repeat constructor.
Qed.

Lemma ws_send_message_fits (conn : ws_connection_t) (json : string) :
  Forall frame_fits (ws_send_message conn json).
Proof.
  unfold ws_send_message. destruct (negb (wsi conn)); [constructor|].
  destruct (Z.gtb_spec (strlen json) (MAX_MESSAGE_SIZE - LWS_PRE));
    repeat constructor. cbn [frame_fits]. lia.
Qed.

Lemma flat_map_fits (conn : ws_connection_t) (es : list string) :
  Forall frame_fits (flat_map (ws_send_message conn) es).
Proof.
  induction es as [|e es IH]; [constructor|].
  cbn [flat_map]. apply Forall_app. split; [apply ws_send_message_fits | exact IH].
Qed.

Lemma ws_callback_fits (pf : platform) (agent : aivory_agent_t) (now : Z)
    (conn : ws_connection_t) (reason : lws_callback_reasons) :
  Forall frame_fits (snd (ws_callback pf agent now conn reason)).
Proof.
  destruct reason as [reg_ok|data msg_ok| |why| |]; cbn [ws_callback];
    try (cbn [snd]; constructor).
  - cbn [snd]. apply Forall_app. split; [apply debug_log_fits|].
    destruct reg_ok; [apply ws_send_message_fits | constructor].
  - destruct data as [data|]; [|constructor].
    destruct ((strlen data >? 0) && msg_ok); [|constructor].
    destruct (strstr (cstr data) (js "'registered'")
              || strstr (cstr data) (js "'type':'registered'")).
    + rewrite (drain_queue_all (Queue.entries (queue conn))) by reflexivity.
      cbn [snd]. apply Forall_app. split; [apply debug_log_fits|].
      apply flat_map_fits.
    + destruct (strstr (cstr data) (js "'error'")); [|constructor].
      destruct (strstr (cstr data) "auth_error"
                || strstr (cstr data) "invalid_api_key");
        repeat constructor.
  - destruct (authenticated conn); [|constructor].
    destruct (Queue.queue_pop (queue conn)) as [[json|] q']; [|constructor].
    cbn [snd]. apply Forall_app. split; [apply ws_send_message_fits|].
    destruct (Queue.queue_has_messages _); repeat constructor.
  - cbn [snd]. apply debug_log_fits.
  - cbn [snd]. apply debug_log_fits.
Qed.

Lemma deliver_fits (pf : platform) (agent : aivory_agent_t)
    (conn : ws_connection_t) (e : event) :
  Forall frame_fits (snd (deliver pf agent conn e)).
Proof.
  destruct e as [reason now| |json entry_ok]; cbn [deliver].
  - apply ws_callback_fits.
  - constructor.
  - unfold aivory_ws_send_exception.
    destruct (is_authenticated (state conn) && authenticated conn); cbn [snd].
    + apply Forall_app. split; [apply ws_send_message_fits|].
      destruct (wsi conn); repeat constructor.
    + apply debug_log_fits.
Qed.

Lemma deliver_all_fits (pf : platform) (agent : aivory_agent_t)
    (es : list event) (conn : ws_connection_t) :
  Forall frame_fits (snd (deliver_all pf agent conn es)).
Proof.
  revert conn. induction es as [|e es IH]; intros conn; [constructor|].
  cbn [deliver_all].
  pose proof (deliver_fits pf agent conn e) as H1.
  destruct (deliver pf agent conn e) as [conn1 eff1]. cbn [snd] in H1.
  specialize (IH conn1).
  destruct (deliver_all pf agent conn1 es) as [conn2 eff2]. cbn [snd] in *.
  apply Forall_app. now split.
Qed.

Lemma service_loop_fits (pf : platform) (agent : aivory_agent_t)
    (rounds : list service_round) (last : Z) (conn : ws_connection_t) :
  Forall frame_fits (snd (fst (service_loop pf agent rounds last conn))).
Proof.
  revert last conn. induction rounds as [|r rounds IH]; intros last conn.
  - cbn [service_loop]. destruct (negb (should_stop conn) && _); constructor.
  - cbn [service_loop].
    destruct (negb (should_stop conn) && negb (is_disconnected (state conn)));
      [|constructor].
    pose proof (deliver_all_fits pf agent (delivered r) conn) as H1.
    destruct (deliver_all pf agent conn (delivered r)) as [conn1 eff1].
    cbn [snd] in H1.
    match goal with
    | |- context [service_loop pf agent rounds ?l conn1] =>
        specialize (IH l conn1);
        destruct (service_loop pf agent rounds l conn1) as [[conn2 eff3] fin]
    end.
    cbn [fst snd] in *. repeat (apply Forall_app; split); try assumption.
    match goal with
    | |- context [if ?b then ws_send_message ?c ?m else []] =>
        destruct b; [apply ws_send_message_fits | constructor]
    end.
Qed.

Lemma connect_once_fits (pf : platform) (agent : aivory_agent_t)
    (cfg : aivory_config_t) (u : url_parts) (a : attempt) (conn : ws_connection_t) :
  Forall frame_fits (snd (fst (connect_once pf agent cfg u a conn))).
Proof.
  assert (H0 : Forall frame_fits
     ((if debug cfg
       then [Stderr ("[AIVory Monitor] Connecting to " ++ backend_url cfg)]
       else []) ++ [CreateContext (url_use_ssl u)]))
    by (destruct (debug cfg); repeat constructor).
  destruct a as [|during|during start rounds]; cbn [connect_once].
  - cbn [fst snd]. apply Forall_app. split; [exact H0 | repeat constructor].
  - pose proof (deliver_all_fits pf agent during (set_lws_ctx conn true)) as H1.
    destruct (deliver_all pf agent (set_lws_ctx conn true) during) as [conn1 eff1].
    cbn [fst snd] in *.
    repeat (apply Forall_app; split); try assumption;
      try (destruct (debug cfg)); repeat constructor.
  - pose proof (deliver_all_fits pf agent during (set_lws_ctx conn true)) as H1.
    destruct (deliver_all pf agent (set_lws_ctx conn true) during) as [conn1 eff1].
    cbn [snd] in H1.
    pose proof (service_loop_fits pf agent rounds start conn1) as H2.
    destruct (service_loop pf agent rounds start conn1) as [[conn2 eff2] fin].
    cbn [fst snd] in H2.
    destruct fin; [destruct (lws_ctx conn2)|]; cbn [fst snd];
      repeat (apply Forall_app; split); try assumption;
      try (destruct (debug cfg)); repeat constructor.
Qed.

Lemma reconnect_fits (cfg : aivory_config_t) (conn : ws_connection_t) :
  Forall frame_fits (snd (fst (reconnect cfg conn))).
Proof.
  unfold reconnect. destruct (should_stop conn); [constructor|].
  destruct (reconnect_attempts _ >? 10); cbn [fst snd]; [repeat constructor|].
  apply Forall_app. split; [destruct (debug cfg)|]; repeat constructor.
Qed.

Lemma worker_loop_fits (pf : platform) (agent : aivory_agent_t)
    (cfg : aivory_config_t) (u : url_parts) (fuel : nat) :
  forall (script : list attempt) (conn : ws_connection_t),
    Forall frame_fits (snd (fst (worker_loop pf agent cfg u fuel script conn))).
Proof.
  induction fuel as [|fuel IH]; intros script conn; [constructor|].
  cbn [worker_loop]. destruct (should_stop conn); [constructor|].
  assert (Step : forall conn1 eff1 script',
    Forall frame_fits eff1 ->
    Forall frame_fits (snd (fst
      match reconnect cfg conn1 with
      | (conn2, eff2, false) => (conn2, eff1 ++ eff2, ThreadReturned)
      | (conn2, eff2, true) =>
          let '(conn3, eff3, st) :=
            worker_loop pf agent cfg u fuel script' conn2 in
          (conn3, eff1 ++ eff2 ++ eff3, st)
      end))).
  { intros conn1 eff1 script' H1.
    pose proof (reconnect_fits cfg conn1) as H2.
    destruct (reconnect cfg conn1) as [[conn2 eff2] again]. cbn [fst snd] in H2.
    destruct again.
    - specialize (IH script' conn2).
      destruct (worker_loop pf agent cfg u fuel script' conn2) as [[conn3 eff3] st].
      cbn [fst snd] in *. repeat (apply Forall_app; split); assumption.
    - cbn [fst snd]. apply Forall_app. now split. }
  destruct (is_disconnected (state conn)).
  - destruct script as [|a script']; [constructor|].
    pose proof (connect_once_fits pf agent cfg u a conn) as H1.
    destruct (connect_once pf agent cfg u a conn) as [[conn1 eff1] fin].
    cbn [fst snd] in H1. destruct fin; [now apply Step | exact H1].
  - apply Step. constructor.
Qed.

(** X5.  No frame longer than [MAX_MESSAGE_SIZE - LWS_PRE] = 65520 bytes
    is ever handed to [lws_write]: not by the worker thread in any run,
    and not by a report a host thread sends. *)
Theorem no_oversized_frame_is_written :
  forall (pf : platform) (agent : aivory_agent_t) (fuel : nat)
         (script : list attempt) (conn : ws_connection_t)
         (g : option ws_connection_t) (json : option string) (entry_ok : bool),
    Forall frame_fits (snd (fst (ws_thread_func pf agent fuel script conn)))
    /\ Forall frame_fits (snd (aivory_ws_send_exception agent entry_ok g json))
    /\ MAX_MESSAGE_SIZE - LWS_PRE = 65520.
Proof.
  intros pf agent fuel script conn g json entry_ok. split; [|split].
  - unfold ws_thread_func. destruct (config agent) as [cfg|]; [|constructor].
    destruct (parse_url pf (backend_url cfg)) as [u|]; [|repeat constructor].
    apply worker_loop_fits.
  - unfold aivory_ws_send_exception.
    destruct g as [c|], json as [j|]; try constructor.
    destruct (is_authenticated (state c) && authenticated c); cbn [snd].
    + apply Forall_app. split; [apply ws_send_message_fits|].
      destruct (wsi c); repeat constructor.
    + apply debug_log_fits.
  - reflexivity.
Qed.

(** *** Back-off *)

Lemma sleeps_nonneg (eff : list effect) : 0 <= sleeps eff.
Proof. induction eff as [|e eff IH]; [reflexivity|]. destruct e; cbn [sleeps]; lia. Qed.

Lemma delay_in_range (k : Z) : 1 <= k <= 6 -> 2 <= Z.shiftl 1 k <= 64.
Proof.
  intros Hk.
  assert (H : k = 1 \/ k = 2 \/ k = 3 \/ k = 4 \/ k = 5 \/ k = 6) by lia.
  repeat (destruct H as [-> | H]; [cbn; lia|]). subst k. cbn. lia.
Qed.

Lemma sleep_list_app (a b : list effect) :
  sleep_list (a ++ b) = sleep_list a ++ sleep_list b.
Proof.
  induction a as [|e a IH]; [reflexivity|].
  destruct e; cbn [app sleep_list]; now rewrite ?IH.
Qed.

Lemma no_sleep_list (eff : list effect) : sleeps eff = 0 -> sleep_list eff = [].
Proof.
  induction eff as [|e eff IH]; intros H; [reflexivity|].
  pose proof (sleeps_nonneg eff).
  destruct e; cbn [sleeps sleep_list] in *; try (apply IH; exact H). lia.
Qed.

(** The delay of attempt [k], as the back-off schedule has it. *)
Lemma reconnect_sleep_list (cfg : aivory_config_t) (conn : ws_connection_t) :
  0 <= reconnect_attempts conn ->
  sleep_list (snd (fst (reconnect cfg conn)))
  = if snd (reconnect cfg conn)
    then [2 ^ Z.min (reconnect_attempts conn + 1) 6]
    else [].
Proof.
  intros Ha. unfold reconnect. destruct (should_stop conn); [reflexivity|].
  cbn [set_reconnect_attempts reconnect_attempts].
  destruct (Z.gtb_spec (reconnect_attempts conn + 1) 10) as [Hgt|Hle];
    cbn [fst snd]; [reflexivity|].
  rewrite sleep_list_app.
  replace (if reconnect_attempts conn + 1 >? 6 then 6
           else reconnect_attempts conn + 1)
    with (Z.min (reconnect_attempts conn + 1) 6)
    by (destruct (Z.gtb_spec (reconnect_attempts conn + 1) 6); lia).
  rewrite Z.shiftl_1_l. destruct (debug cfg); reflexivity.
Qed.

(** The delays of the attempts [a + 1], ..., [a + m]. *)
Lemma delays_cons (a : Z) (m : nat) :
  2 ^ Z.min (a + 1) 6
  :: map (fun i : nat => 2 ^ Z.min (a + 1 + Z.of_nat i + 1) 6) (seq 0 m)
  = map (fun i : nat => 2 ^ Z.min (a + Z.of_nat i + 1) 6) (seq 0 (S m)).
Proof.
  cbn [seq map]. rewrite Z.add_0_r. f_equal.
  rewrite <- seq_shift, map_map. apply map_ext. intros i.
  f_equal. f_equal. lia.
Qed.

Lemma worker_loop_sleep_list (pf : platform) (agent : aivory_agent_t)
    (cfg : aivory_config_t) (u : url_parts) (fuel : nat) :
  forall (script : list attempt) (conn : ws_connection_t),
    0 <= reconnect_attempts conn ->
    exists m : nat,
      sleep_list (snd (fst (worker_loop pf agent cfg u fuel script conn)))
      = map (fun i : nat => 2 ^ Z.min (reconnect_attempts conn + Z.of_nat i + 1) 6)
          (seq 0 m)
      /\ reconnect_attempts conn + Z.of_nat m
         <= Z.max (reconnect_attempts conn) 10.
Proof.
  induction fuel as [|fuel IH]; intros script conn Ha.
  - exists 0%nat. split; [reflexivity|lia].
  - cbn [worker_loop]. destruct (should_stop conn);
      [exists 0%nat; split; [reflexivity|cbn; lia]|].
    assert (Step : forall conn1 eff1 script',
      reconnect_attempts conn1 = reconnect_attempts conn -> sleeps eff1 = 0 ->
      let r :=
        match reconnect cfg conn1 with
        | (conn2, eff2, false) => (conn2, eff1 ++ eff2, ThreadReturned)
        | (conn2, eff2, true) =>
            let '(conn3, eff3, st) :=
              worker_loop pf agent cfg u fuel script' conn2 in
            (conn3, eff1 ++ eff2 ++ eff3, st)
        end in
      exists m : nat,
        sleep_list (snd (fst r))
        = map (fun i : nat =>
                 2 ^ Z.min (reconnect_attempts conn + Z.of_nat i + 1) 6)
            (seq 0 m)
        /\ reconnect_attempts conn + Z.of_nat m
           <= Z.max (reconnect_attempts conn) 10).
    { intros conn1 eff1 script' E Hz.
      pose proof (no_sleep_list eff1 Hz) as L1.
      pose proof (reconnect_sleep_list cfg conn1 ltac:(lia)) as L2.
      pose proof (reconnect_attempts_step cfg conn1) as Hr.
      destruct (reconnect cfg conn1) as [[conn2 eff2] again].
      cbn [fst snd] in *. destruct Hr as [Ryes _]. destruct again; cbv zeta.
      - destruct (Ryes eq_refl) as (E2 & Hle & _).
        destruct (IH script' conn2 ltac:(lia)) as (m & Hm & Hb).
        destruct (worker_loop pf agent cfg u fuel script' conn2)
          as [[conn3 eff3] st].
        cbn [fst snd] in *. exists (S m). split.
        + rewrite !sleep_list_app, L1, L2, Hm, E2, E. cbn [app].
          apply delays_cons.
        + lia.
      - cbn [fst snd]. exists 0%nat. split.
        + now rewrite sleep_list_app, L1, L2.
        + cbn. lia. }
    destruct (is_disconnected (state conn)).
    + destruct script as [|a script'];
        [exists 0%nat; split; [reflexivity|cbn; lia]|].
      pose proof (connect_once_attempts pf agent cfg u a conn) as (E & Hz).
      destruct (connect_once pf agent cfg u a conn) as [[conn1 eff1] fin].
      cbn [fst snd] in E, Hz. destruct fin.
      * apply Step; assumption.
      * cbn [fst snd]. exists 0%nat. split; [now apply no_sleep_list|cbn; lia].
    + apply (Step conn [] script); reflexivity.
Qed.

(** The schedule in numbers: each delay is between 2 and 64 seconds, and
    the delays of the attempts after [a >= 0], up to the tenth, last at
    most 382 seconds together. *)
Lemma delays_bounded (a : Z) (m : nat) :
  0 <= a ->
  a + Z.of_nat m <= Z.max a 10 ->
  Forall (fun seconds => 2 <= seconds <= 64)
    (map (fun i : nat => 2 ^ Z.min (a + Z.of_nat i + 1) 6) (seq 0 m))
  /\ fold_right Z.add 0
       (map (fun i : nat => 2 ^ Z.min (a + Z.of_nat i + 1) 6) (seq 0 m))
     <= 382.
Proof.
  intros Ha Hm. split.
  - apply Forall_forall. intros x Hx. apply in_map_iff in Hx.
    destruct Hx as (i & <- & _).
    assert (Hk : 1 <= Z.min (a + Z.of_nat i + 1) 6 <= 6) by lia.
    pose proof (delay_in_range _ Hk) as Hr. now rewrite Z.shiftl_1_l in Hr.
  - destruct (Z.leb_spec a 10) as [Hle|Hgt].
    + assert (Hin : List.In a [0; 1; 2; 3; 4; 5; 6; 7; 8; 9; 10])
        by (cbn [List.In]; lia).
      assert (Hmn : List.In m [0; 1; 2; 3; 4; 5; 6; 7; 8; 9; 10]%nat)
        by (cbn [List.In]; lia).
      cbn [List.In] in Hin, Hmn.
      repeat (destruct Hin as [<- | Hin];
              [repeat (destruct Hmn as [<- | Hmn];
                       [first [vm_compute; discriminate | exfalso; lia]|]);
               contradiction|]).
      contradiction.
    + replace m with 0%nat by lia. cbn. lia.
Qed.

(** X6.  The back-off sleeps of a worker whose reconnect counter is
    [a >= 0] are exactly the delays of the attempts [a + 1], [a + 2], ...
    in this order, 2^min(k, 6) seconds for attempt k, as far as the worker
    gets and to the tenth attempt at most.  So every sleep lasts between 2
    and 64 seconds, and together they last at most
    2 + 4 + 8 + 16 + 32 + 5 * 64 = 382 seconds. *)
Theorem worker_backoff_is_bounded :
  forall (pf : platform) (agent : aivory_agent_t) (fuel : nat)
         (script : list attempt) (conn : ws_connection_t),
    0 <= reconnect_attempts conn ->
    let a := reconnect_attempts conn in
    let slept := sleep_list (snd (fst (ws_thread_func pf agent fuel script conn))) in
    exists m : nat,
      slept = map (fun i : nat => 2 ^ Z.min (a + Z.of_nat i + 1) 6) (seq 0 m)
      /\ a + Z.of_nat m <= Z.max a 10
      /\ Forall (fun seconds => 2 <= seconds <= 64) slept
      /\ fold_right Z.add 0 slept <= 382.
Proof.
  intros pf agent fuel script conn Ha a slept.
  assert (G : exists m : nat,
            slept = map (fun i : nat => 2 ^ Z.min (a + Z.of_nat i + 1) 6) (seq 0 m)
            /\ a + Z.of_nat m <= Z.max a 10).
  { subst slept a. unfold ws_thread_func.
    destruct (config agent) as [cfg|];
      [|exists 0%nat; split; [reflexivity|cbn; lia]].
    destruct (parse_url pf (backend_url cfg)) as [u|].
    - now apply worker_loop_sleep_list.
    - exists 0%nat. split; [reflexivity|cbn; lia]. }
  destruct G as (m & Hm & Hb). exists m.
  destruct (delays_bounded a m Ha Hb) as [F T].
  split; [exact Hm|]. split; [exact Hb|]. rewrite Hm. now split.
Qed.

(** The theorem for the connection [aivory_ws_connect] creates. *)
Lemma worker_backoff_is_bounded_witness :
  let a := reconnect_attempts connection_init in
  let slept :=
    sleep_list (snd (fst (ws_thread_func linux_x86_64 example_agent 20
                            [ConnectFailed []; authenticated_session]
                            connection_init))) in
  exists m : nat,
    slept = map (fun i : nat => 2 ^ Z.min (a + Z.of_nat i + 1) 6) (seq 0 m)
    /\ a + Z.of_nat m <= Z.max a 10
    /\ Forall (fun seconds => 2 <= seconds <= 64) slept
    /\ fold_right Z.add 0 slept <= 382.
Proof.
  apply (worker_backoff_is_bounded linux_x86_64 example_agent 20
           [ConnectFailed []; authenticated_session] connection_init).
  cbn. lia.
Defined.

(** *** What is written, and when *)

Lemma in_debug_log (agent : aivory_agent_t) (line frame : string) :
  ~ List.In (Write frame) (debug_log agent line).
Proof.
  unfold debug_log. destruct (agent_debug agent); cbn; intros H;
    [destruct H as [H|H]; [discriminate | exact H] | exact H].
Qed.

Lemma in_ws_send_message (conn : ws_connection_t) (json frame : string) :
  List.In (Write frame) (ws_send_message conn json) ->
  frame = json /\ wsi conn = true.
Proof.
  unfold ws_send_message. destruct (wsi conn); cbn [negb]; [|intros []].
  destruct (strlen json >? MAX_MESSAGE_SIZE - LWS_PRE); [intros []|].
  intros [H|[]]. injection H as <-. now split.
Qed.

Lemma in_flat_map_send (conn : ws_connection_t) (es : list string) (frame : string) :
  List.In (Write frame) (flat_map (ws_send_message conn) es) -> List.In frame es.
Proof.
  rewrite in_flat_map. intros (j & Hj & Hin).
  apply in_ws_send_message in Hin as [-> _]. exact Hj.
Qed.

(** X7.  On a connection whose [authenticated] flag is down, whatever
    reaches it writes at most these frames: the register frame, when the
    connection is reported established; and the queued records, when a
    reply authenticates it.  Neither a writable callback nor anything else
    writes.  A report sent by the host is not written: it is pushed on the
    queue, and nothing else of the connection changes. *)
Theorem unauthenticated_writes_only_register :
  forall (pf : platform) (agent : aivory_agent_t) (conn : ws_connection_t)
         (e : event),
    authenticated conn = false ->
    (forall frame : string,
       List.In (Write frame) (snd (deliver pf agent conn e)) ->
       (exists (ok : bool) (now : Z),
           e = Callback (LWS_CALLBACK_CLIENT_ESTABLISHED ok) now
           /\ frame = build_register_message pf now agent)
       \/ (exists (data : string) (ok : bool) (now : Z),
             e = Callback (LWS_CALLBACK_CLIENT_RECEIVE (Some data) ok) now
             /\ List.In frame (Queue.entries (queue conn))
             /\ authenticated (fst (deliver pf agent conn e)) = true))
    /\ (forall (json : string) (entry_ok : bool),
          e = HostSend json entry_ok ->
          fst (deliver pf agent conn e)
          = set_queue conn (Queue.queue_push entry_ok (queue conn) json)
          /\ forall frame : string,
               ~ List.In (Write frame) (snd (deliver pf agent conn e))).
Proof.
  intros pf agent conn e Hauth. split.
  - intros frame Hin.
    destruct e as [reason now| |json entry_ok]; cbn [deliver] in *.
    + destruct reason as [reg_ok|data msg_ok| |why| |]; cbn [ws_callback] in *.
      * left. exists reg_ok, now. split; [reflexivity|].
        cbn [snd] in Hin. apply in_app_or in Hin as [Hin|Hin];
          [now apply in_debug_log in Hin|].
        destruct reg_ok; [|destruct Hin].
        now apply in_ws_send_message in Hin as [-> _].
      * destruct data as [data|]; [|destruct Hin].
        destruct ((strlen data >? 0) && msg_ok); [|destruct Hin].
        destruct (strstr (cstr data) (js "'registered'")
                  || strstr (cstr data) (js "'type':'registered'")).
        -- right. exists data, msg_ok, now. split; [reflexivity|].
           rewrite (drain_queue_all (Queue.entries (queue conn))) in *
             by reflexivity.
           cbn [fst snd] in *. split; [|reflexivity].
           apply in_app_or in Hin as [Hin|Hin]; [now apply in_debug_log in Hin|].
           now apply in_flat_map_send in Hin.
        -- destruct (strstr (cstr data) (js "'error'")); [|destruct Hin].
           destruct (strstr (cstr data) "auth_error"
                     || strstr (cstr data) "invalid_api_key"); cbn in Hin.
           ++ destruct Hin as [Hin|[]]. discriminate.
           ++ destruct Hin.
      * rewrite Hauth in Hin. destruct Hin.
      * cbn [snd] in Hin. now apply in_debug_log in Hin.
      * cbn [snd] in Hin. now apply in_debug_log in Hin.
      * destruct Hin.
    + destruct Hin.
    + unfold aivory_ws_send_exception in Hin. rewrite Hauth, andb_false_r in Hin.
      cbn [snd] in Hin. now apply in_debug_log in Hin.
  - intros json entry_ok ->. cbn [deliver]. unfold aivory_ws_send_exception.
    rewrite Hauth, andb_false_r. cbn [fst snd]. split; [reflexivity|].
    intros frame. apply in_debug_log.
Qed.

(** The theorem for a connection that is reported established. *)
Lemma unauthenticated_writes_only_register_witness :
  let e := Callback (LWS_CALLBACK_CLIENT_ESTABLISHED true) 1700000000 in
  (forall frame : string,
     List.In (Write frame)
       (snd (deliver linux_x86_64 example_agent connecting_connection e)) ->
     (exists (ok : bool) (now : Z),
         e = Callback (LWS_CALLBACK_CLIENT_ESTABLISHED ok) now
         /\ frame = build_register_message linux_x86_64 now example_agent)
     \/ (exists (data : string) (ok : bool) (now : Z),
           e = Callback (LWS_CALLBACK_CLIENT_RECEIVE (Some data) ok) now
           /\ List.In frame (Queue.entries (queue connecting_connection))
           /\ authenticated
                (fst (deliver linux_x86_64 example_agent connecting_connection e))
              = true))
  /\ (forall (json : string) (entry_ok : bool),
        e = HostSend json entry_ok ->
        fst (deliver linux_x86_64 example_agent connecting_connection e)
        = set_queue connecting_connection
            (Queue.queue_push entry_ok (queue connecting_connection) json)
        /\ forall frame : string,
             ~ List.In (Write frame)
                 (snd (deliver linux_x86_64 example_agent connecting_connection
                         e))).
Proof.
  apply (unauthenticated_writes_only_register linux_x86_64 example_agent
           connecting_connection
           (Callback (LWS_CALLBACK_CLIENT_ESTABLISHED true) 1700000000)).
  reflexivity.
Defined.

(** X8.  A callback never adds to the queue nor reorders it: the queue
    afterwards is the queue before without some records at its head, and
    records leave it only on a connection that is authenticated.  A
    connection error or a close keeps the queue whole, while the state goes
    to DISCONNECTED and the handle and the [authenticated] flag are
    cleared. *)
Theorem callback_takes_from_the_head :
  forall (pf : platform) (agent : aivory_agent_t) (now : Z)
         (conn : ws_connection_t) (reason : lws_callback_reasons),
    let conn' := fst (ws_callback pf agent now conn reason) in
    (exists gone : list string,
        Queue.entries (queue conn) = gone ++ Queue.entries (queue conn')
        /\ (gone <> [] -> authenticated conn' = true))
    /\ ((reason = LWS_CALLBACK_CLIENT_CLOSED
         \/ exists why, reason = LWS_CALLBACK_CLIENT_CONNECTION_ERROR why) ->
        queue conn' = queue conn
        /\ state conn' = AIVORY_CONN_DISCONNECTED
        /\ authenticated conn' = false
        /\ wsi conn' = false
        /\ should_stop conn' = should_stop conn
        /\ reconnect_attempts conn' = reconnect_attempts conn).
Proof.
  intros pf agent now conn reason conn'. subst conn'. split.
  - destruct reason as [reg_ok|data msg_ok| |why| |]; cbn [ws_callback];
      try (exists []; split; [reflexivity | congruence]).
    + destruct data as [data|];
        [|exists []; split; [reflexivity | congruence]].
      destruct ((strlen data >? 0) && msg_ok);
        [|exists []; split; [reflexivity | congruence]].
      destruct (strstr (cstr data) (js "'registered'")
                || strstr (cstr data) (js "'type':'registered'")).
      * rewrite (drain_queue_all (Queue.entries (queue conn))) by reflexivity.
        exists (Queue.entries (queue conn)). cbn. split; [|reflexivity].
        now rewrite app_nil_r.
      * destruct (strstr (cstr data) (js "'error'"));
          [|exists []; split; [reflexivity | congruence]].
        destruct (strstr (cstr data) "auth_error"
                  || strstr (cstr data) "invalid_api_key");
          exists []; (split; [reflexivity | congruence]).
    + destruct (authenticated conn) eqn:Ha;
        [|exists []; split; [reflexivity | congruence]].
      unfold Queue.queue_pop.
      destruct (Queue.entries (queue conn)) as [|json rest] eqn:He.
      * exists []. cbn [fst]. rewrite He. split; [reflexivity | congruence].
      * exists [json]. cbn. split; [reflexivity | intros _; exact Ha].
  - intros [-> | [why ->]]; cbn; repeat split.
Qed.

(** X9.  A reply that rejects the key (it contains ["error"] and
    [auth_error] or [invalid_api_key], and not ["registered"]) only raises
    [should_stop] and prints one line: the queue and the rest of the
    connection stay.  From there the service loop is left at once, the
    reconnect step breaks out without counting or sleeping, and the worker
    returns without another attempt, whatever the network would answer. *)
Theorem rejection_stops_the_worker :
  forall (pf : platform) (agent : aivory_agent_t) (cfg : aivory_config_t)
         (u : url_parts) (now last : Z) (conn : ws_connection_t) (data : string)
         (rounds : list service_round) (fuel : nat) (script : list attempt),
    (strlen data >? 0) = true ->
    strstr (cstr data) (js "'registered'") = false ->
    strstr (cstr data) (js "'type':'registered'") = false ->
    strstr (cstr data) (js "'error'") = true ->
    strstr (cstr data) "auth_error" || strstr (cstr data) "invalid_api_key" = true ->
    let stopped := set_should_stop conn true in
    ws_callback pf agent now conn (LWS_CALLBACK_CLIENT_RECEIVE (Some data) true)
    = (stopped, [Stderr "[AIVory Monitor] Authentication failed"])
    /\ service_loop pf agent rounds last stopped = (stopped, [], true)
    /\ reconnect cfg stopped = (stopped, [], false)
    /\ worker_loop pf agent cfg u (S fuel) script stopped
       = (stopped, [], ThreadReturned).
Proof.
  intros pf agent cfg u now last conn data rounds fuel script
         Hlen Hr1 Hr2 Herr Hauth stopped.
  split; [|split; [|split]].
  - cbn [ws_callback]. rewrite Hlen, Hr1, Hr2, Herr, Hauth. reflexivity.
  - destruct rounds; reflexivity.
  - reflexivity.
  - reflexivity.
Qed.

(** The theorem for the reply with the code [invalid_api_key]. *)
Lemma rejection_stops_the_worker_witness :
  let stopped := set_should_stop waiting_connection true in
  ws_callback linux_x86_64 example_agent 0 waiting_connection
    (LWS_CALLBACK_CLIENT_RECEIVE (Some rejection_reply) true)
  = (stopped, [Stderr "[AIVory Monitor] Authentication failed"])
  /\ service_loop linux_x86_64 example_agent [] 0 stopped = (stopped, [], true)
  /\ reconnect example_config stopped = (stopped, [], false)
  /\ worker_loop linux_x86_64 example_agent example_config
       {| url_host := "localhost"; url_port := 19999;
          url_path := "/api/monitor/agent/v1"; url_use_ssl := false |}
       (S 5) [authenticated_session] stopped
     = (stopped, [], ThreadReturned).
Proof.
  apply (rejection_stops_the_worker linux_x86_64 example_agent example_config
           {| url_host := "localhost"; url_port := 19999;
              url_path := "/api/monitor/agent/v1"; url_use_ssl := false |}
           0 0 waiting_connection rejection_reply [] 5 [authenticated_session]);
    reflexivity.
Defined.

End TransportMoreFacts.

(** ** The escape encoder and the fingerprint, further *)

Section BacktraceMoreFacts.
Import C Backtrace.

Local Open Scope string_scope.

Lemma escaped_ok_escape_char (c : ascii) (rest : string) :
  escaped_ok (escape_char c ++ rest) = escaped_ok rest.
Proof.
  unfold escape_char.
  destruct (Ascii.eqb_spec c dquote) as [->|N1]; [reflexivity|].
  destruct (Ascii.eqb_spec c backslash) as [->|N2]; [reflexivity|].
  destruct (Ascii.eqb_spec c newline) as [->|N3]; [reflexivity|].
  destruct (Ascii.eqb_spec c carriage_return) as [->|N4]; [reflexivity|].
  destruct (Ascii.eqb_spec c tab) as [->|N5]; [reflexivity|].
  cbn [str1 append escaped_ok]. unfold is_special.
  apply Ascii.eqb_neq in N1, N2, N3, N4, N5.
  now rewrite N1, N2, N3, N4, N5.
Qed.

(** X10.  What [escape_json_string] writes holds no bare double quote,
    newline, carriage return or tab, and every backslash in it starts one
    of the five escapes; two inputs with the same output are the same
    input; and NULL, like a failed allocation, gives the empty string. *)
Theorem escaped_output_is_clean :
  forall s : string,
    escaped_ok (escape_json_string true (Some s)) = true
    /\ (forall s' : string,
         escape_json_string true (Some s') = escape_json_string true (Some s) ->
         s' = s)
    /\ escape_json_string true None = EmptyString
    /\ escape_json_string false (Some s) = EmptyString.
Proof.
  intros s. cbn [escape_json_string]. split; [|split; [|split; reflexivity]].
  - induction s as [|c s IH]; [reflexivity|].
    now rewrite escape_loop_cons, escaped_ok_escape_char.
  - intros s' H.
    pose proof (unescape_escape_loop s') as H1. rewrite H in H1.
    rewrite unescape_escape_loop in H1. now injection H1.
Qed.

Lemma hash_type_app (pf : platform) (a b : string) (h : Z) :
  hash_type pf (a ++ b) h = hash_type pf b (hash_type pf a h).
Proof.
  revert h. induction a as [|c a IH]; intros h; [reflexivity|].
  cbn [append hash_type]. apply IH.
Qed.

(** The two loops read the hashed text, byte after byte. *)
Lemma fingerprint_hash_text (pf : platform) (type backtrace : option string) :
  fingerprint_hash pf type backtrace
  = hash_type pf (hashed_text type backtrace) 5381.
Proof.
  unfold fingerprint_hash, hashed_text. rewrite hash_type_app.
  destruct type as [t|], backtrace as [b|]; cbn [opt_string hash_type].
  - now rewrite hash_backtrace_take by lia.
  - reflexivity.
  - now rewrite hash_backtrace_take by lia.
  - reflexivity.
Qed.

(** X11.  The fingerprint reads its two arguments only through the type
    label followed by the first 500 bytes of the backtrace: calls that
    agree on that text get the same fingerprint.  So a backtrace that
    differs after its first 500 bytes, a NULL argument in place of an
    empty one, or the same bytes split otherwise between label and
    backtrace, all give the same fingerprint. *)
Theorem fingerprint_reads_hashed_text :
  forall (pf : platform) (ok : bool) (type backtrace type' backtrace' : option string),
    hashed_text type backtrace = hashed_text type' backtrace' ->
    aivory_calculate_fingerprint pf ok type backtrace
    = aivory_calculate_fingerprint pf ok type' backtrace'.
Proof.
  intros pf ok type backtrace type' backtrace' H.
  unfold aivory_calculate_fingerprint.
  now rewrite !fingerprint_hash_text, H.
Qed.

(** The theorem for two backtraces of 600 and 500 bytes, the second the
    start of the first. *)
Lemma fingerprint_reads_hashed_text_witness :
  aivory_calculate_fingerprint linux_x86_64 true
    (Some "SIGSEGV") (Some (long_backtrace 600))
  = aivory_calculate_fingerprint linux_x86_64 true
      (Some "SIGSEGV") (Some (long_backtrace 500)).
Proof.
  apply (fingerprint_reads_hashed_text linux_x86_64 true
           (Some "SIGSEGV") (Some (long_backtrace 600))
           (Some "SIGSEGV") (Some (long_backtrace 500))).
  vm_compute. reflexivity.
Defined.

End BacktraceMoreFacts.

(** ** The URL parser on every input *)

Section UrlMoreFacts.
Import C Transport.

Local Open Scope string_scope.

Lemma advance_cons (n : nat) (c : ascii) (s : string) :
  advance (S n) (String c s) = advance n s.
Proof. reflexivity. Qed.

Lemma advance_zero (s : string) : advance 0 s = s.
Proof. unfold advance. rewrite Nat.sub_0_r. apply take_all. Qed.

(** A string starts with its prefix. *)
Lemma prefix_split (a s : string) :
  String.prefix a s = true -> s = a ++ advance (String.length a) s.
Proof.
  revert s. induction a as [|x a IH]; intros s H.
  - cbn [String.length append]. now rewrite advance_zero.
  - destruct s as [|y s]; [discriminate|]. cbn [String.prefix] in H.
    destruct (ascii_dec x y) as [->|]; [|discriminate].
    cbn [String.length append]. rewrite advance_cons. f_equal. now apply IH.
Qed.

(** A string is a host followed by where the scan for its end stops, and
    the scan stops at a colon, a slash or the end. *)
Lemma host_end_split (p : string) :
  exists h : string,
    p = h ++ host_end_of p /\ host_ok h = true
    /\ match host_end_of p with
       | EmptyString => True
       | String c _ => Ascii.eqb c ":"%char || Ascii.eqb c "/"%char = true
       end.
Proof.
  induction p as [|c p (h & Hp & Hh & He)].
  - exists EmptyString. repeat split.
  - cbn [host_end_of].
    destruct (Ascii.eqb c ":" || Ascii.eqb c "/") eqn:E.
    + exists EmptyString. repeat split. exact E.
    + exists (String c h). cbn [append]. split; [now rewrite <- Hp|].
      split; [|exact He].
      unfold host_ok in *. cbn [list_ascii_of_string forallb].
      now rewrite E, Hh.
Qed.

Lemma take_length_le (n : nat) (s : string) : (String.length (take n s) <= n)%nat.
Proof.
  unfold take. revert s. induction n as [|n IH]; intros [|c s]; cbn; try lia.
  specialize (IH s). lia.
Qed.

(** The path [parse_url] leaves. *)
Lemma path_bounds (p : string) :
  let path := match p with
              | String c _ => if Ascii.eqb c "/"%char then take 511 p else "/"
              | EmptyString => "/"
              end in
  path_ok path = true /\ is_empty path = false /\ (strlen path <= 511)%Z.
Proof.
  destruct p as [|c p]; cbv zeta; [repeat split; cbn; lia|].
  destruct (Ascii.eqb_spec c "/") as [->|N]; [|repeat split; cbn; lia].
  pose proof (take_length_le 511 (String "/" p)) as Hl.
  unfold strlen. repeat split; try lia.
Qed.

(** X12.  Whatever the URL, when [parse_url] accepts it: the URL starts
    with [ws://] or [wss://], TLS being on exactly for the second; the host
    is what follows up to the first colon or slash, and has fewer than 256
    bytes, so that it fits [host[256]] with its terminator; the path
    starts with a slash and has at most 511 bytes, so that it fits
    [path[512]]; and without a colon after the host the port is 80 or
    443 by the scheme. *)
Theorem parse_url_result_fits :
  forall (pf : platform) (url : string) (u : url_parts),
    parse_url pf url = Some u ->
    exists rest : string,
      url = scheme_of (url_use_ssl u) ++ url_host u ++ rest
      /\ host_ok (url_host u) = true
      /\ (strlen (url_host u) < 256)%Z
      /\ path_ok (url_path u) = true
      /\ is_empty (url_path u) = false
      /\ (strlen (url_path u) <= 511)%Z
      /\ match rest with
         | EmptyString => url_port u = default_port (url_use_ssl u)
         | String c _ =>
             (Ascii.eqb c ":"%char = true
              \/ (Ascii.eqb c "/"%char = true
                  /\ url_port u = default_port (url_use_ssl u)))
         end.
Proof.
  intros pf url u H.
  assert (Hs : exists tls rest, url = scheme_of tls ++ rest).
  { unfold parse_url in H.
    destruct (String.prefix "wss://" url) eqn:P1.
    - exists true, (advance 6 url). exact (prefix_split "wss://" url P1).
    - destruct (String.prefix "ws://" url) eqn:P2; [|discriminate].
      exists false, (advance 5 url). exact (prefix_split "ws://" url P2). }
  destruct Hs as (tls & rest & ->).
  rewrite parse_url_after_scheme in H. cbv zeta in H.
  destruct (host_end_split rest) as (h & Hrest & Hh & Hend).
  assert (Hlen : (strlen rest - strlen (host_end_of rest))%Z = strlen h).
  { rewrite Hrest at 1. unfold strlen. rewrite length_append. lia. }
  rewrite Hlen in H.
  destruct (Z.geb_spec (strlen h) 256) as [Hge|Hlt]; [discriminate|].
  assert (Hhost : take (Z.to_nat (strlen h)) rest = h).
  { unfold strlen. rewrite Nat2Z.id. rewrite Hrest at 1. apply take_append. }
  rewrite Hhost in H.
  exists (host_end_of rest).
  destruct (host_end_of rest) as [|c tail] eqn:E.
  - injection H as <-. cbn [url_use_ssl url_host url_path url_port].
    rewrite <- Hrest. repeat split; try assumption; cbn; lia.
  - destruct (Ascii.eqb_spec c ":") as [->|N].
    + injection H as <-. cbn [url_use_ssl url_host url_path url_port].
      rewrite <- Hrest.
      destruct (path_bounds (skip_to_slash tail)) as (P1 & P2 & P3).
      repeat split; try assumption. now left.
    + assert (Hc : Ascii.eqb c "/" = true).
      { exact Hend. }
      injection H as <-. cbn [url_use_ssl url_host url_path url_port].
      rewrite <- Hrest.
      destruct (path_bounds (String c tail)) as (P1 & P2 & P3).
      repeat split; try assumption. right. now split.
Qed.

(** The theorem for the default backend URL of the agent. *)
Lemma parse_url_result_fits_witness :
  exists rest : string,
    "wss://api.aivory.net/monitor/agent"
    = scheme_of true ++ "api.aivory.net" ++ rest
    /\ host_ok "api.aivory.net" = true
    /\ (strlen "api.aivory.net" < 256)%Z
    /\ path_ok "/monitor/agent" = true
    /\ is_empty "/monitor/agent" = false
    /\ (strlen "/monitor/agent" <= 511)%Z
    /\ match rest with
       | EmptyString => 443%Z = default_port true
       | String c _ =>
           (Ascii.eqb c ":"%char = true
            \/ (Ascii.eqb c "/"%char = true /\ 443%Z = default_port true))
       end.
Proof.
  apply (parse_url_result_fits linux_x86_64 "wss://api.aivory.net/monitor/agent"
           {| url_host := "api.aivory.net"; url_port := 443;
              url_path := "/monitor/agent"; url_use_ssl := true |}).
  reflexivity.
Defined.

End UrlMoreFacts.

(** ** Shutdown and the signal dispositions *)

Section LifecycleFacts.
Import C Agent.

(** X13.  [aivory_shutdown] does nothing on an agent that is not
    initialised.  On one that is, it leaves the zeroed agent, no
    connection and no agent reference for the signal handler; a second
    shutdown then does nothing; and an [aivory_init] with a key succeeds
    again. *)
Theorem shutdown_resets_the_agent :
  forall (w : world) (env : init_env) (c : aivory_config_t) (key : string),
    (initialized (g_agent w) = false -> aivory_shutdown w = (w, []))
    /\ (initialized (g_agent w) = true ->
        let w' := fst (aivory_shutdown w) in
        g_agent w' = agent_zero
        /\ g_connection w' = None
        /\ Signal.g_agent_ref (g_signals w') = false
        /\ aivory_is_initialized w' = false
        /\ aivory_shutdown w' = (w', [])
        /\ (api_key c = Some key -> key_is_empty key = false ->
            fst (fst (aivory_init env (Some c) w')) = 0
            /\ aivory_is_initialized (snd (fst (aivory_init env (Some c) w'))) = true)).
Proof.
  intros w env c key. split.
  - intros H. unfold aivory_shutdown. now rewrite H.
  - intros H w'.
    assert (Hw : w' = {| g_agent := agent_zero; g_connection := None;
                         g_signals := fst (Signal.aivory_uninstall_signal_handlers
                                             (g_signals w)) |}).
    { subst w'. unfold aivory_shutdown. rewrite H. cbn [negb].
      unfold Signal.aivory_uninstall_signal_handlers,
             Transport.aivory_ws_disconnect.
      now destruct (g_connection w). }
    rewrite Hw. cbn [g_agent g_connection g_signals fst
                     Signal.aivory_uninstall_signal_handlers Signal.g_agent_ref].
    do 5 (split; [reflexivity|]).
    intros Hkey Hne.
    match goal with
    | |- context [aivory_init env (Some c) ?x] =>
        destruct (aivory_init_with_key env c key x eq_refl Hkey Hne)
          as (H0 & H1 & _)
    end.
    split; assumption.
Qed.

(** X14.  An [aivory_init] that succeeds followed by [aivory_shutdown]
    leaves the dispositions of the five signals as they were before when
    the configuration captures signals.  When it does not, the shutdown
    still puts back what [g_original_*] holds, which nothing has saved:
    in a fresh process the five signals go to their default, whatever the
    host had installed. *)
Theorem init_then_shutdown_dispositions :
  forall (env : init_env) (c : aivory_config_t) (key : string) (w : world),
    initialized (g_agent w) = false ->
    api_key c = Some key -> key_is_empty key = false ->
    let after :=
      fst (aivory_shutdown (snd (fst (aivory_init env (Some c) w)))) in
    Signal.disposition (g_signals after)
    = (if capture_signals c
       then Signal.disposition (g_signals w)
       else Signal.g_original (g_signals w))
    /\ (forall d : Signal.sigtable,
         w = world_zero d ->
         Signal.disposition (g_signals after)
         = if capture_signals c then d else Signal.all_default).
Proof.
  intros env c key w Hinit Hkey Hne after.
  assert (H : Signal.disposition (g_signals after)
              = if capture_signals c
                then Signal.disposition (g_signals w)
                else Signal.g_original (g_signals w)).
  { subst after. unfold aivory_init. rewrite Hinit, Hkey, Hne.
    unfold Transport.aivory_ws_connect.
    destruct (g_connection w), (conn_ok env), (thread_ok env),
      (capture_signals c); reflexivity. }
  split; [exact H|].
  intros d ->. rewrite H. now destruct (capture_signals c).
Qed.

(** The theorem for a host that handles SIGSEGV itself and a configuration
    that does not capture signals. *)
Lemma init_then_shutdown_dispositions_witness :
  let c :=
    {| api_key := Some "k"%string; backend_url := "ws://h/"%string;
       environment := "production"%string; sampling_rate := 1%float;
       max_capture_depth := 10; max_string_length := 1000;
       max_collection_size := 100; debug := false;
       capture_signals := false |} in
  let w := world_zero Signal.host_handles_sigsegv in
  let after :=
    fst (aivory_shutdown (snd (fst (aivory_init example_init_env (Some c) w)))) in
  Signal.disposition (g_signals after)
  = (if capture_signals c
     then Signal.disposition (g_signals w)
     else Signal.g_original (g_signals w))
  /\ (forall d : Signal.sigtable,
       w = world_zero d ->
       Signal.disposition (g_signals after)
       = if capture_signals c then d else Signal.all_default).
Proof.
  apply (init_then_shutdown_dispositions example_init_env
           {| api_key := Some "k"%string; backend_url := "ws://h/"%string;
              environment := "production"%string; sampling_rate := 1%float;
              max_capture_depth := 10; max_string_length := 1000;
              max_collection_size := 100; debug := false;
              capture_signals := false |}
           "k" (world_zero Signal.host_handles_sigsegv));
    reflexivity.
Defined.

End LifecycleFacts.

(** ** The signal handler, further *)

Section SignalMoreFacts.
Import C Signal.


(** The handler of an initialised agent, entered with the flag clear. *)
Lemma signal_handler_with_report (pf : platform) (agent : aivory_agent_t)
    (env : handler_env) (sig : Z) (si_addr : option Z) (s : signal_state)
    (g : option Transport.ws_connection_t) :
  g_handling_signal s = 0 ->
  g_agent_ref s && initialized agent = true ->
  let record :=
    signal_record pf agent sig si_addr
      (Backtrace.aivory_calculate_fingerprint pf (env_fingerprint_ok env)
         (Some (signal_name sig)) (env_backtrace env))
      (env_backtrace env) (env_timestamp env) (handler_now env) in
  signal_handler pf agent env sig si_addr s g
  = if env_gmtime_fits env then
      let '(g', eff1) :=
        if (snprintf_result record >? 0) && (snprintf_result record <? 8192)
        then let (g', sent) :=
               Transport.aivory_ws_send_exception agent (env_entry_ok env) g
                 (Some record) in
             (g', [Capture 2] ++ sent ++ [Usleep 100000])
        else (g, [Capture 2]) in
      ({| disposition :=
            set_disposition (disposition s) sig (restored_handler s sig);
          g_original := g_original s; g_agent_ref := g_agent_ref s;
          g_handling_signal := 1 |},
       g', HandlingSignal 1 :: eff1 ++ [restoring_effect s sig; Raise sig],
       HandlerReturned)
    else (set_handling s, g, [HandlingSignal 1; Capture 2], HandlerFaulted).
Proof.
  intros H0 Hyes record. unfold signal_handler. rewrite H0. cbn [Z.eqb negb].
  unfold handler_work, restoring_effect, restored_handler.
  cbn [set_handling g_agent_ref g_original disposition g_handling_signal].
  rewrite Hyes. fold record.
  destruct (env_gmtime_fits env); cbn [negb]; [|reflexivity].
  destruct ((snprintf_result record >? 0) && (snprintf_result record <? 8192)).
  - destruct (Transport.aivory_ws_send_exception agent (env_entry_ok env) g
                (Some record)) as [g' sent].
    destruct (original_of (g_original s) sig) as [[| |id|]|]; reflexivity.
  - destruct (original_of (g_original s) sig) as [[| |id|]|]; reflexivity.
Qed.



Lemma signal_record_nonempty (pf : platform) (agent : aivory_agent_t) (sig : Z)
    (si_addr : option Z) (fingerprint backtrace : option string)
    (timestamp : string) (now : Z) :
  0 < strlen (signal_record pf agent sig si_addr fingerprint backtrace
                timestamp now).
Proof. unfold signal_record, strlen. cbn. lia. Qed.

(** X16.  For an initialised agent whose time calls work, a first entry
    of the handler hands the crash record to the transport, and then
    sleeps 100 ms, only when the formatted record is shorter than the 8192
    bytes of its buffer; a longer record (a long backtrace) is not sent at
    all, and the handler goes straight to restoring and re-raising.  When
    the pointer of [gmtime] does not survive its cut to [int], no record
    is formatted: the connection is left alone and nothing follows the
    backtrace capture.  The sampling rate plays no part: the handler does
    the same for every rate. *)
Theorem signal_record_must_fit :
  forall (pf : platform) (agent : aivory_agent_t) (env : handler_env)
         (sig : Z) (si_addr : option Z) (s : signal_state)
         (g : option Transport.ws_connection_t) (rate : float),
    g_handling_signal s = 0 ->
    g_agent_ref s = true ->
    initialized agent = true ->
    let record :=
      signal_record pf agent sig si_addr
        (Backtrace.aivory_calculate_fingerprint pf (env_fingerprint_ok env)
           (Some (signal_name sig)) (env_backtrace env))
        (env_backtrace env) (env_timestamp env) (handler_now env) in
    let r := signal_handler pf agent env sig si_addr s g in
    (env_gmtime_fits env = true ->
       (8192 <= strlen record ->
          snd (fst (fst r)) = g
          /\ snd (fst r)
             = [HandlingSignal 1; Capture 2; restoring_effect s sig; Raise sig])
       /\ (strlen record < 8192 ->
           snd (fst (fst r))
           = fst (Transport.aivory_ws_send_exception agent (env_entry_ok env) g
                    (Some record))
           /\ snd (fst r)
              = [HandlingSignal 1; Capture 2]
                ++ snd (Transport.aivory_ws_send_exception agent
                          (env_entry_ok env) g (Some record))
                ++ [Usleep 100000; restoring_effect s sig; Raise sig]))
    /\ (env_gmtime_fits env = false ->
        snd (fst (fst r)) = g
        /\ snd (fst r) = [HandlingSignal 1; Capture 2]
        /\ snd r = HandlerFaulted)
    /\ signal_handler pf (Agent.agent_with_sampling_rate rate agent)
         env sig si_addr s g
       = r.
Proof.
  intros pf agent env sig si_addr s g rate H0 Href Hinit record r.
  pose proof (signal_record_nonempty pf agent sig si_addr
                (Backtrace.aivory_calculate_fingerprint pf (env_fingerprint_ok env)
                   (Some (signal_name sig)) (env_backtrace env))
                (env_backtrace env) (env_timestamp env) (handler_now env))
    as Hpos.
  fold record in Hpos.
  assert (Hrep : g_agent_ref s && initialized agent = true)
    by now rewrite Href, Hinit.
  pose proof (signal_handler_with_report pf agent env sig si_addr s g H0 Hrep)
    as Hr.
  cbv zeta in Hr. fold record in Hr. fold r in Hr.
  split; [|split].
  - intros Hfit. rewrite Hfit in Hr. split.
    + intros Hbig. rewrite Hr. unfold snprintf_result.
      destruct (strlen record <? 2 ^ 31).
      * replace (strlen record <? 8192) with false by lia.
        rewrite andb_false_r. now split.
      * now split.
    + intros Hsmall. rewrite Hr. unfold snprintf_result.
      replace (strlen record <? 2 ^ 31) with true by lia.
      replace (strlen record >? 0) with true by lia.
      replace (strlen record <? 8192) with true by lia. cbn [andb].
      destruct (Transport.aivory_ws_send_exception agent (env_entry_ok env) g
                  (Some record)) as [g' sent].
      cbn [fst snd]. split; [reflexivity|].
      cbn [app]. now rewrite <- !app_assoc.
  - intros Hcut. rewrite Hcut in Hr. rewrite Hr. now repeat split.
  - subst r. destruct agent as [[cfg|] id host ctx usr conn ini cnd]; reflexivity.
Qed.

(** The theorem for a SIGSEGV with a backtrace of 9000 bytes, in a
    program whose time calls work. *)
Lemma signal_record_must_fit_witness :
  let env :=
    {| env_backtrace := Some (Backtrace.long_backtrace (Z.to_nat 9000));
       env_fingerprint_ok := true; env_now := 1700000000;
       env_gmtime_fits := true;
       env_timestamp := "2023-11-14T22:13:20Z"%string; env_entry_ok := true |} in
  let g := Some Transport.connection_init in
  let record :=
    signal_record linux_x86_64 example_agent SIGSEGV (Some 16)
      (Backtrace.aivory_calculate_fingerprint linux_x86_64 (env_fingerprint_ok env)
         (Some (signal_name SIGSEGV)) (env_backtrace env))
      (env_backtrace env) (env_timestamp env) (handler_now env) in
  let r := signal_handler linux_x86_64 example_agent env SIGSEGV (Some 16)
             installed_signals g in
  (env_gmtime_fits env = true ->
     (8192 <= strlen record ->
        snd (fst (fst r)) = g
        /\ snd (fst r)
           = [HandlingSignal 1; Capture 2;
              restoring_effect installed_signals SIGSEGV; Raise SIGSEGV])
     /\ (strlen record < 8192 ->
         snd (fst (fst r))
         = fst (Transport.aivory_ws_send_exception example_agent
                  (env_entry_ok env) g (Some record))
         /\ snd (fst r)
            = [HandlingSignal 1; Capture 2]
              ++ snd (Transport.aivory_ws_send_exception example_agent
                        (env_entry_ok env) g (Some record))
              ++ [Usleep 100000; restoring_effect installed_signals SIGSEGV;
                  Raise SIGSEGV]))
  /\ (env_gmtime_fits env = false ->
      snd (fst (fst r)) = g
      /\ snd (fst r) = [HandlingSignal 1; Capture 2]
      /\ snd r = HandlerFaulted)
  /\ signal_handler linux_x86_64
       (Agent.agent_with_sampling_rate 0%float example_agent)
       env SIGSEGV (Some 16) installed_signals g
     = r.
Proof.
  apply (signal_record_must_fit linux_x86_64 example_agent
           {| env_backtrace := Some (Backtrace.long_backtrace (Z.to_nat 9000));
              env_fingerprint_ok := true; env_now := 1700000000;
              env_gmtime_fits := true;
              env_timestamp := "2023-11-14T22:13:20Z"%string;
              env_entry_ok := true |}
           SIGSEGV (Some 16) installed_signals (Some Transport.connection_init)
           0%float); reflexivity.
Defined.

End SignalMoreFacts.

(** * Reports: [aivory_capture_error_with_context], [aivory_set_context],
      [aivory_set_user], [aivory_config_default] *)

Section CaptureFacts.
Import C Agent.

Lemma debug_log_no_write (agent : aivory_agent_t) (line frame : string) :
  ~ In (Write frame) (Transport.debug_log agent line).
Proof.
  unfold Transport.debug_log. destruct (agent_debug agent); cbn; [|tauto].
  intros [H|[]]. discriminate H.
Qed.

(** X17.  A report that is sampled, whether because the rate is 1 or
    more or because the draw passes, and made while the session is not
    authenticated, is not written to the socket: the record, shorter than
    65536 bytes, goes to the tail of the queue, after the entries already
    waiting, and the oldest of them is dropped if there were 100. *)
Theorem capture_error_queues_record :
  forall (pf : platform) (env : capture_env) (message file : option string)
         (line : Z) (context_json : option string) (w : world) (draws : list Z)
         (cfg : aivory_config_t) (conn : Transport.ws_connection_t)
         (record : string),
    initialized (g_agent w) = true ->
    config (g_agent w) = Some cfg ->
    fst (aivory_should_sample cfg draws) = true ->
    env_json_ok env = true ->
    env_entry_ok env = true ->
    g_connection w = Some conn ->
    Transport.is_authenticated (Transport.state conn)
      && Transport.authenticated conn = false ->
    Queue.wf (Transport.queue conn) ->
    snd (aivory_capture_error_with_context pf env message file line
           context_json w draws) = Some record ->
    exists (conn' : Transport.ws_connection_t) (eff : list effect),
      aivory_capture_error_with_context pf env message file line context_json
        w draws
      = (Some conn', snd (aivory_should_sample cfg draws), eff, Some record)
      /\ 0 < strlen record < 65536
      /\ (forall frame : string, ~ In (Write frame) eff)
      /\ Queue.entries (Transport.queue conn')
         = (if Queue.count (Transport.queue conn) =? AIVORY_MESSAGE_QUEUE_SIZE
            then tl (Queue.entries (Transport.queue conn))
            else Queue.entries (Transport.queue conn)) ++ [record]
      /\ Queue.wf (Transport.queue conn')
      /\ Transport.state conn' = Transport.state conn
      /\ Transport.authenticated conn' = Transport.authenticated conn.
Proof.
  intros pf env message file line context_json w draws cfg conn record
         Hinit Hcfg Hs Hjson Hentry Hconn Hauth Hwf Hrec.
  exists (Transport.set_queue conn
            (Queue.queue_push true (Transport.queue conn) record)).
  exists ([Capture 2]
          ++ Transport.debug_log (g_agent w)
               "[AIVory Monitor] Message queued (not authenticated)").
  assert (Hrun : aivory_capture_error_with_context pf env message file line
                   context_json w draws
                 = (Some (Transport.set_queue conn
                            (Queue.queue_push true (Transport.queue conn) record)),
                    snd (aivory_should_sample cfg draws),
                    [Capture 2]
                    ++ Transport.debug_log (g_agent w)
                         "[AIVory Monitor] Message queued (not authenticated)",
                    Some record)
                 /\ 0 < strlen record < 65536).
  { revert Hrec. unfold aivory_capture_error_with_context.
    rewrite Hinit, Hcfg.
    destruct (aivory_should_sample cfg draws) as [sampled draws'].
    cbn [fst snd] in *. subst sampled. rewrite Hjson. cbn [negb].
    set (json := exception_record _ _ _ _ _ _ _ _ _).
    destruct ((snprintf_result json >? 0) && (snprintf_result json <? 65536))
      eqn:Hlen; [|discriminate].
    unfold Transport.aivory_ws_send_exception.
    rewrite Hconn, Hauth, Hentry. cbn [snd]. intros H. injection H as <-.
    split; [reflexivity|].
    apply andb_prop in Hlen. destruct Hlen as [H1 H2].
    unfold snprintf_result in H1, H2.
    destruct (strlen json <? 2 ^ 31); [lia|discriminate H1]. }
  destruct Hrun as [Hrun Hlen].
  split; [exact Hrun|]. split; [exact Hlen|].
  split; [|split; [|split; [|split]]].
  - intros frame [H|H]; [discriminate H|].
    exact (debug_log_no_write _ _ _ H).
  - destruct conn; cbn [Transport.set_queue Transport.queue] in *.
    exact (proj1 (push_ok_shape _ record Hwf)).
  - destruct conn; cbn [Transport.set_queue Transport.queue] in *.
    now apply queue_push_wf.
  - now destruct conn.
  - now destruct conn.
Qed.

(** The theorem on the world a first initialisation leaves, whose
    connection has not been authenticated yet, for a rate of one half and
    a draw of 0. *)
Lemma capture_error_queues_record_witness :
  let w := with_agent (agent_with_sampling_rate 0.5%float (g_agent example_world))
             example_world in
  let record :=
    exception_record linux_x86_64 (g_agent w)
      (Some "boom"%string) (Some "f.c"%string) None
      (Backtrace.aivory_calculate_fingerprint linux_x86_64 true
         (Some "Error"%string) (Some "[]"%string))
      (Some "[]"%string) "2023-11-14T22:13:20Z" 1700000000 in
  exists (conn' : Transport.ws_connection_t) (eff : list effect),
    aivory_capture_error_with_context linux_x86_64 example_capture_env
      (Some "boom"%string) (Some "f.c"%string) 42 None w [0]
    = (Some conn',
       snd (aivory_should_sample
              (with_sampling_rate 0.5%float example_config) [0]),
       eff, Some record)
    /\ 0 < strlen record < 65536
    /\ (forall frame : string, ~ In (Write frame) eff)
    /\ Queue.entries (Transport.queue conn')
       = (if Queue.count (Transport.queue Transport.connection_init)
             =? AIVORY_MESSAGE_QUEUE_SIZE
          then tl (Queue.entries (Transport.queue Transport.connection_init))
          else Queue.entries (Transport.queue Transport.connection_init))
         ++ [record]
    /\ Queue.wf (Transport.queue conn')
    /\ Transport.state conn' = Transport.state Transport.connection_init
    /\ Transport.authenticated conn'
       = Transport.authenticated Transport.connection_init.
Proof.
  apply (capture_error_queues_record linux_x86_64 example_capture_env
           (Some "boom"%string) (Some "f.c"%string) 42 None
           (with_agent
              (agent_with_sampling_rate 0.5%float (g_agent example_world))
              example_world)
           [0] (with_sampling_rate 0.5%float example_config)
           Transport.connection_init);
    try reflexivity.
  exact queue_init_wf.
Defined.

(** Closes a goal whose hypothesis says that the agent is not initialised
    or samples nothing, when the context says otherwise. *)
Ltac no_quiet :=
  let H := fresh "H" in
  let cfg0 := fresh "cfg0" in
  let H0 := fresh "H" in
  let H1 := fresh "H" in
  let E := fresh "E" in
  intros H; exfalso; destruct H as [H|(cfg0 & H0 & H1)];
  [discriminate H
  |injection H0 as E; subst cfg0;
   pose proof (guards_exclusive _ H1); congruence].

(** X18.  Every call of [aivory_capture_error_with_context] either hands
    one record to the transport or leaves the connection alone and writes
    nothing to the socket.  A record handed over is never empty and is
    shorter than 65536 bytes, and the agent was initialised.  The call
    draws at most one random number.  On an agent that is not
    initialised, or whose sampling rate is zero or less, the call does
    nothing at all: no draw, no backtrace, no record. *)
Theorem capture_error_hands_over_or_leaves :
  forall (pf : platform) (env : capture_env) (message file : option string)
         (line : Z) (context_json : option string) (w : world) (draws : list Z),
    let '(conn', draws', eff, record) :=
      aivory_capture_error_with_context pf env message file line context_json
        w draws in
    (record = None ->
       conn' = g_connection w /\ forall frame : string, ~ In (Write frame) eff)
    /\ (forall json : string,
          record = Some json ->
          0 < strlen json < 65536
          /\ initialized (g_agent w) = true
          /\ exists sent : list effect,
               eff = Capture 2 :: sent
               /\ Transport.aivory_ws_send_exception (g_agent w)
                    (env_entry_ok env) (g_connection w) (Some json)
                  = (conn', sent))
    /\ (draws' = draws \/ draws' = tl draws)
    /\ (initialized (g_agent w) = false
        \/ (exists cfg : aivory_config_t,
              config (g_agent w) = Some cfg
              /\ (sampling_rate cfg <=? 0)%float = true) ->
        conn' = g_connection w /\ draws' = draws /\ eff = [] /\ record = None).
Proof.
  intros pf env message file line context_json w draws.
  unfold aivory_capture_error_with_context.
  assert (Hnone : forall (d : list Z) (e : list effect),
            (forall frame : string, ~ In (Write frame) e) ->
            (d = draws \/ d = tl draws) ->
            (initialized (g_agent w) = false
             \/ (exists cfg : aivory_config_t,
                   config (g_agent w) = Some cfg
                   /\ (sampling_rate cfg <=? 0)%float = true) ->
             d = draws /\ e = []) ->
            let '(conn', draws', eff, record) :=
              (g_connection w, d, e, @None string) in
            (record = None ->
               conn' = g_connection w
               /\ forall frame : string, ~ In (Write frame) eff)
            /\ (forall json : string,
                  record = Some json ->
                  0 < strlen json < 65536
                  /\ initialized (g_agent w) = true
                  /\ exists sent : list effect,
                       eff = Capture 2 :: sent
                       /\ Transport.aivory_ws_send_exception (g_agent w)
                            (env_entry_ok env) (g_connection w) (Some json)
                          = (conn', sent))
            /\ (draws' = draws \/ draws' = tl draws)
            /\ (initialized (g_agent w) = false
                \/ (exists cfg : aivory_config_t,
                      config (g_agent w) = Some cfg
                      /\ (sampling_rate cfg <=? 0)%float = true) ->
                conn' = g_connection w /\ draws' = draws /\ eff = []
                /\ record = None)).
  { intros d e Hw Hd Hz. split; [|split; [|split]].
    - intros _. split; [reflexivity|exact Hw].
    - intros json H. discriminate H.
    - exact Hd.
    - intros H. destruct (Hz H) as [H1 H2]. now repeat split. }
  assert (Hnil : forall frame : string, ~ In (Write frame) []).
  { intros frame []. }
  assert (Hcap : forall frame : string, ~ In (Write frame) [Capture 2]).
  { intros frame [H|[]]. discriminate H. }
  destruct (initialized (g_agent w)) eqn:Hinit; cbn [negb].
  2:{ apply Hnone; [exact Hnil|now left|]. intros _. now split. }
  destruct (config (g_agent w)) as [cfg|] eqn:Hcfg.
  2:{ apply Hnone; [exact Hnil|now left|]. intros _. now split. }
  unfold aivory_should_sample.
  destruct (1 <=? sampling_rate cfg)%float eqn:Hone.
  - cbn [negb].
    destruct (env_json_ok env); cbn [negb].
    2:{ apply Hnone; [exact Hcap|now left|].
        no_quiet. }
    set (json := exception_record _ _ _ _ _ _ _ _ _).
    destruct ((snprintf_result json >? 0) && (snprintf_result json <? 65536))
      eqn:Hlen.
    2:{ apply Hnone; [exact Hcap|now left|].
        no_quiet. }
    destruct (Transport.aivory_ws_send_exception (g_agent w) (env_entry_ok env)
                (g_connection w) (Some json)) as [g' sent] eqn:Hsend.
    split; [|split; [|split]].
    + intros H. discriminate H.
    + intros json0 H. injection H as <-.
      apply andb_prop in Hlen. destruct Hlen as [H1 H2].
      unfold snprintf_result in H1, H2.
      destruct (strlen json <? 2 ^ 31); [|discriminate H1].
      split; [lia|]. split; [reflexivity|].
      exists sent. split; [reflexivity|exact Hsend].
    + now left.
    + no_quiet.
  - destruct (sampling_rate cfg <=? 0)%float eqn:Hlow.
    + cbn [negb]. apply Hnone; [exact Hnil|now left|]. intros _. now split.
    + assert (Hd : snd (rand draws) = draws \/ snd (rand draws) = tl draws).
      { destruct draws; cbn; [now left|now right]. }
      destruct (rand draws) as [r draws'] eqn:Hrand. cbn [snd] in Hd.
      destruct (double_of_int r / double_of_int RAND_MAX <? sampling_rate cfg)%float;
        cbn [negb].
      2:{ apply Hnone; [exact Hnil|exact Hd|]. no_quiet. }
      destruct (env_json_ok env); cbn [negb].
      2:{ apply Hnone; [exact Hcap|exact Hd|]. no_quiet. }
      set (json := exception_record _ _ _ _ _ _ _ _ _).
      destruct ((snprintf_result json >? 0) && (snprintf_result json <? 65536))
        eqn:Hlen.
      2:{ apply Hnone; [exact Hcap|exact Hd|]. no_quiet. }
      destruct (Transport.aivory_ws_send_exception (g_agent w) (env_entry_ok env)
                  (g_connection w) (Some json)) as [g' sent] eqn:Hsend.
      split; [|split; [|split]].
      * intros H. discriminate H.
      * intros json0 H. injection H as <-.
        apply andb_prop in Hlen. destruct Hlen as [H1 H2].
        unfold snprintf_result in H1, H2.
        destruct (strlen json <? 2 ^ 31); [|discriminate H1].
        split; [lia|]. split; [reflexivity|].
        exists sent. split; [reflexivity|exact Hsend].
      * exact Hd.
      * no_quiet.
Qed.

(** *** The context object of a report *)

Lemma capture_record (pf : platform) (env : capture_env)
    (message file : option string) (line : Z) (context_json : option string)
    (w : world) (draws : list Z) (json : string) :
  snd (aivory_capture_error_with_context pf env message file line context_json
         w draws) = Some json ->
  json = exception_record pf (g_agent w) message file context_json
           (Backtrace.aivory_calculate_fingerprint pf (env_fingerprint_ok env)
              (Some "Error"%string) (env_backtrace env))
           (env_backtrace env) (env_timestamp env) (env_now env).
Proof.
  unfold aivory_capture_error_with_context.
  destruct (initialized (g_agent w)); cbn [negb]; [|discriminate].
  destruct (config (g_agent w)) as [cfg|]; [|discriminate].
  destruct (aivory_should_sample cfg draws) as [[|] draws']; cbn [negb];
    [|discriminate].
  destruct (env_json_ok env); cbn [negb]; [|discriminate].
  match goal with
  | |- context [if ?b then _ else _] => destruct b
  end; [|discriminate].
  destruct (Transport.aivory_ws_send_exception _ _ _ _) as [g' sent].
  cbn [snd]. intros H. now injection H.
Qed.

(** X26.  The line number given to [aivory_capture_error_with_context]
    plays no part in what it does.  And in every record made for a file
    name without a context, as [aivory_capture_error] and the macro
    [AIVORY_CAPTURE_ERROR] make them, the context object is the file
    member followed by a comma and the closing brace. *)
Theorem report_context_object :
  forall (pf : platform) (env : capture_env) (message : option string)
         (f : string) (line : Z) (w : world) (draws : list Z),
    (forall (file context_json : option string) (line' : Z),
       aivory_capture_error_with_context pf env message file line'
         context_json w draws
       = aivory_capture_error_with_context pf env message file line
           context_json w draws)
    /\ (forall json : string,
          snd (aivory_capture_error pf env message (Some f) line w draws)
          = Some json ->
          exists before after : string,
            json = (before
                    ++ js "'local_variables':{},'context':{'file':'" ++ f
                    ++ js "',},'captured_at':'" ++ after)%string).
Proof.
  intros pf env message f line w draws. split; [reflexivity|].
  intros json H. unfold aivory_capture_error in H.
  apply capture_record in H. subst json.
  exists (js "{'type':'exception','payload':{'id':'"
          ++ fmt_s (agent_id (g_agent w))
          ++ js "','exception_type':'Error','message':'"
          ++ match message with Some m => m | None => EmptyString end
          ++ js "','fingerprint':'"
          ++ match Backtrace.aivory_calculate_fingerprint pf
                     (env_fingerprint_ok env) (Some "Error"%string)
                     (env_backtrace env)
             with Some fp => fp | None => EmptyString end
          ++ js "','stack_trace':"
          ++ match env_backtrace env with Some b => b | None => "[]" end
          ++ ",")%string.
  eexists. unfold exception_record.
  repeat (rewrite append_assoc || (progress cbn [String.append js])).
  reflexivity.
Qed.

(** *** Context and user *)

Lemma capture_ignores_context_and_user (pf : platform) (env : capture_env)
    (message file : option string) (line : Z) (context_json : option string)
    (w : world) (draws : list Z) (ctx user : option string) :
  aivory_capture_error_with_context pf env message file line context_json
    (with_agent (set_user_json user (aivory_set_context ctx (g_agent w))) w)
    draws
  = aivory_capture_error_with_context pf env message file line context_json
      w draws.
Proof.
  destruct w as [[cfg id host c0 u0 conn init connd] g s].
  destruct cfg as [[key url e rate d1 d2 d3 dbg cs]|]; reflexivity.
Qed.

Lemma set_user_stored (json_ok : bool) (user_id email username : option string)
    (a a' : aivory_agent_t) :
  aivory_set_user json_ok user_id email username a = UserStored a' ->
  exists user : option string,
    a' = set_user_json user (aivory_set_context (custom_context a) a).
Proof.
  unfold aivory_set_user. intros H.
  assert (Hsame : a = set_user_json (user_json a)
                        (aivory_set_context (custom_context a) a)).
  { now destruct a. }
  assert (Hset : forall u : option string,
            set_user_json u a
            = set_user_json u (aivory_set_context (custom_context a) a)).
  { intros u. now destruct a. }
  destruct user_id, email, username, json_ok; cbn [negb] in H;
    repeat match type of H with
           | (if ?b then _ else _) = _ => destruct b
           | match ?u with Some _ => _ | None => _ end = _ => destruct u eqn:?
           end;
    try discriminate H; injection H as <-;
    try (eexists; apply Hset);
    eexists; exact Hsame.
Qed.

(** X19.  The custom context and the user set on the agent reach no
    report: after [aivory_set_context] and after an [aivory_set_user] that
    stores its text, [aivory_capture_error_with_context], the signal
    handler and the register frame do exactly what they did before, for
    every input. *)
Theorem context_and_user_reach_no_report :
  forall (pf : platform) (w : world) (ctx : option string) (json_ok : bool)
         (user_id email username : option string) (a' : aivory_agent_t),
    let a0 := aivory_set_context ctx (g_agent w) in
    aivory_set_user json_ok user_id email username a0 = UserStored a' ->
    (forall (env : capture_env) (message file : option string) (line : Z)
            (context_json : option string) (draws : list Z),
       aivory_capture_error_with_context pf env message file line context_json
         (with_agent a' w) draws
       = aivory_capture_error_with_context pf env message file line
           context_json w draws)
    /\ (forall (env : Signal.handler_env) (sig : Z) (si_addr : option Z)
               (s : Signal.signal_state)
               (conn : option Transport.ws_connection_t),
          Signal.signal_handler pf a' env sig si_addr s conn
          = Signal.signal_handler pf (g_agent w) env sig si_addr s conn)
    /\ (forall now : Z,
          Transport.build_register_message pf now a'
          = Transport.build_register_message pf now (g_agent w)).
Proof.
  intros pf w ctx json_ok user_id email username a' a0 H.
  destruct (set_user_stored _ _ _ _ _ _ H) as [user ->].
  subst a0.
  split; [|split].
  - intros env message file line context_json draws.
    rewrite <- (capture_ignores_context_and_user pf env message file line
                  context_json w draws ctx user).
    now destruct w as [[cfg id host c0 u0 conn init connd] g s].
  - intros env sig si_addr s conn.
    destruct w as [[cfg id host c0 u0 conn0 init connd] g s0].
    destruct cfg as [[key url e rate d1 d2 d3 dbg cs]|]; reflexivity.
  - intros now.
    destruct w as [[cfg id host c0 u0 conn0 init connd] g s0].
    destruct cfg as [[key url e rate d1 d2 d3 dbg cs]|]; reflexivity.
Qed.

(** The theorem for a context and a user with an identifier and an
    e-mail address, set on the example world. *)
Lemma context_and_user_reach_no_report_witness :
  let a' :=
    set_user_json (Some (js "{'id':'u1','email':'a@b.c'}"))
      (aivory_set_context (Some (js "'k':1")) (g_agent example_world)) in
  (forall (env : capture_env) (message file : option string) (line : Z)
          (context_json : option string) (draws : list Z),
     aivory_capture_error_with_context linux_x86_64 env message file line
       context_json (with_agent a' example_world) draws
     = aivory_capture_error_with_context linux_x86_64 env message file line
         context_json example_world draws)
  /\ (forall (env : Signal.handler_env) (sig : Z) (si_addr : option Z)
             (s : Signal.signal_state)
             (conn : option Transport.ws_connection_t),
        Signal.signal_handler linux_x86_64 a' env sig si_addr s conn
        = Signal.signal_handler linux_x86_64 (g_agent example_world) env sig
            si_addr s conn)
  /\ (forall now : Z,
        Transport.build_register_message linux_x86_64 now a'
        = Transport.build_register_message linux_x86_64 now
            (g_agent example_world)).
Proof.
  apply (context_and_user_reach_no_report linux_x86_64 example_world
           (Some (js "'k':1")) true (Some "u1"%string) (Some "a@b.c"%string)
           None).
  reflexivity.
Defined.

Lemma close_object_cons (c d : ascii) (r : string) :
  close_object (String c (String d r)) = String c (close_object (String d r)).
Proof. reflexivity. Qed.

Lemma close_object_app (s : string) (d : ascii) (r : string) :
  close_object (s ++ String d r) = (s ++ close_object (String d r))%string.
Proof.
  induction s as [|c s IH]; [reflexivity|].
  change (String c s ++ String d r)%string with (String c (s ++ String d r)).
  change (String c s ++ close_object (String d r))%string
    with (String c (s ++ close_object (String d r))).
  rewrite <- IH. destruct s; reflexivity.
Qed.

Lemma close_object_cons_app (c : ascii) (s : string) (d : ascii) (r : string) :
  close_object (String c (s ++ String d r))
  = String c (s ++ close_object (String d r)).
Proof. exact (close_object_app (String c s) d r). Qed.

(** X20.  [aivory_set_user] stores one JSON object whose members are the
    fields given, in the order id, email, username, separated by commas
    and with no comma before the closing brace; the values are copied as
    they are.  It does so exactly when that object has at most 1023
    bytes; a longer one overruns the 1024 bytes of the buffer.  With no
    field given the user is cleared.  When the buffer cannot be allocated
    the agent keeps the pointer to the text it has just freed. *)
Theorem set_user_stores_members :
  forall (user_id email username : option string) (a : aivory_agent_t),
    let members := user_members user_id email username in
    let text := ("{" ++ String.concat "," members ++ "}")%string in
    aivory_set_user true user_id email username a
    = match members with
      | [] => UserStored (set_user_json None a)
      | _ :: _ =>
          if strlen text <=? 1023
          then UserStored (set_user_json (Some text) a)
          else UserOverrun
      end
    /\ aivory_set_user false user_id email username a
       = match members, user_json a with
         | [], _ => UserStored (set_user_json None a)
         | _ :: _, Some _ => UserDangling
         | _ :: _, None => UserStored a
         end
    /\ aivory_clear_user a = UserStored (set_user_json None a).
Proof.
  intros user_id email username a members text.
  split; [|split; [|reflexivity]].
  - subst text members. unfold aivory_set_user, user_members, user_field.
    destruct user_id as [u|], email as [e|], username as [n|];
      cbn [negb app String.concat js String.append Ascii.eqb Bool.eqb];
      try reflexivity;
      repeat (rewrite append_assoc || rewrite append_nil_r
              || (progress cbn [String.append]));
      match goal with
      | |- (if strlen ?t <=? 1023 then UserStored (set_user_json (Some (close_object ?t)) a) else _)
           = (if strlen ?x <=? 1023 then _ else _) =>
          assert (E : close_object t = x);
          [repeat (rewrite close_object_cons || rewrite close_object_cons_app);
           reflexivity
          |assert (L : strlen t = strlen x);
           [unfold strlen; f_equal;
            repeat (cbn [String.length] || rewrite length_append); lia
           |rewrite E, L; reflexivity]]
      end.
  - subst members. unfold aivory_set_user, user_members.
    destruct user_id, email, username; reflexivity.
Qed.

(** *** The default configuration *)

(** X21.  With the configuration [aivory_config_default] reads from the
    environment, [aivory_init] on an agent that is not initialised
    succeeds exactly when [AIVORY_API_KEY] is set and not empty;
    otherwise it returns -1, prints that the key is required and changes
    nothing.  The configuration captures signals; it is in debug mode
    exactly when [AIVORY_DEBUG] is the text [true]; without
    [AIVORY_SAMPLING_RATE] every error is sampled and no random number is
    drawn; and without [AIVORY_BACKEND_URL] the worker gets from
    [parse_url] the host [api.aivory.net], port 443, the path
    [/monitor/agent] and TLS. *)
Theorem default_config_needs_key :
  forall (getenv : string -> option string) (atof : string -> float)
         (env : init_env) (w : world),
    initialized (g_agent w) = false ->
    let cfg := aivory_config_default getenv atof in
    let key_given :=
      match getenv "AIVORY_API_KEY"%string with
      | Some (String _ _) => true
      | _ => false
      end in
    (if key_given
     then fst (fst (aivory_init env (Some cfg) w)) = 0
          /\ initialized (g_agent (snd (fst (aivory_init env (Some cfg) w))))
             = true
     else aivory_init env (Some cfg) w
          = (-1, w, [Stderr "[AIVory Monitor] API key is required"]))
    /\ capture_signals cfg = true
    /\ (debug cfg = true <-> getenv "AIVORY_DEBUG"%string = Some "true"%string)
    /\ (getenv "AIVORY_SAMPLING_RATE"%string = None ->
        forall draws : list Z, aivory_should_sample cfg draws = (true, draws))
    /\ (getenv "AIVORY_BACKEND_URL"%string = None ->
        forall pf : platform,
          Transport.parse_url pf (backend_url cfg)
          = Some {| Transport.url_host := "api.aivory.net";
                    Transport.url_port := 443;
                    Transport.url_path := "/monitor/agent";
                    Transport.url_use_ssl := true |}).
Proof.
  intros getenv atof env w Hinit cfg key_given.
  split; [|split; [|split; [|split]]].
  - subst key_given. unfold aivory_init. rewrite Hinit.
    subst cfg. unfold aivory_config_default. cbn [api_key].
    destruct (getenv "AIVORY_API_KEY"%string) as [[|c key]|];
      cbn [key_is_empty]; try reflexivity.
    cbn [capture_signals].
    destruct (Signal.aivory_install_signal_handlers _ _) as [sigs eff1].
    destruct (Transport.aivory_ws_connect _ _ _ _) as [[[rc conn] a2] eff2].
    split; reflexivity.
  - reflexivity.
  - subst cfg. unfold aivory_config_default. cbn [debug].
    destruct (getenv "AIVORY_DEBUG"%string) as [d|].
    + split.
      * intros H. apply String.eqb_eq in H. now subst d.
      * intros H. injection H as ->. reflexivity.
    + split; discriminate.
  - intros H draws. subst cfg.
    unfold aivory_should_sample, aivory_config_default. cbn [sampling_rate].
    rewrite H. reflexivity.
  - intros H pf. subst cfg. unfold aivory_config_default. cbn [backend_url].
    rewrite H. reflexivity.
Qed.

(** The theorem for an environment in which only the key is set. *)
Lemma default_config_needs_key_witness :
  let cfg := aivory_config_default example_getenv example_atof in
  (fst (fst (aivory_init example_init_env (Some cfg)
               (world_zero Signal.all_default))) = 0
   /\ initialized
        (g_agent (snd (fst (aivory_init example_init_env (Some cfg)
                              (world_zero Signal.all_default)))))
      = true)
  /\ capture_signals cfg = true
  /\ (debug cfg = true
      <-> example_getenv "AIVORY_DEBUG"%string = Some "true"%string)
  /\ (example_getenv "AIVORY_SAMPLING_RATE"%string = None ->
      forall draws : list Z, aivory_should_sample cfg draws = (true, draws))
  /\ (example_getenv "AIVORY_BACKEND_URL"%string = None ->
      forall pf : platform,
        Transport.parse_url pf (backend_url cfg)
        = Some {| Transport.url_host := "api.aivory.net";
                  Transport.url_port := 443;
                  Transport.url_path := "/monitor/agent";
                  Transport.url_use_ssl := true |}).
Proof.
  apply (default_config_needs_key example_getenv example_atof example_init_env
           (world_zero Signal.all_default)).
  reflexivity.
Defined.

(** *** Reports without a connection *)

Lemma capture_without_connection (pf : platform) (env : capture_env)
    (message file : option string) (line : Z) (context_json : option string)
    (w : world) (draws : list Z) :
  g_connection w = None ->
  fst (fst (fst (aivory_capture_error_with_context pf env message file line
                   context_json w draws))) = None
  /\ forall frame : string,
       ~ In (Write frame)
            (snd (fst (aivory_capture_error_with_context pf env message file
                         line context_json w draws))).
Proof.
  intros Hconn. unfold aivory_capture_error_with_context. rewrite Hconn.
  assert (Hnil : forall frame : string, ~ In (Write frame) []).
  { intros frame []. }
  assert (Hcap : forall frame : string, ~ In (Write frame) [Capture 2]).
  { intros frame [H|[]]. discriminate H. }
  destruct (initialized (g_agent w)); cbn [negb]; [|now split].
  destruct (config (g_agent w)) as [cfg|]; [|now split].
  destruct (aivory_should_sample cfg draws) as [[|] draws']; cbn [negb];
    [|now split].
  destruct (env_json_ok env); cbn [negb]; [|now split].
  match goal with
  | |- context [if ?b then _ else _] => destruct b
  end; [|now split].
  cbn. split; [reflexivity|exact Hcap].
Qed.

(** X22.  [aivory_init] reports success although the connection could not
    be set up: when [calloc] or [pthread_create] fails it still returns 0
    and marks the agent initialised, printing one line on [stderr], with
    no connection and no worker.  From then on every report is formatted
    and dropped: [aivory_capture_error_with_context] leaves no connection,
    queues nothing and writes nothing, whatever it is given. *)
Theorem init_without_connection_drops_reports :
  forall (env : init_env) (cfg : aivory_config_t) (w : world) (c : ascii)
         (key : string),
    initialized (g_agent w) = false ->
    g_connection w = None ->
    api_key cfg = Some (String c key) ->
    conn_ok env && thread_ok env = false ->
    let r := aivory_init env (Some cfg) w in
    let w' := snd (fst r) in
    fst (fst r) = 0
    /\ initialized (g_agent w') = true
    /\ g_connection w' = None
    /\ In (Stderr "[AIVory Monitor] Failed to connect to backend") (snd r)
    /\ ~ In PthreadCreate (snd r)
    /\ forall (pf : platform) (cenv : capture_env)
              (message file : option string) (line : Z)
              (context_json : option string) (draws : list Z),
         let '(conn', _, eff, _) :=
           aivory_capture_error_with_context pf cenv message file line
             context_json w' draws in
         conn' = None /\ forall frame : string, ~ In (Write frame) eff.
Proof.
  intros env cfg w c key Hinit Hconn Hkey Hfail r w'.
  assert (Hr : exists (sigs : Signal.signal_state) (eff1 : list effect)
                      (a : aivory_agent_t),
             ~ In PthreadCreate eff1
             /\ initialized a = true
             /\ r = (0, {| g_agent := a; g_connection := None;
                           g_signals := sigs |},
                     eff1
                     ++ [Stderr "[AIVory Monitor] Failed to connect to backend"]
                     ++ [Stdout ("[AIVory Monitor] Agent v"
                                 ++ AIVORY_VERSION_STRING ++ " initialized");
                         Stdout ("[AIVory Monitor] Environment: "
                                 ++ environment cfg)])).
  { subst r. unfold aivory_init. rewrite Hinit, Hkey. cbn [key_is_empty].
    rewrite Hconn. unfold Transport.aivory_ws_connect.
    assert (Hneg : (if negb (conn_ok env) then true else negb (thread_ok env))
                   = true).
    { destruct (conn_ok env), (thread_ok env); try reflexivity.
      discriminate Hfail. }
    destruct (capture_signals cfg).
    - unfold Signal.aivory_install_signal_handlers.
      eexists; eexists; eexists. split; [|split].
      3:{ destruct (negb (conn_ok env)); [reflexivity|].
          cbn in Hneg. rewrite Hneg. reflexivity. }
      + unfold Transport.debug_log.
        destruct (agent_debug _); cbn; intuition discriminate.
      + reflexivity.
    - eexists; eexists; eexists. split; [|split].
      3:{ destruct (negb (conn_ok env)); [reflexivity|].
          cbn in Hneg. rewrite Hneg. reflexivity. }
      + intros [].
      + reflexivity. }
  destruct Hr as (sigs & eff1 & a & Hsig & Ha & Hr).
  subst w'. rewrite Hr. cbn [fst snd g_agent g_connection].
  split; [reflexivity|]. split; [exact Ha|]. split; [reflexivity|].
  split; [|split].
  - apply in_or_app. right. now left.
  - intros H. apply in_app_or in H. destruct H as [H|H].
    + exact (Hsig H).
    + cbn in H. destruct H as [H|[H|[H|[]]]]; discriminate H.
  - intros pf cenv message file line context_json draws.
    pose proof (capture_without_connection pf cenv message file line
                  context_json
                  {| g_agent := a; g_connection := None; g_signals := sigs |}
                  draws eq_refl) as [H1 H2].
    destruct (aivory_capture_error_with_context _ _ _ _ _ _ _ _)
      as [[[conn' d'] eff] rec].
    cbn [fst snd] in H1, H2. split; [exact H1|exact H2].
Qed.

(** The theorem for a process in which [calloc] fails. *)
Lemma init_without_connection_drops_reports_witness :
  let env := {| new_agent_id := Some "agent-65000000-0000002a"%string;
                new_hostname := Some "host"%string;
                conn_ok := false; thread_ok := true |} in
  let r := aivory_init env (Some example_config)
             (world_zero Signal.all_default) in
  let w' := snd (fst r) in
  fst (fst r) = 0
  /\ initialized (g_agent w') = true
  /\ g_connection w' = None
  /\ In (Stderr "[AIVory Monitor] Failed to connect to backend") (snd r)
  /\ ~ In PthreadCreate (snd r)
  /\ forall (pf : platform) (cenv : capture_env)
            (message file : option string) (line : Z)
            (context_json : option string) (draws : list Z),
       let '(conn', _, eff, _) :=
         aivory_capture_error_with_context pf cenv message file line
           context_json w' draws in
       conn' = None /\ forall frame : string, ~ In (Write frame) eff.
Proof.
  apply (init_without_connection_drops_reports
           {| new_agent_id := Some "agent-65000000-0000002a"%string;
              new_hostname := Some "host"%string;
              conn_ok := false; thread_ok := true |}
           example_config (world_zero Signal.all_default) "t"%char
           "est-key-123"%string);
    reflexivity.
Defined.

End CaptureFacts.

(** * Backtraces: [extract_function_info], [aivory_capture_backtrace] *)

Section BacktraceCaptureFacts.
Import C Backtrace.
Local Open Scope string_scope.
Local Open Scope Z_scope.

Lemma strchr_app_none (a b : string) (c : ascii) :
  strchr a c = None ->
  strchr (a ++ b) c
  = option_map (fun k => (String.length a + k)%nat) (strchr b c).
Proof.
  induction a as [|d a IH]; intros H.
  - cbn. now destruct (strchr b c).
  - cbn in H |- *. destruct (Ascii.eqb d c); [discriminate H|].
    destruct (strchr a c); [discriminate H|].
    rewrite (IH eq_refl). now destruct (strchr b c).
Qed.

Lemma strchr_here (c : ascii) (s : string) : strchr (String c s) c = Some O.
Proof. cbn. now rewrite Ascii.eqb_refl. Qed.

Lemma from_append (a b : string) : from (String.length a) (a ++ b) = b.
Proof.
  induction a as [|d a IH]; [now destruct b|]. exact IH.
Qed.

Lemma from_next (a : string) (c : ascii) (b : string) :
  from (S (String.length a)) (a ++ String c b) = b.
Proof.
  induction a as [|d a IH]; [reflexivity|]. exact IH.
Qed.

Lemma take_prefix (a b : string) : take (String.length a) (a ++ b) = a.
Proof.
  unfold take. induction a as [|d a IH]; cbn.
  - now destruct b.
  - now rewrite IH.
Qed.

Lemma copy_name (func rest : string) :
  (if (0 <? String.length func)%nat
   then Some (take (String.length func) (func ++ rest))
   else None)
  = match func with
    | EmptyString => None
    | String _ _ => Some func
    end.
Proof.
  destruct func as [|c func]; [reflexivity|].
  rewrite take_prefix. reflexivity.
Qed.

(** X23.  [extract_function_info] reads an entry of [backtrace_symbols]
    as intended.  For a module path without parentheses and a function
    name without a plus sign or closing parenthesis: from
    [module(function+offset)...] it takes the module as the file path,
    the function as the name and the conversion of the text after the
    plus sign as the offset; from [module(function)...] the same with an
    offset of 0; an empty function name is left NULL; and an entry
    without an opening parenthesis is taken whole as the name, with no
    file path. *)
Theorem extract_function_info_reads_symbol :
  forall (strtol0 : string -> Z) (module func : string),
    strchr module "("%char = None ->
    strchr module ")"%char = None ->
    strchr func "+"%char = None ->
    strchr func ")"%char = None ->
    let name :=
      match func with
      | EmptyString => None
      | String _ _ => Some func
      end in
    (forall rest : string,
       strchr rest ")"%char <> None ->
       extract_function_info strtol0 true true
         (Some (module ++ "(" ++ func ++ "+" ++ rest))
       = {| func_name := name; file_path := Some module;
            offset := int_of_long (strtol0 rest) |})
    /\ (forall tail : string,
          extract_function_info strtol0 true true
            (Some (module ++ "(" ++ func ++ ")" ++ tail))
          = {| func_name := name; file_path := Some module; offset := 0 |})
    /\ (forall tail : string,
          strchr tail "("%char = None ->
          extract_function_info strtol0 true true (Some (module ++ tail))
          = {| func_name := Some (module ++ tail); file_path := None;
               offset := 0 |}).
Proof.
  intros strtol0 module func Hm1 Hm2 Hf1 Hf2 name.
  split; [|split].
  - intros rest Hrest.
    destruct (strchr rest ")"%char) as [k|] eqn:Hk; [|now destruct Hrest].
    unfold extract_function_info.
    rewrite (strchr_app_none module _ "("%char Hm1).
    change ("(" ++ func ++ "+" ++ rest) with (String "("%char (func ++ "+" ++ rest)).
    rewrite strchr_here. cbn [option_map].
    rewrite (strchr_app_none module _ ")"%char Hm2).
    cbn [strchr Ascii.eqb Bool.eqb].
    rewrite (strchr_app_none func _ ")"%char Hf2).
    change ("+" ++ rest) with (String "+"%char rest).
    cbn [strchr Ascii.eqb Bool.eqb]. rewrite Hk. cbn [option_map].
    rewrite Nat.add_0_r.
    replace (String.length module <? String.length module
               + S (String.length func + S k))%nat with true
      by (symmetry; apply Nat.ltb_lt; lia).
    rewrite from_next.
    rewrite (strchr_app_none func _ "+"%char Hf1).
    rewrite strchr_here. cbn [option_map]. rewrite Nat.add_0_r.
    replace (String.length module + 1 + String.length func
             <? String.length module + S (String.length func + S k))%nat
      with true by (symmetry; apply Nat.ltb_lt; lia).
    rewrite copy_name, from_next, take_prefix. reflexivity.
  - intros tail. unfold extract_function_info.
    rewrite (strchr_app_none module _ "("%char Hm1).
    change ("(" ++ func ++ ")" ++ tail) with (String "("%char (func ++ ")" ++ tail)).
    rewrite strchr_here. cbn [option_map].
    rewrite (strchr_app_none module _ ")"%char Hm2).
    cbn [strchr Ascii.eqb Bool.eqb].
    rewrite (strchr_app_none func _ ")"%char Hf2).
    change (")" ++ tail) with (String ")"%char tail).
    rewrite strchr_here. cbn [option_map].
    rewrite !Nat.add_0_r.
    replace (String.length module <? String.length module
               + S (String.length func))%nat with true
      by (symmetry; apply Nat.ltb_lt; lia).
    rewrite from_next.
    replace (String.length module + S (String.length func)
             - String.length module - 1)%nat
      with (String.length func) by lia.
    rewrite copy_name, take_prefix.
    rewrite (strchr_app_none func _ "+"%char Hf1).
    cbn [strchr Ascii.eqb Bool.eqb].
    destruct (strchr tail "+"%char) as [p|]; cbn [option_map]; [|reflexivity].
    replace (String.length module + 1 + (String.length func + S p)
             <? String.length module + S (String.length func))%nat
      with false by (symmetry; apply Nat.ltb_ge; lia).
    reflexivity.
  - intros tail Ht. unfold extract_function_info.
    rewrite (strchr_app_none module _ "("%char Hm1), Ht. reflexivity.
Qed.

(** The theorem for the module [./app] and the function [main]. *)
Lemma extract_function_info_reads_symbol_witness :
  (forall rest : string,
     strchr rest ")"%char <> None ->
     extract_function_info example_strtol0 true true
       (Some ("./app" ++ "(" ++ "main" ++ "+" ++ rest))
     = {| func_name := Some "main"; file_path := Some "./app";
          offset := int_of_long (example_strtol0 rest) |})
  /\ (forall tail : string,
        extract_function_info example_strtol0 true true
          (Some ("./app" ++ "(" ++ "main" ++ ")" ++ tail))
        = {| func_name := Some "main"; file_path := Some "./app";
             offset := 0 |})
  /\ (forall tail : string,
        strchr tail "("%char = None ->
        extract_function_info example_strtol0 true true (Some ("./app" ++ tail))
        = {| func_name := Some ("./app" ++ tail); file_path := None;
             offset := 0 |}).
Proof.
  apply (extract_function_info_reads_symbol example_strtol0 "./app" "main");
    reflexivity.
Defined.

(** *** The array of frames *)

Lemma strlen_app (a b : string) : strlen (a ++ b) = strlen a + strlen b.
Proof. unfold strlen. rewrite length_append. lia. Qed.

Lemma strlen_nonneg (a : string) : 0 <= strlen a.
Proof. unfold strlen. lia. Qed.

Lemma frame_text_nonempty (strtol0 : string -> Z) (f : frame) :
  0 < strlen (frame_text strtol0 f).
Proof.
  unfold frame_text.
  change (js "{") with (String "{"%char EmptyString).
  cbn [String.append]. unfold strlen. cbn [String.length]. lia.
Qed.

Lemma more_frames_joined (strtol0 : string -> Z) (rest : list frame) (x : string) :
  x ++ more_frames strtol0 rest
  = String.concat "," (x :: map (frame_text strtol0) rest).
Proof.
  revert x. induction rest as [|g rest IH]; intros x.
  - cbn. apply append_nil_r.
  - cbn [more_frames fold_right map]. fold (more_frames strtol0 rest).
    rewrite IH.
    change (String.concat "," (x :: frame_text strtol0 g
                                 :: map (frame_text strtol0) rest))
      with (x ++ "," ++ String.concat ","
                          (frame_text strtol0 g :: map (frame_text strtol0) rest)).
    reflexivity.
Qed.

Lemma frames_loop_more (strtol0 : string -> Z) (l : list frame) :
  forall (actual : Z) (acc : string),
    0 < actual ->
    actual + Z.of_nat (List.length l) <= MAX_FRAMES ->
    Forall (fun f => strlen (frame_text strtol0 f) < 2 ^ 31) l ->
    strlen acc < MAX_JSON_SIZE ->
    frames_loop strtol0 l actual acc
    = if strlen (acc ++ more_frames strtol0 l) <? MAX_JSON_SIZE
      then Some (acc ++ more_frames strtol0 l)
      else None.
Proof.
  induction l as [|f rest IH]; intros actual acc Hpos Hcount Hall Hacc.
  - cbn [frames_loop more_frames fold_right]. rewrite append_nil_r.
    now replace (strlen acc <? MAX_JSON_SIZE) with true by lia.
  - cbn [frames_loop]. cbn [List.length] in Hcount.
    inversion Hall as [|f0 l0 Hf Hrest]; subst f0 l0.
    pose proof (frame_text_nonempty strtol0 f) as Hne.
    replace (actual <? MAX_FRAMES) with true by lia.
    replace (0 <? actual) with true by lia.
    replace (MAX_JSON_SIZE <=? strlen acc) with false by lia.
    cbn [andb]. unfold snprintf_result.
    replace (strlen (frame_text strtol0 f) <? 2 ^ 31) with true by lia.
    replace (strlen (frame_text strtol0 f) >? 0) with true by lia.
    cbn [more_frames fold_right]. fold (more_frames strtol0 rest).
    pose proof (strlen_nonneg (more_frames strtol0 rest)) as Hmore.
    rewrite (strlen_app acc ","). change (strlen ",") with 1.
    destruct (Z.ltb_spec (strlen (frame_text strtol0 f))
                (MAX_JSON_SIZE - (strlen acc + 1))) as [Hfit|Hcut].
    + rewrite IH; [|lia|lia|exact Hrest|].
      * rewrite !append_assoc. reflexivity.
      * rewrite !strlen_app. change (strlen ",") with 1. lia.
    + replace (strlen (acc ++ "," ++ frame_text strtol0 f
                       ++ more_frames strtol0 rest) <? MAX_JSON_SIZE)
        with false; [reflexivity|].
      rewrite !strlen_app. change (strlen ",") with 1. lia.
Qed.

(** X24.  For the frames [backtrace_symbols] gives, at most 50,
    [aivory_capture_backtrace] returns the JSON array of the objects of
    the frames after the first [skip], in order and separated by commas,
    exactly when that text is shorter than the 32768 bytes of its buffer.
    A longer text is not cut: it is written past the end of the buffer.
    Without symbols the result is the empty array, and NULL when the
    buffer cannot be allocated. *)
Theorem capture_backtrace_is_array :
  forall (strtol0 : string -> Z) (skip : Z) (frames : list frame),
    0 <= skip ->
    Z.of_nat (List.length frames) <= MAX_FRAMES ->
    Forall (fun f => strlen (frame_text strtol0 f) < 2 ^ 31) frames ->
    let shown := skipn (Z.to_nat skip) frames in
    let json :=
      "[" ++ String.concat "," (map (frame_text strtol0) shown) ++ "]" in
    aivory_capture_backtrace strtol0 true skip (Some frames)
    = (if strlen json <? MAX_JSON_SIZE
       then BacktraceJson json
       else BacktraceFault)
    /\ aivory_capture_backtrace strtol0 true skip None = BacktraceJson "[]"
    /\ aivory_capture_backtrace strtol0 false skip (Some frames)
       = BacktraceNull.
Proof.
  intros strtol0 skip frames Hskip Hcount Hall shown json.
  split; [|split; reflexivity].
  unfold aivory_capture_backtrace. cbn [negb].
  replace (skip <? 0) with false by lia. fold shown.
  assert (Hshown : Z.of_nat (List.length shown) <= MAX_FRAMES).
  { subst shown. rewrite length_skipn. lia. }
  assert (Hall' : Forall (fun f => strlen (frame_text strtol0 f) < 2 ^ 31) shown).
  { subst shown. apply Forall_forall. intros f Hf.
    rewrite Forall_forall in Hall. apply Hall.
    rewrite <- (firstn_skipn (Z.to_nat skip) frames).
    apply in_or_app. now right. }
  subst json. clearbody shown. destruct shown as [|f rest].
  - reflexivity.
  - cbn [frames_loop]. cbn [List.length] in Hshown.
    inversion Hall' as [|f0 l0 Hf Hrest]; subst f0 l0.
    pose proof (frame_text_nonempty strtol0 f) as Hne.
    change (0 <? MAX_FRAMES) with true. change (0 <? 0) with false.
    cbn [andb]. unfold snprintf_result.
    replace (strlen (frame_text strtol0 f) <? 2 ^ 31) with true by lia.
    replace (strlen (frame_text strtol0 f) >? 0) with true by lia.
    change (strlen "[") with 1.
    cbn [map]. rewrite <- more_frames_joined.
    pose proof (strlen_nonneg (more_frames strtol0 rest)) as Hmore.
    rewrite !strlen_app. change (strlen "[") with 1. change (strlen "]") with 1.
    destruct (Z.ltb_spec (strlen (frame_text strtol0 f)) (MAX_JSON_SIZE - 1))
      as [Hfit|Hcut].
    + rewrite frames_loop_more; [|lia|lia|exact Hrest|].
      2:{ rewrite strlen_app. change (strlen "[") with 1. lia. }
      rewrite !strlen_app. change (strlen "[") with 1.
      destruct (Z.ltb_spec (1 + strlen (frame_text strtol0 f)
                            + strlen (more_frames strtol0 rest)) MAX_JSON_SIZE)
        as [Hall_fit|Hover].
      * rewrite !strlen_app. change (strlen "[") with 1.
        destruct (Z.ltb_spec (1 + strlen (frame_text strtol0 f)
                              + strlen (more_frames strtol0 rest) + 1)
                    MAX_JSON_SIZE) as [Hend|Hend].
        -- replace (1 + (strlen (frame_text strtol0 f)
                         + strlen (more_frames strtol0 rest) + 1)
                    <? MAX_JSON_SIZE) with true by lia.
           rewrite !append_assoc. reflexivity.
        -- now replace (1 + (strlen (frame_text strtol0 f)
                             + strlen (more_frames strtol0 rest) + 1)
                        <? MAX_JSON_SIZE) with false by lia.
      * now replace (1 + (strlen (frame_text strtol0 f)
                           + strlen (more_frames strtol0 rest) + 1)
                      <? MAX_JSON_SIZE) with false by lia.
    + now replace (1 + (strlen (frame_text strtol0 f)
                         + strlen (more_frames strtol0 rest) + 1)
                    <? MAX_JSON_SIZE) with false by lia.
Qed.

(** The theorem for a report made in [main], the first two frames
    skipped. *)
Lemma capture_backtrace_is_array_witness :
  let shown := skipn (Z.to_nat 2) example_symbols in
  let json :=
    "[" ++ String.concat "," (map (frame_text example_strtol0) shown) ++ "]" in
  aivory_capture_backtrace example_strtol0 true 2 (Some example_symbols)
  = (if strlen json <? MAX_JSON_SIZE
     then BacktraceJson json
     else BacktraceFault)
  /\ aivory_capture_backtrace example_strtol0 true 2 None = BacktraceJson "[]"
  /\ aivory_capture_backtrace example_strtol0 false 2 (Some example_symbols)
     = BacktraceNull.
Proof.
  apply (capture_backtrace_is_array example_strtol0 2 example_symbols).
  - lia.
  - vm_compute. discriminate.
  - repeat (apply Forall_cons; [reflexivity|]). apply Forall_nil.
Defined.

End BacktraceCaptureFacts.

(** * The agent identifier: [aivory_generate_agent_id] *)

Section AgentIdFacts.
Import C Backtrace Agent.
Local Open Scope string_scope.
Local Open Scope Z_scope.

Lemma fmt_08x_spec (v : Z) :
  0 <= v < 2 ^ 32 ->
  String.length (fmt_08x v) = 8%nat
  /\ hex_value (fmt_08x v) = v
  /\ forallb is_lower_hex (list_ascii_of_string (fmt_08x v)) = true.
Proof.
  intros Hv. unfold fmt_08x.
  destruct (hex_digits_spec 8 v EmptyString ltac:(lia) Hv)
    as (d & Hd & Hdv & Hlen & Hall).
  rewrite Hd, append_nil_r.
  destruct (zeros_facts (8 - String.length d)) as (Zl & Zv & Za).
  repeat split.
  - rewrite length_append, Zl. lia.
  - rewrite hex_value_app, Zv. exact Hdv.
  - now rewrite all_hex_app, Za, Hall.
Qed.

Lemma agent_rand_val_range (pf : platform) (now : Z) (urandom : option Z)
    (pid : Z) :
  0 <= agent_rand_val pf now urandom pid < 2 ^ 32.
Proof.
  unfold agent_rand_val, to_uint.
  destruct (if String.eqb (os_name pf) "linux" then urandom else None);
    apply Z.mod_pos_bound; lia.
Qed.

(** Two texts of hexadecimal digits, each followed by a dash, that start
    the same string are the same text. *)
Lemma split_at_dash (a a' b b' : string) :
  forallb is_lower_hex (list_ascii_of_string a) = true ->
  forallb is_lower_hex (list_ascii_of_string a') = true ->
  a ++ String "-" b = a' ++ String "-" b' ->
  a = a' /\ b = b'.
Proof.
  revert a'. induction a as [|c a IH]; intros a' Ha Ha' H.
  - destruct a' as [|c' a'].
    + cbn in H. injection H as ->. now split.
    + cbn in H, Ha'. injection H as <- _. discriminate Ha'.
  - destruct a' as [|c' a'].
    + cbn in H, Ha. injection H as -> _. discriminate Ha.
    + cbn in H, Ha, Ha'. injection H as -> H.
      apply andb_prop in Ha, Ha'.
      destruct (IH a' (proj2 Ha) (proj2 Ha') H) as [-> ->]. now split.
Qed.

(** X25.  On a platform whose [long] has 32 or 64 bits, the identifier
    [aivory_generate_agent_id] returns is [agent-], the time in
    hexadecimal (1 to 16 digits, no padding), a dash, and [rand_val] in 8
    hexadecimal digits: at most 31 bytes, so the 64 bytes of the buffer
    never cut it.  The identifier determines the time (as an [unsigned
    long]) and [rand_val]: two calls return the same identifier only when
    they agree on both. *)
Theorem agent_id_is_time_and_random :
  forall (pf : platform) (now : Z) (urandom : option Z) (pid : Z),
    supported pf ->
    (exists h r : string,
       aivory_generate_agent_id pf true now urandom pid
       = Some ("agent-" ++ h ++ "-" ++ r)
       /\ (1 <= String.length h <= 16)%nat
       /\ String.length r = 8%nat
       /\ forallb is_lower_hex (list_ascii_of_string (h ++ r)) = true
       /\ hex_value h = now mod 2 ^ ulong_bits pf
       /\ hex_value r = agent_rand_val pf now urandom pid)
    /\ (forall (now' : Z) (urandom' : option Z) (pid' : Z),
          aivory_generate_agent_id pf true now urandom pid
          = aivory_generate_agent_id pf true now' urandom' pid' ->
          now mod 2 ^ ulong_bits pf = now' mod 2 ^ ulong_bits pf
          /\ agent_rand_val pf now urandom pid
             = agent_rand_val pf now' urandom' pid').
Proof.
  intros pf now urandom pid Hpf.
  assert (Hshape : forall (t : Z) (u : option Z) (p : Z),
            exists h r : string,
              aivory_generate_agent_id pf true t u p
              = Some ("agent-" ++ h ++ "-" ++ r)
              /\ (1 <= String.length h <= 16)%nat
              /\ String.length r = 8%nat
              /\ forallb is_lower_hex (list_ascii_of_string h) = true
              /\ forallb is_lower_hex (list_ascii_of_string r) = true
              /\ hex_value h = t mod 2 ^ ulong_bits pf
              /\ hex_value r = agent_rand_val pf t u p).
  { intros t u p.
    assert (Ht : 0 <= to_ulong pf t < 16 ^ Z.of_nat 16).
    { unfold to_ulong. change (16 ^ Z.of_nat 16) with (2 ^ 64).
      destruct Hpf as [-> | ->].
      - pose proof (Z.mod_pos_bound t (2 ^ 32) ltac:(lia)). lia.
      - apply Z.mod_pos_bound. lia. }
    destruct (hex_digits_spec 16 (to_ulong pf t) EmptyString ltac:(lia) Ht)
      as (h & Hh & Hhv & Hhl & Hha).
    destruct (fmt_08x_spec _ (agent_rand_val_range pf t u p))
      as (Hrl & Hrv & Hra).
    exists h, (fmt_08x (agent_rand_val pf t u p)).
    rewrite append_nil_r in Hh.
    split; [|repeat split; try assumption; lia].
    unfold aivory_generate_agent_id. rewrite Hh. f_equal.
    set (id := "agent-" ++ h ++ "-" ++ fmt_08x (agent_rand_val pf t u p)).
    assert (Hlen : (String.length id <= 63)%nat).
    { subst id. rewrite !length_append, Hrl. cbn [String.length]. lia. }
    clearbody id. unfold take. revert Hlen. generalize 63%nat.
    induction id as [|c id IH]; intros n Hn.
    - now destruct n.
    - destruct n as [|n]; [cbn in Hn; lia|].
      cbn. rewrite IH; [reflexivity|]. cbn in Hn. lia. }
  split.
  - destruct (Hshape now urandom pid)
      as (h & r & Hid & Hhl & Hrl & Hha & Hra & Hhv & Hrv).
    exists h, r. repeat split; try assumption; try lia.
    now rewrite all_hex_app, Hha, Hra.
  - intros now' urandom' pid' Heq.
    destruct (Hshape now urandom pid)
      as (h & r & Hid & Hhl & Hrl & Hha & Hra & Hhv & Hrv).
    destruct (Hshape now' urandom' pid')
      as (h' & r' & Hid' & Hhl' & Hrl' & Hha' & Hra' & Hhv' & Hrv').
    rewrite Hid, Hid' in Heq. injection Heq as Heq.
    destruct (split_at_dash h h' r r' Hha Hha' Heq) as [-> ->].
    split; congruence.
Qed.

(** The theorem on 64-bit Linux. *)
Lemma agent_id_is_time_and_random_witness :
  (exists h r : string,
     aivory_generate_agent_id linux_x86_64 true 1700000000 (Some 42) 4242
     = Some ("agent-" ++ h ++ "-" ++ r)
     /\ (1 <= String.length h <= 16)%nat
     /\ String.length r = 8%nat
     /\ forallb is_lower_hex (list_ascii_of_string (h ++ r)) = true
     /\ hex_value h = 1700000000 mod 2 ^ ulong_bits linux_x86_64
     /\ hex_value r = agent_rand_val linux_x86_64 1700000000 (Some 42) 4242)
  /\ (forall (now' : Z) (urandom' : option Z) (pid' : Z),
        aivory_generate_agent_id linux_x86_64 true 1700000000 (Some 42) 4242
        = aivory_generate_agent_id linux_x86_64 true now' urandom' pid' ->
        1700000000 mod 2 ^ ulong_bits linux_x86_64
        = now' mod 2 ^ ulong_bits linux_x86_64
        /\ agent_rand_val linux_x86_64 1700000000 (Some 42) 4242
           = agent_rand_val linux_x86_64 now' urandom' pid').
Proof.
  apply (agent_id_is_time_and_random linux_x86_64 1700000000 (Some 42) 4242).
  right. reflexivity.
Defined.

End AgentIdFacts.
